(** * WhatsApp authentication system: security and session-lifecycle engine

    A shallow embedding of the TypeScript sources of the repository
    (token minting and verification, double-submit CSRF guard, rate limiter,
    webhook signature check, message de-duplication, verification-code
    generation and extraction) together with the properties stated for them.

    Conventions of the embedding:
    - a JavaScript string is a [string]: a sequence of code units below 256;
      [charCodeAt] is [N_of_ascii]; [secureCompare], whose answer depends on
      the code units from 256 on, takes the list of the 16-bit code units;
    - [Date.now()] is an explicit argument in milliseconds, a [Z];
    - a [Map] is a [gmap]; module-level mutable maps are threaded as state;
    - randomness ([crypto.getRandomValues], [crypto.randomBytes], nanoid's
      byte pool) is an explicit argument holding the bytes that were drawn;
    - HMAC-SHA-256 and bcrypt are parameters of the sections that use them. *)

From stdpp Require Import gmap strings list fin_maps.
From Stdlib Require Import ZArith NArith Ascii String Lia Bool.
From Stdlib.Strings Require Import Byte.

Open Scope string_scope.

(** ** Characters and strings as JavaScript sees them *)

Module Chars.

Definition charCode (c : ascii) : N := N_of_ascii c.

Definition between (lo hi n : N) : bool := (lo <=? n)%N && (n <=? hi)%N.

(** [[0-9]] *)
Definition isDigit (c : ascii) : bool := between 48 57 (charCode c).
(** [[A-Z]] *)
Definition isUpper (c : ascii) : bool := between 65 90 (charCode c).
(** [[a-z]] *)
Definition isLower (c : ascii) : bool := between 97 122 (charCode c).
(** [[A-Z]] under the [i] flag, or [[a-zA-Z]] *)
Definition isLetter (c : ascii) : bool := isUpper c || isLower c.
(** [[A-Z0-9]] under the [i] flag *)
Definition isAlnum (c : ascii) : bool := isLetter c || isDigit c.
(** [\w]: letters, digits and the underscore *)
Definition isWord (c : ascii) : bool := isAlnum c || (charCode c =? 95)%N.
(** [\s] restricted to code units below 256: TAB, LF, VT, FF, CR, space
    and the no-break space *)
Definition isSpace (c : ascii) : bool :=
  between 9 13 (charCode c) || (charCode c =? 32)%N || (charCode c =? 160)%N.
(** [[a-f0-9]] under the [i] flag *)
Definition isHex (c : ascii) : bool :=
  isDigit c || between 97 102 (charCode c) || between 65 70 (charCode c).

Definition toUpperChar (c : ascii) : ascii :=
  if isLower c then ascii_of_N (charCode c - 32) else c.
Definition toLowerChar (c : ascii) : ascii :=
  if isUpper c then ascii_of_N (charCode c + 32) else c.

(** [String.prototype.toUpperCase] on the code units the sources apply it
    to (matches of [[A-Z0-9]{6}]); other code units are left alone. *)
Fixpoint toUpperCase (s : string) : string :=
  match s with
  | EmptyString => EmptyString
  | String c s' => String (toUpperChar c) (toUpperCase s')
  end.

Fixpoint toLowerCase (s : string) : string :=
  match s with
  | EmptyString => EmptyString
  | String c s' => String (toLowerChar c) (toLowerCase s')
  end.

Fixpoint forallb_str (p : ascii -> bool) (s : string) : bool :=
  match s with
  | EmptyString => true
  | String c s' => p c && forallb_str p s'
  end.

Fixpoint existsb_str (p : ascii -> bool) (s : string) : bool :=
  match s with
  | EmptyString => false
  | String c s' => p c || existsb_str p s'
  end.

(** [s.slice(0, n)] *)
Fixpoint slice0 (n : nat) (s : string) : string :=
  match n, s with
  | S n', String c s' => String c (slice0 n' s')
  | _, _ => EmptyString
  end.

(** [s.substring(n)]: the string without its first [n] code units. *)
Fixpoint substringFrom (n : nat) (s : string) : string :=
  match n, s with
  | O, _ => s
  | S n', String _ s' => substringFrom n' s'
  | S _, EmptyString => EmptyString
  end.

(** A JavaScript string used as a condition: the empty string is falsy. *)
Definition nonEmpty (s : string) : bool :=
  match s with EmptyString => false | _ => true end.

(** [x || fallback] style truthiness of a possibly missing string. *)
Definition truthy (o : option string) : bool :=
  match o with Some s => nonEmpty s | None => false end.

End Chars.

(** ** Hexadecimal text *)

(** Equality of bytes is decided by [Byte.eqb]. *)
#[global] Instance byte_eq_dec : EqDecision byte.
Proof.
  intros x y. destruct (Byte.eqb x y) eqn:E.
  - left. now apply Byte.byte_dec_bl.
  - right. intros ->. now rewrite Byte.byte_dec_lb in E.
Defined.

Module Hex.
Import Chars.

(** One digit of [Number.prototype.toString(16)] / [digest('hex')]. *)
Definition hexDigit (n : N) : ascii :=
  if (n <? 10)%N then ascii_of_N (48 + n) else ascii_of_N (87 + n).

(** [byte.toString(16).padStart(2, '0')] *)
Definition byteToHex (b : byte) : string :=
  let n := Byte.to_N b in
  String (hexDigit (n / 16)) (String (hexDigit (n mod 16)) EmptyString).

(** [Array.from(bytes, byteToHex).join('')], also [Buffer.toString('hex')] *)
Fixpoint hexOfBytes (bs : list byte) : string :=
  match bs with
  | [] => EmptyString
  | b :: bs' => byteToHex b ++ hexOfBytes bs'
  end.

(** Value of one hexadecimal digit, either case. *)
Definition hexValue (c : ascii) : option N :=
  let n := charCode c in
  if between 48 57 n then Some (n - 48)%N
  else if between 97 102 n then Some (n - 87)%N
  else if between 65 70 n then Some (n - 55)%N
  else None.

Definition byteOfN (n : N) : byte :=
  match Byte.of_N n with Some b => b | None => x00 end.

(** [Buffer.from(s, 'hex')]: pairs of digits are decoded from the left;
    decoding stops at the first pair that is not two hex digits, and a
    trailing single character is dropped. *)
Fixpoint bytesOfHex (s : string) : list byte :=
  match s with
  | String h (String l s') =>
      match hexValue h, hexValue l with
      | Some a, Some b => byteOfN (16 * a + b) :: bytesOfHex s'
      | _, _ => []
      end
  | _ => []
  end.

End Hex.

(** ** Double-submit CSRF guard ([lib/csrf-double-submit]) and the token
       endpoint ([app/api/csrf-token/route.ts]) *)

Module Csrf.
Import Chars Hex.

(** The parts of a [NextRequest] the guard and the routes read.  Header
    names are the lower-case names the platform normalises to. *)
Record NextRequest := {
  method : string;
  headers : gmap string string;
  cookies : gmap string string
}.

Definition headers_get (r : NextRequest) (name : string) : option string :=
  headers r !! name.

(** [request.cookies.get(name)?.value] *)
Definition cookies_get (r : NextRequest) (name : string) : option string :=
  cookies r !! name.

(** [generateCSRFToken]: 64 random bytes, each printed as two hex digits.
    [array] is the content of the [Uint8Array(64)] after
    [crypto.getRandomValues]. *)
Definition generateCSRFToken (array : nat -> byte) : string :=
  hexOfBytes (map array (seq 0 64)).

(** The loop of [timingSafeEqual]: [result |= a.charCodeAt(i) ^ b.charCodeAt(i)]
    over two strings of the same length. *)
Fixpoint xorAccumulate (a b : string) (result : N) : N :=
  match a, b with
  | String x a', String y b' =>
      xorAccumulate a' b' (N.lor result (N.lxor (charCode x) (charCode y)))
  | _, _ => result
  end.

Definition timingSafeEqual (a b : string) : bool :=
  if negb (String.length a =? String.length b)%nat then false
  else (xorAccumulate a b 0 =? 0)%N.

Definition validateDoubleSubmitCSRF (request : NextRequest) : bool :=
  if (method request =? "GET")%string then true
  else
    let csrfToken := headers_get request "x-csrf-token" in
    let csrfCookie := cookies_get request "csrf-token" in
    match csrfToken, csrfCookie with
    | Some t, Some c =>
        if negb (nonEmpty t) || negb (nonEmpty c) then false
        else timingSafeEqual t c
    | _, _ => false
    end.

(** The methods RFC 9110 calls safe, which is what "side-effect-free
    method" in the specification of the guard refers to. *)
Definition safe_method (m : string) : bool :=
  (m =? "GET") || (m =? "HEAD") || (m =? "OPTIONS") || (m =? "TRACE").

End Csrf.

(** ** The CSRF token endpoint *)

Module CsrfTokenRoute.
Import Chars Csrf.

(** What a response of the token endpoint carries: the status, the
    [token] field of the JSON body, and the value placed in the
    [csrf-token] cookie by [setCSRFCookie], if any. *)
Record TokenResponse := {
  status : nat;
  body_token : option string;
  set_cookie : option string
}.

(** [GET] of [app/api/csrf-token/route.ts].  The session identifier the
    handler computes is never used afterwards and is left out. *)
Definition GET (array : nat -> byte) (request : NextRequest) : TokenResponse :=
  if negb (truthy (headers_get request "user-agent")) then
    {| status := 400; body_token := None; set_cookie := None |}
  else
    let token := generateCSRFToken array in
    if negb (nonEmpty token) then
      {| status := 500; body_token := None; set_cookie := None |}
    else
      {| status := 200; body_token := Some token; set_cookie := Some token |}.

End CsrfTokenRoute.

(** The second copy of the endpoint kept in the repository
    ([unnamed/part_005]): an existing cookie value is returned as it is and
    the cookie is only set when a token was generated. *)

Module CsrfTokenRouteCopy.
Import Chars Csrf CsrfTokenRoute.

Definition GET (array : nat -> byte) (request : NextRequest) : TokenResponse :=
  if negb (truthy (headers_get request "user-agent")) then
    {| status := 400; body_token := None; set_cookie := None |}
  else
    let existingToken := cookies_get request "csrf-token" in
    let token :=
      if truthy existingToken then default "" existingToken
      else generateCSRFToken array in
    if negb (nonEmpty token) then
      {| status := 500; body_token := None; set_cookie := None |}
    else
      {| status := 200; body_token := Some token;
         set_cookie := if truthy existingToken then None else Some token |}.

End CsrfTokenRouteCopy.

(** ** Signed tokens ([lib/jwt], [lib/jwt-config]) *)

Module Jwt.

(** [JWTPayload] without [iat] and [exp]: what callers hand to
    [generateAccessToken]. *)
Record JWTPayload := {
  userId : string;
  username : string;
  phone : string;
  role : string
}.

(** The decoded payload segment of a token: the caller's fields and the
    registered claims, each of which an arbitrary token may lack.  [iat]
    and [exp] are in seconds. *)
Record Claims := {
  claims : JWTPayload;
  iat : option Z;
  exp : option Z;
  iss : option string;
  aud : option string
}.

Record Header := { alg : string; typ : string }.

(** A token in parsed form: the three dot-separated base64url segments
    [header.payload.signature] after decoding.  Strings that do not split
    into three decodable segments are not represented; the verifier
    rejects them before any of the checks below. *)
Record Token := {
  header : Header;
  payload : Claims;
  signature : list byte
}.

Definition issuer : string := "whatsapp-auth-system".
Definition audience : string := "auth-app".

Section Signing.

(** HMAC-SHA-256 of the signing input [base64url(header).base64url(payload)]
    under a secret; the signing input is determined by the header and the
    payload. *)
Variable HS256 : string -> Header -> Claims -> list byte.

(** [getJWTConfig()]: the secret and [expiresIn] as a number of seconds
    (['1h'] unless configured otherwise, that is 3600). *)
Variable JWT_SECRET : string.
Variable JWT_EXPIRES_IN : Z.

(** Modelled from the spec: [jwt.sign] of the jsonwebtoken package, which
    is a dependency and not part of the sources.  Header fixed to HS256,
    [iat] the current time in whole seconds, [exp = iat + expiresIn], fixed
    issuer and audience, signature the HMAC over the first two segments. *)
Definition jwt_sign (now : Z) (p : JWTPayload) (secret : string)
    (expiresIn : Z) (iss_opt aud_opt : string) : Token :=
  let timestamp := (now / 1000)%Z in
  let h := {| alg := "HS256"; typ := "JWT" |} in
  let c := {| claims := p;
              iat := Some timestamp;
              exp := Some (timestamp + expiresIn)%Z;
              iss := Some iss_opt;
              aud := Some aud_opt |} in
  {| header := h; payload := c; signature := HS256 secret h c |}.

(** Modelled from the spec: [jwt.verify] of the jsonwebtoken package.  It
    throws, which is [None] here, on an algorithm mismatch, on a signature
    that differs from the HMAC recomputed over the first two segments, when
    [now >= exp], and on an issuer or audience mismatch; otherwise it
    returns the decoded payload.  The repository's own verifier for the
    middleware, [verifyAccessTokenMiddleware], makes the same checks. *)
Definition jwt_verify (now : Z) (t : Token) (secret : string)
    (iss_opt aud_opt : string) : option Claims :=
  if negb (alg (header t) =? "HS256")%string then None
  else if negb (bool_decide (signature t = HS256 secret (header t) (payload t)))
  then None
  else if match exp (payload t) with
          | Some e => (e <=? now / 1000)%Z
          | None => false
          end
  then None
  else if negb (bool_decide (aud (payload t) = Some aud_opt)) then None
  else if negb (bool_decide (iss (payload t) = Some iss_opt)) then None
  else Some (payload t).

(** [generateAccessToken] *)
Definition generateAccessToken (now : Z) (p : JWTPayload) : Token :=
  jwt_sign now p JWT_SECRET JWT_EXPIRES_IN issuer audience.

(** [verifyAccessToken]: every exception of [jwt.verify] becomes [null]. *)
Definition verifyAccessToken (now : Z) (token : Token) : option Claims :=
  match jwt_verify now token JWT_SECRET issuer audience with
  | Some decoded => Some decoded
  | None => None
  end.

End Signing.

End Jwt.

(** ** Session data carried by tokens ([utils/secureAuth.ts]) *)

Module SecureAuth.
Import Jwt.

Record SessionData := {
  code : string;
  name : string;
  whatsappNumber : string;
  verified : bool
}.

Section Tokens.

Variable HS256 : string -> Header -> Claims -> list byte.
Variable JWT_SECRET : string.
Variable JWT_EXPIRES_IN : Z.

(** [generateSecureToken] *)
Definition generateSecureToken (now : Z) (data : SessionData) : Token :=
  generateAccessToken HS256 JWT_SECRET JWT_EXPIRES_IN now
    {| userId := code data;
       username := name data;
       phone := whatsappNumber data;
       role := "user" |}.

(** [verifySecureToken] *)
Definition verifySecureToken (now : Z) (token : Token) : option SessionData :=
  match verifyAccessToken HS256 JWT_SECRET now token with
  | None => None
  | Some payload =>
      Some {| code := userId (claims payload);
              name := username (claims payload);
              whatsappNumber := phone (claims payload);
              verified := true |}
  end.

End Tokens.

(** The session data the password-reset route ([unnamed/part_004]) passes
    to [generateSecureToken] once the reset code is stored. *)
Definition resetFlowSession (code name validatedPhone : string) : SessionData :=
  {| code := code; name := name; whatsappNumber := validatedPhone;
     verified := false |}.

(** The instant, in milliseconds, at which a token minted at [now] with a
    lifetime of [expiresIn] seconds expires. *)
Definition expiresAtMs (now expiresIn : Z) : Z := ((now / 1000 + expiresIn) * 1000)%Z.

(** [data] with the [verified] flag replaced. *)
Definition withVerified (data : SessionData) (v : bool) : SessionData :=
  {| code := code data; name := name data;
     whatsappNumber := whatsappNumber data; verified := v |}.

(** A keyed digest used only to run the definitions on examples: any
    function serves, since minting and verification call the same one. *)
Definition exampleDigest (secret : string) (h : Header) (c : Claims) : list byte :=
  map byte_of_ascii (list_ascii_of_string (secret ++ alg h ++ userId (claims c))).

End SecureAuth.

(** ** Webhook signature check ([lib/security.ts]) *)

Module WebhookSig.
Import Chars Hex.

(** [s.startsWith(p)] *)
Definition startsWith (s p : string) : bool := String.prefix p s.

(** [/^[a-f0-9]{64}$/i.test(h)] *)
Definition isHex64 (h : string) : bool :=
  (String.length h =? 64)%nat && forallb_str isHex h.

(** [crypto.timingSafeEqual] on two buffers: a [RangeError], here [None],
    when the byte lengths differ, and otherwise whether the contents are
    equal. *)
Definition crypto_timingSafeEqual (a b : list byte) : option bool :=
  if negb (List.length a =? List.length b)%nat then None
  else Some (bool_decide (a = b)).

Section Hmac.

(** [crypto.createHmac('sha256', key).update(message, 'utf8').digest()]:
    the raw digest. *)
Variable hmacSha256 : string -> string -> list byte.

Definition verifyWebhookSignature
    (payload : string) (signature : option string) (secret : string) : bool :=
  if negb (nonEmpty payload) then false
  else match signature with
  | None => false
  | Some signature =>
    if negb (nonEmpty signature) then false
    else if negb (nonEmpty secret) then false
    else if negb (startsWith signature "sha256=") then false
    else
      let signatureHash := substringFrom 7 signature in
      if negb (isHex64 signatureHash) then false
      else
        let expectedSignature := hexOfBytes (hmacSha256 secret payload) in
        match crypto_timingSafeEqual
                (bytesOfHex signatureHash) (bytesOfHex expectedSignature) with
        | Some isValid => isValid
        | None => false
        end
  end.

(** The result of [verifyWebhookSignatureDetailed] without its metadata. *)
Record DetailedResult := { isValid : bool; error : option string }.

Definition verifyWebhookSignatureDetailed
    (payload : string) (signature : option string) (secret : string)
    : DetailedResult :=
  if negb (nonEmpty payload) then
    {| isValid := false;
       error := Some "Invalid payload: payload is required and must be a string" |}
  else match signature with
  | None =>
    {| isValid := false;
       error := Some "Invalid signature: signature is required and must be a string" |}
  | Some signature =>
    if negb (nonEmpty signature) then
      {| isValid := false;
         error := Some "Invalid signature: signature is required and must be a string" |}
    else if negb (nonEmpty secret) then
      {| isValid := false;
         error := Some "Invalid secret: secret is required and must be a string" |}
    else if negb (startsWith signature "sha256=") then
      {| isValid := false;
         error := Some "Invalid signature format: must start with sha256=" |}
    else
      let signatureHash := substringFrom 7 signature in
      if negb (isHex64 signatureHash) then
        {| isValid := false;
           error := Some "Invalid signature hash format: must be 64-character hex string" |}
      else
        let expectedSignature := hexOfBytes (hmacSha256 secret payload) in
        match crypto_timingSafeEqual
                (bytesOfHex signatureHash) (bytesOfHex expectedSignature) with
        | Some v => {| isValid := v; error := None |}
        | None => {| isValid := false; error := Some "Signature verification error" |}
        end
  end.

End Hmac.

(** A stand-in digest of 32 bytes for running the check on examples. *)
Definition exampleHmac (key message : string) : list byte :=
  repeat (byteOfN (N.of_nat (String.length key + String.length message))) 32.

End WebhookSig.

(** ** Rate limiter ([lib/rate-limiting]) *)

Module RateLimit.
Import Chars.

Record RateLimitEntry := {
  count : Z;
  resetTime : Z;
  lastRequest : Z
}.

(** The headers of a [Request], by lower-case name. *)
Record Request := { headers : gmap string string }.

Definition headers_get (r : Request) (name : string) : option string :=
  headers r !! name.

(** [a || b] on possibly missing strings: the first truthy one. *)
Definition orElse (a : option string) (b : option string) : option string :=
  if truthy a then a else b.

(** The fingerprint shared by the four key generators: the forwarded IP
    and the first 20 code units of the user agent, behind a prefix. *)
Definition fingerprint (prefix : string) (request : Request) : string :=
  let ip := default "unknown"
              (orElse (orElse (headers_get request "x-forwarded-for")
                              (headers_get request "x-real-ip"))
                      (Some "unknown")) in
  let userAgent := default "unknown"
                     (orElse (headers_get request "user-agent") (Some "unknown")) in
  prefix ++ ":" ++ ip ++ ":" ++ slice0 20 userAgent.

Record Config := {
  windowMs : Z;
  maxRequests : Z;
  keyGenerator : Request -> string
}.

Inductive LimitType := api | auth | passwordReset | webhook.

Definition RATE_LIMITS (limitType : LimitType) : Config :=
  match limitType with
  | api =>
      {| windowMs := 15 * 60 * 1000; maxRequests := 50;
         keyGenerator := fingerprint "api" |}
  | auth =>
      {| windowMs := 15 * 60 * 1000; maxRequests := 5;
         keyGenerator := fingerprint "auth" |}
  | passwordReset =>
      {| windowMs := 60 * 60 * 1000; maxRequests := 2;
         keyGenerator := fingerprint "password_reset" |}
  | webhook =>
      {| windowMs := 60 * 1000; maxRequests := 30;
         keyGenerator := fingerprint "webhook" |}
  end.

Record RateLimitStatus := {
  allowed : bool;
  remaining : Z;
  statusResetTime : Z;
  retryAfter : option Z
}.

(** [Math.ceil(x / 1000)] for an integer [x]. *)
Definition ceilSeconds (x : Z) : Z := (- ((- x) / 1000))%Z.

(** [cleanupExpiredEntries]: every entry with [now > entry.resetTime] is
    deleted. *)
Definition cleanupExpiredEntries (now : Z)
    (rateLimitStore : gmap string RateLimitEntry) : gmap string RateLimitEntry :=
  filter (fun kv : string * RateLimitEntry => ¬ (resetTime kv.2 < now)%Z)
         rateLimitStore.

(** The body of [checkRateLimit] for a given configuration entry.  The
    module-level [rateLimitStore] is passed in and returned; the two reads
    of the clock within one call, in the body and in the clean-up, see the
    same instant [now]. *)
Definition checkRateLimitWith (config : Config) (request : Request) (now : Z)
    (rateLimitStore : gmap string RateLimitEntry)
    : gmap string RateLimitEntry * RateLimitStatus :=
  let key := keyGenerator config request in
  let rateLimitStore := cleanupExpiredEntries now rateLimitStore in
  match rateLimitStore !! key with
  | None =>
      (<[key := {| count := 1; resetTime := now + windowMs config;
                   lastRequest := now |}]> rateLimitStore,
       {| allowed := true; remaining := maxRequests config - 1;
          statusResetTime := now + windowMs config; retryAfter := None |})
  | Some entry =>
      if (resetTime entry <? now)%Z then
        (<[key := {| count := 1; resetTime := now + windowMs config;
                     lastRequest := now |}]> rateLimitStore,
         {| allowed := true; remaining := maxRequests config - 1;
            statusResetTime := now + windowMs config; retryAfter := None |})
      else if (maxRequests config <=? count entry)%Z then
        (rateLimitStore,
         {| allowed := false; remaining := 0;
            statusResetTime := resetTime entry;
            retryAfter := Some (ceilSeconds (resetTime entry - now)) |})
      else
        let entry' := {| count := count entry + 1;
                         resetTime := resetTime entry;
                         lastRequest := now |} in
        (<[key := entry']> rateLimitStore,
         {| allowed := true; remaining := maxRequests config - count entry';
            statusResetTime := resetTime entry'; retryAfter := None |})
  end.

(** [checkRateLimit(request, limitType)] *)
Definition checkRateLimit (request : Request) (limitType : LimitType) (now : Z)
    (rateLimitStore : gmap string RateLimitEntry)
    : gmap string RateLimitEntry * RateLimitStatus :=
  checkRateLimitWith (RATE_LIMITS limitType) request now rateLimitStore.

(** Successive calls for one request at the given instants: the final
    store and the statuses in call order. *)
Fixpoint checkRateLimitAll (config : Config) (request : Request)
    (times : list Z) (rateLimitStore : gmap string RateLimitEntry)
    : gmap string RateLimitEntry * list RateLimitStatus :=
  match times with
  | [] => (rateLimitStore, [])
  | now :: times' =>
      let '(store1, status) := checkRateLimitWith config request now rateLimitStore in
      let '(store2, statuses) := checkRateLimitAll config request times' store1 in
      (store2, status :: statuses)
  end.

(** A request as the limiter sees it, for running the definitions. *)
Definition exampleRequest : Request :=
  {| headers := {[ "x-forwarded-for" := "203.0.113.7";
                   "user-agent" := "Mozilla/5.0 (X11; Linux x86_64)" ]} |}.

End RateLimit.

(** ** Verification codes in message text ([lib/whatsapp.ts]) *)

Module WhatsApp.
Import Chars.

Definition isWordOpt (o : option ascii) : bool :=
  match o with Some c => isWord c | None => false end.

Definition headOf (s : string) : option ascii :=
  match s with String c _ => Some c | EmptyString => None end.

(** The last code unit of [s], or [prev] when [s] is empty. *)
Fixpoint lastOf (prev : option ascii) (s : string) : option ascii :=
  match s with
  | EmptyString => prev
  | String c s' => lastOf (Some c) s'
  end.

(** [\b]: exactly one of the code units on the two sides of the position
    is a word character; the ends of the input count as non-word. *)
Definition wordBoundary (before after : option ascii) : bool :=
  xorb (isWordOpt before) (isWordOpt after).

(** Whether [/\b([A-Z0-9]{6})\b/i] matches at the position that has
    [prev] just before it and [s] from it on. *)
Definition matchHere (prev : option ascii) (s : string) : bool :=
  let m := slice0 6 s in
  wordBoundary prev (headOf s) &&
  ((String.length m =? 6)%nat && forallb_str isAlnum m) &&
  wordBoundary (lastOf None m) (headOf (substringFrom 6 s)).

(** [message.match(/\b([A-Z0-9]{6})\b/gi)]: the matches from left to
    right; after a match the search resumes behind it, otherwise one code
    unit further.  An empty list stands for [null]. *)
Fixpoint matchCodes (prev : option ascii) (s : string) : list string :=
  match s with
  | EmptyString => []
  | String c1 rest1 =>
      if matchHere prev s then
        match rest1 with
        | String c2 (String c3 (String c4 (String c5 (String c6 rest6)))) =>
            String c1 (String c2 (String c3 (String c4 (String c5
              (String c6 EmptyString))))) :: matchCodes (Some c6) rest6
        | _ => []
        end
      else matchCodes (Some c1) rest1
  end.

(** [/[A-Z]/i.test(m)] *)
Definition hasLetter (m : string) : bool := existsb_str isLetter m.
(** [/[0-9]/.test(m)] *)
Definition hasNumber (m : string) : bool := existsb_str isDigit m.

Definition extractVerificationCode (message : string) : option string :=
  let matches := matchCodes None message in
  match List.find (fun m => hasLetter m && hasNumber m) matches with
  | Some m => Some (toUpperCase m)
  | None => None
  end.

(** *** Two readings of "the first 6-character run" *)

Definition emitRun (cur : string) : list string :=
  if nonEmpty cur then [cur] else [].

(** The maximal runs of code units satisfying [inRun], left to right;
    [cur] is the run being read. *)
Fixpoint runsFrom (inRun : ascii -> bool) (cur : string) (s : string)
    : list string :=
  match s with
  | EmptyString => emitRun cur
  | String c s' =>
      if inRun c then runsFrom inRun (cur ++ String c EmptyString) s'
      else emitRun cur ++ runsFrom inRun EmptyString s'
  end.

(** A run of exactly six letters and digits. *)
Definition isCode6 (run : string) : bool :=
  (String.length run =? 6)%nat && forallb_str isAlnum run.

Definition firstCodeAmong (runs : list string) : option string :=
  match List.find (fun m => hasLetter m && hasNumber m)
                  (List.filter isCode6 runs) with
  | Some m => Some (toUpperCase m)
  | None => None
  end.

(** The reading of the specification: runs delimited by whitespace. *)
Definition firstWhitespaceDelimitedCode (message : string) : option string :=
  firstCodeAmong (runsFrom (fun c => negb (isSpace c)) EmptyString message).

(** The reading the regular expression implements: runs delimited by word
    boundaries, that is maximal runs of word characters. *)
Definition firstWordDelimitedCode (message : string) : option string :=
  firstCodeAmong (runsFrom isWord EmptyString message).

End WhatsApp.

(** ** Input validation ([lib/security.ts]) *)

Module Security.
Import Chars.

(** [validateVerificationCode]: [None] stands for the thrown [Error]. *)
Definition validateVerificationCode (code : string) : option string :=
  if negb (nonEmpty code) then None
  else if negb (String.length code =? 6)%nat then None
  else if negb ((String.length code =? 6)%nat &&
                forallb_str (fun c => isUpper c || isDigit c) code) then None
  else
    let hasLetter := existsb_str isUpper code in
    let hasNumber := existsb_str isDigit code in
    if negb hasLetter || negb hasNumber then None
    else Some (toUpperCase code).

End Security.

(** ** Verification-code generation ([lib/utils]) *)

Module Utils.
Import Chars.

Definition alphabet : string := "ABCDEFGHIJKLMNOPQRSTUVWXYZ0123456789".

(** nanoid's [customAlphabet(alphabet, 6)], a dependency that is not part
    of the sources, works with
    [mask = (2 << (31 - Math.clz32((36 - 1) | 1))) - 1 = 63] and
    [step = Math.ceil(1.6 * mask * 6 / 36) = 17]. *)
Definition mask : N := 63.
Definition step : nat := 17.

(** [alphabet[i] || '']: nothing for an index outside the alphabet. *)
Definition alphabetAt (i : N) : string :=
  match String.get (N.to_nat i) alphabet with
  | Some c => String c EmptyString
  | None => EmptyString
  end.

(** The inner loop [while (i--) { id += alphabet[bytes[i] & mask] || '';
    if (id.length === size) return id }] over the bytes in the order in
    which they are read; the flag tells whether the identifier is
    complete. *)
Fixpoint fill (size : nat) (id : string) (bytes : list byte) : string * bool :=
  match bytes with
  | [] => (id, false)
  | b :: bytes' =>
      let id' := id ++ alphabetAt (N.land (Byte.to_N b) mask) in
      if (String.length id' =? size)%nat then (id', true)
      else fill size id' bytes'
  end.

(** The outer loop [while (true)]: each element of [pools] is the result
    of one call [getRandom(step)], read from index [step - 1] down to [0].
    [None] means that the pools given did not suffice, where the program
    would go on drawing. *)
Fixpoint customRandom (size : nat) (id : string) (pools : list (nat -> byte))
    : option string :=
  match pools with
  | [] => None
  | bytes :: pools' =>
      match fill size id (map bytes (rev (seq 0 step))) with
      | (id', true) => Some id'
      | (id', false) => customRandom size id' pools'
      end
  end.

(** [generateVerificationCode()], for the random pools that are drawn. *)
Definition generateVerificationCode (pools : list (nat -> byte)) : option string :=
  customRandom 6 EmptyString pools.

(** A character of the alphabet. *)
Definition inAlphabet (c : ascii) : bool := isUpper c || isDigit c.

(** A byte that selects a character of the alphabet. *)
Definition accepted (b : byte) : bool := (N.land (Byte.to_N b) mask <? 36)%N.

(** A code the specification admits: six characters out of [A-Z0-9] with
    at least one letter and one digit. *)
Definition wellFormedCode (code : string) : bool :=
  (String.length code =? 6)%nat &&
  forallb_str inAlphabet code &&
  existsb_str isUpper code && existsb_str isDigit code.

End Utils.

(** ** Input sanitising ([lib/secure-error-handling-enhanced.ts]) *)

Module Sanitize.
Import Chars.

(** Whether [s] starts with the lower-case pattern [p] when the case of
    ASCII letters is ignored (the [i] flag). *)
Fixpoint startsWithCI (p s : string) : bool :=
  match p, s with
  | EmptyString, _ => true
  | String a p', String b s' => Ascii.eqb a (toLowerChar b) && startsWithCI p' s'
  | String _ _, EmptyString => false
  end.

(** Index of the first occurrence of [p] in [s], ignoring case. *)
Fixpoint indexOfCI (p s : string) : option nat :=
  if startsWithCI p s then Some O
  else match s with
       | EmptyString => None
       | String _ s' => option_map S (indexOfCI p s')
       end.

Fixpoint indexOfChar (c : ascii) (s : string) : option nat :=
  match s with
  | EmptyString => None
  | String x s' => if Ascii.eqb x c then Some O else option_map S (indexOfChar c s')
  end.

(** Length of the longest prefix whose code units satisfy [p]. *)
Fixpoint countWhile (p : ascii -> bool) (s : string) : nat :=
  match s with
  | String c s' => if p c then S (countWhile p s') else O
  | EmptyString => O
  end.

Definition headIs (p : ascii -> bool) (s : string) : bool :=
  match s with String c _ => p c | EmptyString => false end.

(** Length of the match, at the start of [s], of the first expression of
    [sanitizeUserInput], the one for script elements: ["<script"] at a word
    boundary, then anything up to and including the first ["</script>"]
    behind it, case being ignored.  Its repeated group cannot step over a
    ["<"] that opens ["</script>"], so the match ends at the first one. *)
Definition matchScript (s : string) : option nat :=
  if startsWithCI "<script" s && negb (headIs isWord (substringFrom 7 s)) then
    match indexOfCI "</script>" (substringFrom 7 s) with
    | Some k => Some (7 + k + 9)%nat
    | None => None
    end
  else None.

(** [/<[^>]*>/]: from ["<"] to the first [">"]. *)
Definition matchTag (s : string) : option nat :=
  match s with
  | String c t =>
      if Ascii.eqb c "<" then option_map (fun k => (k + 2)%nat) (indexOfChar ">" t)
      else None
  | EmptyString => None
  end.

(** [/javascript:/i] *)
Definition matchJavascript (s : string) : option nat :=
  if startsWithCI "javascript:" s then Some 11%nat else None.

(** [/on\w+\s*=/i] *)
Definition matchHandler (s : string) : option nat :=
  if startsWithCI "on" s then
    let r := substringFrom 2 s in
    let k := countWhile isWord r in
    if (k =? 0)%nat then None
    else
      let r2 := substringFrom k r in
      let j := countWhile isSpace r2 in
      if headIs (fun c => Ascii.eqb c "=") (substringFrom j r2)
      then Some (2 + k + j + 1)%nat
      else None
  else None.

(** [s.replace(re, '')] with the [g] flag: matches are removed from left
    to right, the search resuming behind each match.  [matchAt] gives the
    length of the match at the start of its argument.  The fuel is the
    length of the input, and every step consumes at least one code unit. *)
Fixpoint removeMatches (fuel : nat) (matchAt : string -> option nat) (s : string)
    : string :=
  match fuel with
  | O => s
  | S fuel' =>
      match s with
      | EmptyString => EmptyString
      | String c t =>
          match matchAt s with
          | Some n => removeMatches fuel' matchAt (substringFrom n s)
          | None => String c (removeMatches fuel' matchAt t)
          end
      end
  end.

Definition replaceAll (matchAt : string -> option nat) (s : string) : string :=
  removeMatches (String.length s) matchAt s.

Fixpoint trimStart (s : string) : string :=
  match s with
  | String c s' => if isSpace c then trimStart s' else s
  | EmptyString => EmptyString
  end.

Fixpoint trimEnd (s : string) : string :=
  match s with
  | String c s' =>
      match trimEnd s' with
      | EmptyString => if isSpace c then EmptyString else String c EmptyString
      | t => String c t
      end
  | EmptyString => EmptyString
  end.

(** [s.trim()] *)
Definition trim (s : string) : string := trimEnd (trimStart s).

(** [sanitizeUserInput] on a string. *)
Definition sanitizeUserInput (input : string) : string :=
  trim (replaceAll matchHandler
         (replaceAll matchJavascript
           (replaceAll matchTag
             (replaceAll matchScript input)))).

End Sanitize.

(** ** Password rules ([lib/auth-utils.ts]) *)

Module AuthUtils.
Import Chars.

(** [s.includes(needle)] *)
Fixpoint includes (needle s : string) : bool :=
  String.prefix needle s ||
  match s with
  | String _ s' => includes needle s'
  | EmptyString => false
  end.

(** [.] of a regular expression: anything but a line terminator. *)
Definition isDot (c : ascii) : bool :=
  negb ((charCode c =? 10)%N || (charCode c =? 13)%N).

(** [/(.)\1{3,}/.test(s)]: four equal code units in a row. *)
Fixpoint hasRepeated4 (s : string) : bool :=
  match s with
  | String a ((String b (String c (String d _))) as t) =>
      (isDot a && Ascii.eqb a b && Ascii.eqb b c && Ascii.eqb c d) || hasRepeated4 t
  | String _ t => hasRepeated4 t
  | EmptyString => false
  end.

Record PasswordValidation := { isValid : bool; errors : list string }.

Definition pushIf (cond : bool) (message : string) (errors : list string)
    : list string :=
  if cond then errors ++ [message] else errors.

Definition validatePassword (password : string) : PasswordValidation :=
  if negb (nonEmpty password) then
    {| isValid := false; errors := ["Password is required"] |}
  else
    let errors :=
      pushIf (hasRepeated4 password)
        "Password cannot contain more than 3 repeated characters"
      (pushIf (includes "123456" (toLowerCase password))
        "Password cannot contain sequential numbers"
      (pushIf (includes "password" (toLowerCase password))
        "Password cannot contain the word password"
      (pushIf (negb (existsb_str isLetter password))
        "Password must contain at least one letter"
      (pushIf (128 <? String.length password)%nat
        "Password must be less than 128 characters"
      (pushIf (String.length password <? 6)%nat
        "Password must be at least 6 characters long" []))))) in
    {| isValid := (List.length errors =? 0)%nat; errors := errors |}.

End AuthUtils.

(** ** The store as the routes see it (two tables behind the query builder)

    The store answers every query from its content; failures of the
    transport are modelled only where a handler's outcome is studied under
    them (the update of the webhook handler). *)

Module Store.

Record VerificationRow := {
  vc_code : string;
  vc_name : string;
  vc_whatsapp_number : string;
  vc_verified : bool;
  vc_expires_at : Z;
  vc_verified_at : option Z
}.

Record UserRow := {
  user_id : string;
  user_phone : string;
  user_name : string;
  user_password_hash : string;
  user_verified : bool;
  user_created_at : Z;
  user_updated_at : Z
}.

Record Database := {
  verification_codes : list VerificationRow;
  users : list UserRow
}.

(** Error codes of the query builder that the handlers tell apart. *)
Inductive DbError := PGRST116 | UniqueViolation | OtherDbError.

(** [.single()]: the row when exactly one row matches, and otherwise the
    error [PGRST116]. *)
Definition single {A : Type} (rows : list A) : A + DbError :=
  match rows with
  | [row] => inl row
  | _ => inr PGRST116
  end.

End Store.

(** ** Error responses ([lib/secure-error-handling-enhanced.ts]) *)

Module Errors.
Import Store.

Inductive ErrorType :=
  | AUTH_REQUIRED | AUTH_INVALID | UNAUTHORIZED | INVALID_INPUT
  | CSRF_INVALID | INTERNAL_ERROR | DATABASE_ERROR | RECORD_NOT_FOUND
  | RECORD_EXISTS | CONFIG_ERROR.

(** The error type [handleDatabaseError] picks; its status is always 500. *)
Definition databaseErrorType (error : DbError) : ErrorType :=
  match error with
  | PGRST116 => RECORD_NOT_FOUND
  | UniqueViolation => RECORD_EXISTS
  | OtherDbError => DATABASE_ERROR
  end.

End Errors.

(** ** Setting a password ([app/api/set-password/route.ts]) *)

Module SetPassword.
Import Chars Hex Jwt SecureAuth Store Errors.

Record Request := {
  http : Csrf.NextRequest;
  (** the [auth_token] cookie, in parsed form *)
  auth_token : option Token;
  (** the fields of the JSON body *)
  password : string;
  code : string
}.

Inductive Response :=
  | Failure (errorType : ErrorType) (status : nat)
  | PasswordSet (userId name phone : string) (auth_token : Token).

Section Route.

Variable HS256 : string -> Header -> Claims -> list byte.
Variable JWT_SECRET : string.
Variable JWT_EXPIRES_IN : Z.

(** [bcrypt.hash(password, 12)] *)
Variable hashPassword : string -> string.

(** [POST].  [now] is the clock of the call and [newId] the identifier the
    store assigns if a user row is inserted. *)
Definition POST (now : Z) (newId : string) (request : Request) (db : Database)
    : Database * Response :=
  if negb (Csrf.validateDoubleSubmitCSRF (http request)) then
    (db, Failure CSRF_INVALID 403)
  else match auth_token request with
  | None => (db, Failure AUTH_REQUIRED 401)
  | Some authToken =>
  match verifySecureToken HS256 JWT_SECRET now authToken with
  | None => (db, Failure AUTH_INVALID 401)
  | Some sessionData =>
    let sanitizedPassword := Sanitize.sanitizeUserInput (password request) in
    let sanitizedCode := Sanitize.sanitizeUserInput (code request) in
    let passwordValidation := AuthUtils.validatePassword sanitizedPassword in
    if negb (AuthUtils.isValid passwordValidation) then
      (db, Failure INVALID_INPUT 400)
    else if negb (SecureAuth.code sessionData =? sanitizedCode)%string then
      (db, Failure UNAUTHORIZED 403)
    else
      match single (List.filter
                      (fun row => (vc_code row =? sanitizedCode)%string &&
                                  vc_verified row &&
                                  (now <? vc_expires_at row)%Z)
                      (verification_codes db)) with
      | inr verificationError =>
          (db, Failure (databaseErrorType verificationError) 500)
      | inl verificationData =>
        let validatedPhone := vc_whatsapp_number verificationData in
        let passwordHash := hashPassword sanitizedPassword in
        let secureToken :=
          generateSecureToken HS256 JWT_SECRET JWT_EXPIRES_IN now
            {| SecureAuth.code := vc_code verificationData;
               name := vc_name verificationData;
               whatsappNumber := vc_whatsapp_number verificationData;
               verified := true |} in
        match single (List.filter
                        (fun u => (user_phone u =? validatedPhone)%string)
                        (users db)) with
        | inl existingUser =>
            let users' :=
              map (fun u =>
                     if (user_id u =? user_id existingUser)%string then
                       {| user_id := user_id u;
                          user_phone := user_phone u;
                          user_name := user_name u;
                          user_password_hash := passwordHash;
                          user_verified := user_verified u;
                          user_created_at := user_created_at u;
                          user_updated_at := now |}
                     else u)
                  (users db) in
            ({| verification_codes := verification_codes db; users := users' |},
             PasswordSet (user_id existingUser) (vc_name verificationData)
               validatedPhone secureToken)
        | inr _ =>
            if existsb (fun u => (user_phone u =? validatedPhone)%string) (users db)
            then (db, Failure (databaseErrorType UniqueViolation) 500)
            else
              let newUser :=
                {| user_id := newId;
                   user_phone := validatedPhone;
                   user_name := vc_name verificationData;
                   user_password_hash := passwordHash;
                   user_verified := true;
                   user_created_at := now;
                   user_updated_at := now |} in
              ({| verification_codes := verification_codes db;
                  users := users db ++ [newUser] |},
               PasswordSet newId (vc_name verificationData)
                 validatedPhone secureToken)
        end
      end
  end
  end.

End Route.

(** The session data of the password login route, the one place where
    [crypto.randomBytes(64).toString('hex')] becomes the subject. *)
Definition passwordLoginSession (randomBytes : nat -> byte)
    (userName userPhone : string) : SessionData :=
  {| SecureAuth.code := hexOfBytes (map randomBytes (seq 0 64));
     name := userName; whatsappNumber := userPhone; verified := true |}.

(** How the session route tells a random session identifier from a
    verification code: [sessionData.code && sessionData.code.length > 10]. *)
Definition looksLikeSessionId (code : string) : bool :=
  nonEmpty code && (10 <? String.length code)%nat.

(** A stand-in for bcrypt, for running the route on examples. *)
Definition exampleHash (password : string) : string := "$2a$12$" ++ password.

(** A store with one verified record and no user, and the request of the
    holder of the token for that record. *)
Definition exampleDb : Database :=
  {| verification_codes :=
       [{| vc_code := "X7K2M9"; vc_name := "Ann";
           vc_whatsapp_number := "15551234567"; vc_verified := true;
           vc_expires_at := 600000; vc_verified_at := Some 30000%Z |}];
     users := [] |}.

Definition exampleToken : Token :=
  generateSecureToken exampleDigest "secret" 3600 0
    {| SecureAuth.code := "X7K2M9"; name := "Ann";
       whatsappNumber := "15551234567"; verified := true |}.

Definition exampleRequest : Request :=
  {| http := {| Csrf.method := "POST";
                Csrf.headers := {[ "x-csrf-token" := "c0ffee" ]};
                Csrf.cookies := {[ "csrf-token" := "c0ffee" ]} |};
     auth_token := Some exampleToken;
     password := "abc123";
     code := "X7K2M9" |}.

End SetPassword.

(** ** The webhook handler ([app/api/webhooks/whatsapp/route.ts]) *)

Module Webhook.
Import Chars Store Errors.

Record Message := {
  id : string;
  from : string;
  (** [message.text?.body || ''] *)
  text : string
}.

(** What the handler reads in the parsed body: [value.messages[0]] of the
    first change of the first entry, when [body.object] is
    ['whatsapp_business_account']. *)
Inductive Body :=
  | OtherObject
  | NoMessage
  | WithMessage (message : Message).

Record Request := {
  (** [parseInt(request.headers.get('content-length') || '0')] *)
  contentLength : Z;
  (** the header [x-hub-signature-256] *)
  signatureHeader : option string;
  rawBody : string;
  (** [JSON.parse(rawBody)], [None] when it throws *)
  parsedBody : option Body
}.

(** What the platform is asked to send to a number. *)
Inductive Reply :=
  | InvalidFormat (extractedCode : string)
  | InvalidCode
  | AlreadyVerified
  | VerifyError
  | Welcome (name : string).

(** What happens outside the handler during one delivery: whether the
    store refuses the update and whether the send call throws. *)
Record Outcome := {
  updateFails : bool;
  sendFails : bool
}.

Record State := {
  processedMessages : gmap string Z;
  messageRateLimit : gmap string Z;
  verification_codes : list VerificationRow;
  (** the codes of the update statements the store has executed *)
  journal : list string;
  (** the replies handed to the platform *)
  outbox : list (string * Reply)
}.

Inductive Response :=
  | Unauthorized
  | Failure (errorType : ErrorType) (status : nat)
  | Success (message : option string).

Definition RATE_LIMIT_WINDOW : Z := 60 * 1000.
Definition MAX_MESSAGES_PER_MINUTE : Z := 5.
Definition maxPayloadSize : Z := 1024 * 1024.

(** [validateWebhookSecurity] with its default configuration: the
    declared size is within the limit and the signature header is there. *)
Definition validateWebhookSecurity (request : Request) : bool :=
  if (maxPayloadSize <? contentLength request)%Z then false
  else if negb (truthy (signatureHeader request)) then false
  else true.

(** The sweep that the interval timer runs every five minutes. *)
Definition cleanup (now : Z) (st : State) : State :=
  let fiveMinutesAgo := (now - 5 * 60 * 1000)%Z in
  let oneMinuteAgo := (now - RATE_LIMIT_WINDOW)%Z in
  {| processedMessages :=
       filter (fun kv : string * Z => ¬ (kv.2 < fiveMinutesAgo)%Z)
              (processedMessages st);
     messageRateLimit :=
       filter (fun kv : string * Z => ¬ (kv.2 < oneMinuteAgo)%Z)
              (messageRateLimit st);
     verification_codes := verification_codes st;
     journal := journal st;
     outbox := outbox st |}.

(** [await sendWhatsAppMessage(to, reply)] followed by the rest of the
    handler [k]: a throw leaves through the outer [catch] with the generic
    error response. *)
Definition send (outcome : Outcome) (to : string) (reply : Reply) (st : State)
    (k : State -> State * Response) : State * Response :=
  if sendFails outcome then (st, Failure INTERNAL_ERROR 500)
  else k {| processedMessages := processedMessages st;
            messageRateLimit := messageRateLimit st;
            verification_codes := verification_codes st;
            journal := journal st;
            outbox := outbox st ++ [(to, reply)] |}.

(** The update statement: every row with the code becomes verified. *)
Definition markVerified (now : Z) (code : string) (rows : list VerificationRow)
    : list VerificationRow :=
  map (fun row =>
         if (vc_code row =? code)%string then
           {| vc_code := vc_code row; vc_name := vc_name row;
              vc_whatsapp_number := vc_whatsapp_number row;
              vc_verified := true;
              vc_expires_at := vc_expires_at row;
              vc_verified_at := Some now |}
         else row)
      rows.

(** The handler from the point where the message is marked as processed. *)
Definition processMessage (now : Z) (outcome : Outcome) (message : Message)
    (st : State) : State * Response :=
  match WhatsApp.extractVerificationCode (text message) with
  | None => (st, Success None)
  | Some extractedCode =>
    match Security.validateVerificationCode extractedCode with
    | None =>
        send outcome (from message) (InvalidFormat extractedCode) st
          (fun st' => (st', Success None))
    | Some code =>
      match single (List.filter
                      (fun row => (vc_code row =? code)%string &&
                                  (now <? vc_expires_at row)%Z)
                      (verification_codes st)) with
      | inr _ =>
          send outcome (from message) InvalidCode st
            (fun st' => (st', Success None))
      | inl verificationData =>
          if vc_verified verificationData then
            send outcome (from message) AlreadyVerified st
              (fun st' => (st', Success None))
          else if updateFails outcome then
            send outcome (from message) VerifyError st
              (fun st' => (st', Success None))
          else
            let st1 :=
              {| processedMessages := processedMessages st;
                 messageRateLimit := messageRateLimit st;
                 verification_codes :=
                   markVerified now code (verification_codes st);
                 journal := journal st ++ [code];
                 outbox := outbox st |} in
            send outcome (from message)
              (Welcome (vc_name verificationData)) st1
              (fun st' => (st', Success None))
      end
    end
  end.

Section Handler.

Variable hmacSha256 : string -> string -> list byte.

(** [getServerEnv('WHATSAPP_APP_SECRET')], [None] when it throws. *)
Variable appSecret : option string.

(** [POST]: one delivery at the instant [now]. *)
Definition POST (now : Z) (outcome : Outcome) (request : Request) (st : State)
    : State * Response :=
  if negb (validateWebhookSecurity request) then (st, Unauthorized)
  else match appSecret with
  | None => (st, Failure CONFIG_ERROR 500)
  | Some appSecret =>
    let validationResult :=
      WebhookSig.verifyWebhookSignatureDetailed hmacSha256
        (rawBody request) (signatureHeader request) appSecret in
    if negb (WebhookSig.isValid validationResult) then (st, Unauthorized)
    else match parsedBody request with
    | None => (st, Failure INTERNAL_ERROR 500)
    | Some OtherObject | Some NoMessage => (st, Success None)
    | Some (WithMessage message) =>
      let messageId := id message in
      let from := from message in
      if bool_decide (is_Some (processedMessages st !! messageId)) then
        (st, Success (Some "Duplicate ignored"))
      else
        let phoneRateLimit := default 0%Z (messageRateLimit st !! from) in
        let limited :=
          (0 <? phoneRateLimit)%Z && (now - phoneRateLimit <? RATE_LIMIT_WINDOW)%Z in
        let messageCount :=
          default 0%Z (messageRateLimit st !! (from ++ "_count")) in
        if limited && (MAX_MESSAGES_PER_MINUTE <=? messageCount)%Z then
          (st, Success (Some "Rate limited"))
        else
          let messageRateLimit' :=
            if limited then
              <[from ++ "_count" := (messageCount + 1)%Z]> (messageRateLimit st)
            else
              <[from ++ "_count" := 1%Z]> (<[from := now]> (messageRateLimit st)) in
          let st1 :=
            {| processedMessages := <[messageId := now]> (processedMessages st);
               messageRateLimit := messageRateLimit';
               verification_codes := verification_codes st;
               journal := journal st;
               outbox := outbox st |} in
          processMessage now outcome message st1
    end
  end.

(** What can happen to the handler's state: a delivery or a sweep. *)
Inductive Event :=
  | Deliver (now : Z) (outcome : Outcome) (request : Request)
  | Sweep (now : Z).

Definition step (st : State) (e : Event) : State :=
  match e with
  | Deliver now outcome request => (POST now outcome request st).1
  | Sweep now => cleanup now st
  end.

Definition run (events : list Event) (st : State) : State :=
  fold_left step events st.

(** A delivery that passes the size, signature and parsing gates and
    carries [message]. *)
Definition authenticated (request : Request) (message : Message) : Prop :=
  validateWebhookSecurity request = true /\
  (exists secret, appSecret = Some secret /\
     WebhookSig.isValid
       (WebhookSig.verifyWebhookSignatureDetailed hmacSha256
          (rawBody request) (signatureHeader request) secret) = true) /\
  parsedBody request = Some (WithMessage message).

End Handler.

(** *** Example deliveries, for running the handler *)

Definition exampleSecret : string := "app-secret".

(** A delivery of [message] whose signature header is the one the check
    expects for the raw body under the example digest. *)
Definition exampleDelivery (raw : string) (message : Message) : Request :=
  {| contentLength := Z.of_nat (String.length raw);
     signatureHeader :=
       Some ("sha256=" ++
             Hex.hexOfBytes (WebhookSig.exampleHmac exampleSecret raw));
     rawBody := raw;
     parsedBody := Some (WithMessage message) |}.

(** A store with one pending record and nothing else. *)
Definition exampleState : State :=
  {| processedMessages := ∅;
     messageRateLimit := ∅;
     verification_codes :=
       [{| vc_code := "X7K2M9"; vc_name := "Ann";
           vc_whatsapp_number := "15551234567"; vc_verified := false;
           vc_expires_at := 600000; vc_verified_at := None |}];
     journal := [];
     outbox := [] |}.

Definition calm : Outcome := {| updateFails := false; sendFails := false |}.

Definition codeMessage : Message :=
  {| id := "wamid.code"; from := "15551234567";
     text := "please VERIFY x7k2m9 now" |}.

Definition chat (n : string) : Message :=
  {| id := "wamid." ++ n; from := "15551234567"; text := "hello" |}.

(** Five chat messages of the same sender within a few seconds. *)
Definition fiveChats : list Event :=
  [Deliver 1000 calm (exampleDelivery "raw-1" (chat "1"));
   Deliver 2000 calm (exampleDelivery "raw-2" (chat "2"));
   Deliver 3000 calm (exampleDelivery "raw-3" (chat "3"));
   Deliver 4000 calm (exampleDelivery "raw-4" (chat "4"));
   Deliver 5000 calm (exampleDelivery "raw-5" (chat "5"))].

(** An event that does not end the retention of an identifier recorded at
    [since]: any delivery, and a sweep no later than five minutes after. *)
Definition withinRetention (since : Z) (e : Event) : Prop :=
  match e with
  | Deliver _ _ _ => True
  | Sweep now => (now - 5 * 60 * 1000 <= since)%Z
  end.

End Webhook.

(** ** Validators of [lib/security.ts] and [lib/utils] *)

Module Validation.
Import Chars Sanitize.

(** The outcome of a validator that returns a cleaned value or throws an
    [Error] with a message. *)
Inductive Checked :=
  | Valid (value : string)
  | Invalid (message : string).

(** [s.replace(/\D/g, '')]: the digits of [s]. *)
Fixpoint digitsOf (s : string) : string :=
  match s with
  | EmptyString => EmptyString
  | String c s' => if isDigit c then String c (digitsOf s') else digitsOf s'
  end.

(** [formatPhoneNumber] of [lib/utils]. *)
Definition formatPhoneNumber (phone : string) : string := digitsOf phone.

Definition startsWithChar (c : ascii) (s : string) : bool :=
  match s with String x _ => Ascii.eqb x c | EmptyString => false end.

Definition validatePhoneNumber (phone : string) : Checked :=
  if negb (nonEmpty phone) then Invalid "Phone number is required"
  else
    let cleaned := digitsOf phone in
    if (String.length cleaned <? 10)%nat then
      Invalid "Phone number must be at least 10 digits"
    else if (15 <? String.length cleaned)%nat then
      Invalid "Phone number must be less than 15 digits"
    else if (10 <? String.length cleaned)%nat && startsWithChar "0" cleaned then
      Invalid "Invalid phone number format"
    else Valid cleaned.

(** The class of the third replacement of [validateName]: the two angle
    brackets, the double quote, the apostrophe and the backtick. *)
Definition isDangerous (c : ascii) : bool :=
  let n := charCode c in
  (n =? 60)%N || (n =? 62)%N || (n =? 34)%N || (n =? 39)%N || (n =? 96)%N.

Fixpoint removeChars (p : ascii -> bool) (s : string) : string :=
  match s with
  | EmptyString => EmptyString
  | String c s' => if p c then removeChars p s' else String c (removeChars p s')
  end.

(** The class of the final test of [validateName]: letters, whitespace,
    hyphen and apostrophe. *)
Definition isNameChar (c : ascii) : bool :=
  isLetter c || isSpace c || (charCode c =? 45)%N || (charCode c =? 39)%N.

Definition validateName (name : string) : Checked :=
  if negb (nonEmpty name) then Invalid "Name is required"
  else
    let cleaned :=
      trim (replaceAll matchHandler
             (replaceAll matchJavascript
               (removeChars isDangerous
                 (replaceAll matchTag
                   (replaceAll matchScript name))))) in
    if (String.length cleaned <? 2)%nat then
      Invalid "Name must be at least 2 characters long"
    else if (100 <? String.length cleaned)%nat then
      Invalid "Name must be less than 100 characters"
    else if negb (nonEmpty cleaned && forallb_str isNameChar cleaned) then
      Invalid "Name can only contain letters, spaces, hyphens, and apostrophes"
    else Valid cleaned.

(** [validatePassword] of [lib/security.ts], the variant that throws at the
    first rule that fails.  The messages are those of
    [AuthUtils.validatePassword], written the same way (the one about the
    word password without its quotation marks). *)
Definition validatePassword (password : string) : Checked :=
  if negb (nonEmpty password) then Invalid "Password is required"
  else if (String.length password <? 6)%nat then
    Invalid "Password must be at least 6 characters long"
  else if (128 <? String.length password)%nat then
    Invalid "Password must be less than 128 characters"
  else if negb (existsb_str isLetter password) then
    Invalid "Password must contain at least one letter"
  else if AuthUtils.includes "password" (toLowerCase password) then
    Invalid "Password cannot contain the word password"
  else if AuthUtils.includes "123456" (toLowerCase password) then
    Invalid "Password cannot contain sequential numbers"
  else if AuthUtils.hasRepeated4 password then
    Invalid "Password cannot contain more than 3 repeated characters"
  else Valid password.

End Validation.

(** ** Character classes of the extra properties *)

Module HexDigits.
Import Chars.

(** [[0-9a-f]] *)
Definition isLowerHex (c : ascii) : bool :=
  isDigit c || between 97 102 (charCode c).

End HexDigits.

(** ** Cookie and comparison helpers of [utils/secureAuth.ts] *)

Module SecureAuthUtils.
Import Chars Hex.

(** [Buffer.from(s)]: the UTF-8 encoding, for code units below 256: one
    byte below 128, two bytes from 128 on. *)
Definition utf8Char (c : ascii) : list byte :=
  let n := charCode c in
  if (n <? 128)%N then [byteOfN n]
  else [byteOfN (192 + n / 64); byteOfN (128 + n mod 64)].

Fixpoint utf8Bytes (s : string) : list byte :=
  match s with
  | EmptyString => []
  | String c s' => utf8Char c ++ utf8Bytes s'
  end.

(** The reading of a buffer of that encoding; it serves to show that the
    encoding loses nothing. *)
Fixpoint utf8Decode (bs : list byte) : string :=
  match bs with
  | [] => EmptyString
  | b :: rest =>
      if (Byte.to_N b <? 128)%N then
        String (ascii_of_N (Byte.to_N b)) (utf8Decode rest)
      else
        match rest with
        | b2 :: rest' =>
            String (ascii_of_N ((Byte.to_N b - 192) * 64 + (Byte.to_N b2 - 128)))
                   (utf8Decode rest')
        | [] => EmptyString
        end
  end.

(** [secureCompare] takes any two strings, so it is modelled on a
    JavaScript string as what it is: the sequence of its 16-bit code
    units. *)
Definition JSString := list N.

(** The code units of a string of the other modules, whose code units are
    below 256. *)
Fixpoint codeUnits (s : string) : JSString :=
  match s with
  | EmptyString => []
  | String c s' => charCode c :: codeUnits s'
  end.

(** The leading half of a surrogate pair, [U+D800] to [U+DBFF], and the
    trailing half, [U+DC00] to [U+DFFF]. *)
Definition isHighSurrogate (u : N) : bool := between 55296 56319 u.
Definition isLowSurrogate (u : N) : bool := between 56320 57343 u.

(** The code point of a surrogate pair. *)
Definition codePoint (hi lo : N) : N :=
  (65536 + (hi - 55296) * 1024 + (lo - 56320))%N.

(** The UTF-8 bytes of one code point. *)
Definition utf8CodePoint (cp : N) : list byte :=
  if (cp <? 128)%N then [byteOfN cp]
  else if (cp <? 2048)%N then
    [byteOfN (192 + cp / 64); byteOfN (128 + cp mod 64)]
  else if (cp <? 65536)%N then
    [byteOfN (224 + cp / 4096); byteOfN (128 + (cp / 64) mod 64);
     byteOfN (128 + cp mod 64)]
  else
    [byteOfN (240 + cp / 262144); byteOfN (128 + (cp / 4096) mod 64);
     byteOfN (128 + (cp / 64) mod 64); byteOfN (128 + cp mod 64)].

(** The bytes [EF BF BD] of [U+FFFD], which the encoder writes for a
    surrogate that has no partner. *)
Definition replacement : list byte := [xef; xbf; xbd].

(** [Buffer.from(s)] (UTF-8) on any string: a high surrogate followed by a
    low one is one code point of four bytes, every other surrogate becomes
    [U+FFFD]. *)
Fixpoint utf8Encode (s : JSString) : list byte :=
  match s with
  | [] => []
  | u :: rest =>
      if isHighSurrogate u then
        match rest with
        | lo :: rest' =>
            if isLowSurrogate lo
            then utf8CodePoint (codePoint u lo) ++ utf8Encode rest'
            else replacement ++ utf8Encode rest
        | [] => replacement
        end
      else if isLowSurrogate u then replacement ++ utf8Encode rest
      else utf8CodePoint u ++ utf8Encode rest
  end.

(** [secureCompare]: a thrown [RangeError] of [timingSafeEqual] is caught
    and becomes [false]. *)
Definition secureCompare (a b : JSString) : bool :=
  if negb (List.length a =? List.length b)%nat then false
  else
    match WebhookSig.crypto_timingSafeEqual (utf8Encode a) (utf8Encode b) with
    | Some v => v
    | None => false
    end.

(** [String.prototype.isWellFormed]: no surrogate without its partner.
    (That a code unit is a 16-bit value is part of the type in JavaScript
    and is asked here of the units that are no surrogates.) *)
Fixpoint wellFormed (s : JSString) : bool :=
  match s with
  | [] => true
  | u :: rest =>
      if isHighSurrogate u then
        match rest with
        | lo :: rest' => isLowSurrogate lo && wellFormed rest'
        | [] => false
        end
      else negb (isLowSurrogate u) && (u <? 65536)%N && wellFormed rest
  end.

(** A surrogate at the head of [u :: rest] that has no partner there. *)
Definition lone (u : N) (rest : JSString) : bool :=
  isLowSurrogate u ||
  (isHighSurrogate u &&
   match rest with lo :: _ => negb (isLowSurrogate lo) | [] => true end).

(** The reading of a buffer of that encoding, back into code units; it
    serves to show that the encoding of well-formed strings loses
    nothing. *)
Fixpoint utf8DecodeUnits (bs : list byte) : JSString :=
  match bs with
  | [] => []
  | b1 :: r1 =>
      let n1 := Byte.to_N b1 in
      if (n1 <? 128)%N then n1 :: utf8DecodeUnits r1
      else if (n1 <? 224)%N then
        match r1 with
        | b2 :: r2 =>
            ((n1 - 192) * 64 + (Byte.to_N b2 - 128))%N :: utf8DecodeUnits r2
        | _ => []
        end
      else if (n1 <? 240)%N then
        match r1 with
        | b2 :: b3 :: r3 =>
            ((n1 - 224) * 4096 + (Byte.to_N b2 - 128) * 64 +
             (Byte.to_N b3 - 128))%N :: utf8DecodeUnits r3
        | _ => []
        end
      else
        match r1 with
        | b2 :: b3 :: b4 :: r4 =>
            let cp :=
              ((n1 - 240) * 262144 + (Byte.to_N b2 - 128) * 4096 +
               (Byte.to_N b3 - 128) * 64 + (Byte.to_N b4 - 128))%N in
            (55296 + (cp - 65536) / 1024)%N ::
            (56320 + (cp - 65536) mod 1024)%N :: utf8DecodeUnits r4
        | _ => []
        end
  end.

(** The cookie string of [setSecureSessionCookie] ([24 * 60 * 60] is
    86400). *)
Definition sessionCookie (token : string) : string :=
  "auth_token=" ++ token ++
  "; HttpOnly; Secure; Path=/; Max-Age=86400; SameSite=Strict".

(** The cookie string of [clearSessionCookie]. *)
Definition clearedSessionCookie : string :=
  "auth_token=; HttpOnly; Secure; Path=/; Max-Age=0; SameSite=Strict".

(** The class [[^;]] of the pattern of [getTokenFromRequest]. *)
Definition noSemicolon (c : ascii) : bool := negb (Ascii.eqb c ";").

(** The longest prefix of [s] without the code unit [c]. *)
Fixpoint takeUntil (c : ascii) (s : string) : string :=
  match s with
  | EmptyString => EmptyString
  | String x s' => if Ascii.eqb x c then EmptyString else String x (takeUntil c s')
  end.

(** [cookieHeader.match(/auth_token=([^;]+)/)]: the capture of the leftmost
    match, that is of the first position where ["auth_token="] is followed
    by at least one code unit other than a semicolon. *)
Fixpoint matchAuthToken (s : string) : option string :=
  let capture :=
    if String.prefix "auth_token=" s
    then takeUntil ";" (substringFrom 11 s) else EmptyString in
  if nonEmpty capture then Some capture
  else match s with
       | EmptyString => None
       | String _ s' => matchAuthToken s'
       end.

(** [getTokenFromRequest]; the argument is [req.headers.cookie]. *)
Definition getTokenFromRequest (cookie : option string) : option string :=
  let cookieHeader := if truthy cookie then default "" cookie else "" in
  matchAuthToken cookieHeader.

End SecureAuthUtils.

(** ** More of [lib/jwt], the legacy helpers and the verifier of the
       middleware ([lib/jwt-middleware-secure.ts]) *)

Module JwtMore.
Import Chars Jwt.

Section Tokens.

Variable HS256 : string -> Header -> Claims -> list byte.
Variable JWT_SECRET : string.
Variable JWT_EXPIRES_IN : Z.
(** [refreshExpiresIn] in seconds (['7d'] unless configured otherwise). *)
Variable JWT_REFRESH_EXPIRES_IN : Z.

(** [generateRefreshToken] *)
Definition generateRefreshToken (now : Z) (p : JWTPayload) : Token :=
  jwt_sign HS256 now p JWT_SECRET JWT_REFRESH_EXPIRES_IN issuer audience.

(** [generateTokenPair]: the access token and the refresh token. *)
Definition generateTokenPair (now : Z) (p : JWTPayload) : Token * Token :=
  (generateAccessToken HS256 JWT_SECRET JWT_EXPIRES_IN now p,
   generateRefreshToken now p).

(** [atob] of a segment: a binary string, one code unit for each byte of
    the UTF-8 text that [jwt.sign] encoded.  For ASCII text it is the text
    itself. *)
Definition binaryString (s : string) : string :=
  string_of_list_ascii (map ascii_of_byte (SecureAuthUtils.utf8Bytes s)).

(** The payload as [JSON.parse(atob(payloadB64))] has it: the strings are
    binary strings, the numbers are the numbers. *)
Definition atobPayload (c : Claims) : Claims :=
  {| claims :=
       {| userId := binaryString (userId (claims c));
          username := binaryString (username (claims c));
          phone := binaryString (phone (claims c));
          role := binaryString (role (claims c)) |};
     iat := iat c;
     exp := exp c;
     iss := option_map binaryString (iss c);
     aud := option_map binaryString (aud c) |}.

(** Text of ASCII characters only. *)
Definition asciiString (s : string) : bool :=
  forallb_str (fun c => (charCode c <? 128)%N) s.

Definition asciiClaims (p : JWTPayload) : bool :=
  asciiString (userId p) && asciiString (username p) &&
  asciiString (phone p) && asciiString (role p).

(** A number used as a condition: [undefined] and [0] are falsy. *)
Definition truthyNumber (o : option Z) : bool :=
  match o with Some n => negb (n =? 0)%Z | None => false end.

(** [isTokenExpired]: [jwt.decode] hands out the payload without any
    check. *)
Definition isTokenExpired (now : Z) (token : Token) : bool :=
  let decoded := payload token in
  if negb (truthyNumber (exp decoded)) then true
  else (default 0%Z (exp decoded) * 1000 <=? now)%Z.

(** [verifyJWTSignatureSync]: the checks on the payload, read with [atob],
    and then the HMAC over the first two segments as they are. *)
Definition verifyJWTSignatureSync (now : Z) (token : Token) : bool :=
  if negb (nonEmpty JWT_SECRET) then false
  else
    let payload := atobPayload (payload token) in
    if negb (truthy (iss payload)) || negb (truthy (aud payload)) ||
       negb (truthyNumber (exp payload)) then false
    else if negb (bool_decide (iss payload = Some issuer)) ||
            negb (bool_decide (aud payload = Some audience)) then false
    else
      let e := default 0%Z (exp payload) in
      if (e * 1000 <=? now)%Z then false
      else
        let nowSeconds := (now / 1000)%Z in
        if (e <? nowSeconds)%Z || (nowSeconds + 24 * 60 * 60 <? e)%Z then false
        else bool_decide
               (signature token =
                HS256 JWT_SECRET (header token) (Jwt.payload token)).

(** [verifyAccessTokenMiddleware] on a token that splits into three
    decodable segments.  The header's [alg] is ASCII in every token that
    passes; the payload it returns is the one read with [atob]. *)
Definition verifyAccessTokenMiddleware (now : Z) (token : Token) : option Claims :=
  if negb (alg (header token) =? "HS256")%string then None
  else
    let payload := atobPayload (payload token) in
    if negb (bool_decide (iss payload = Some issuer)) ||
       negb (bool_decide (aud payload = Some audience)) then None
    else if truthyNumber (exp payload) &&
            (default 0%Z (exp payload) * 1000 <=? now)%Z then None
    else if negb (verifyJWTSignatureSync now token) then None
    else Some payload.

(** What an [async] function returns when it is called without [await]:
    a promise of its result. *)
Inductive Promise (A : Type) := promise (settlesTo : A).
Arguments promise {A} _.

(** A promise used as a condition: it is an object, hence truthy, whatever
    it settles to. *)
Definition truthyObject {A : Type} (p : Promise A) : bool := true.

(** [verifyJWTSignature]: the HMAC over the first two segments; [false]
    when no secret is configured. *)
Definition verifyJWTSignature (token : Token) : Promise bool :=
  promise
    (if negb (nonEmpty JWT_SECRET) then false
     else bool_decide
            (signature token = HS256 JWT_SECRET (header token) (payload token))).

(** Whether [atob] reads the header and payload segments: it does unless a
    segment has one of the two characters of base64url that are not in the
    base64 alphabet. *)
Variable atobReads : Header -> Claims -> bool.

(** [verifyAccessTokenSecure]: [verifyJWTSignature] is called without
    [await], so [isValid] is the promise itself. *)
Definition verifyAccessTokenSecure (now : Z) (token : Token) : option Claims :=
  if negb (atobReads (header token) (payload token)) then None
  else if negb (alg (header token) =? "HS256")%string then None
  else
    let payload := atobPayload (payload token) in
    if negb (bool_decide (iss payload = Some issuer)) ||
       negb (bool_decide (aud payload = Some audience)) then None
    else if truthyNumber (exp payload) &&
            (default 0%Z (exp payload) * 1000 <=? now)%Z then None
    else
      let isValid := verifyJWTSignature token in
      if negb (truthyObject isValid) then None
      else Some payload.

(** The token with another signature segment. *)
Definition withSignature (token : Token) (sig : list byte) : Token :=
  {| header := header token; payload := payload token; signature := sig |}.

(** The session of the legacy helpers ([unnamed/part_008]). *)
Record LegacySession := {
  code : string;
  name : string;
  whatsappNumber : string;
  verified : bool;
  timestamp : Z;
  expiresAt : Z
}.

(** [generateAuthToken] *)
Definition generateAuthToken (now : Z) (data : SecureAuth.SessionData) : Token :=
  generateAccessToken HS256 JWT_SECRET JWT_EXPIRES_IN now
    {| userId := SecureAuth.code data;
       username := SecureAuth.name data;
       phone := SecureAuth.whatsappNumber data;
       role := "user" |}.

(** [decodeAuthToken] *)
Definition decodeAuthToken (now : Z) (token : Token) : option LegacySession :=
  match verifyAccessToken HS256 JWT_SECRET now token with
  | None => None
  | Some payload =>
      Some {| code := userId (claims payload);
              name := username (claims payload);
              whatsappNumber := phone (claims payload);
              verified := true;
              timestamp := (default 0 (iat payload) * 1000)%Z;
              expiresAt := (default 0 (exp payload) * 1000)%Z |}
  end.

End Tokens.

End JwtMore.

(** ** What [sanitizeUserInput] leaves behind *)

Module Markup.
Import Chars.

(** [t] is [s] with some code units deleted. *)
Inductive Deleted : string -> string -> Prop :=
  | deleted_nil : Deleted EmptyString EmptyString
  | deleted_skip (c : ascii) (s t : string) :
      Deleted s t -> Deleted (String c s) t
  | deleted_keep (c : ascii) (s t : string) :
      Deleted s t -> Deleted (String c s) (String c t).

Definition isLt (c : ascii) : bool := Ascii.eqb c "<".
Definition isGt (c : ascii) : bool := Ascii.eqb c ">".

(** No tag in [s]: no ["<"] has a [">"] anywhere behind it, which is to
    say that the tag pattern of [sanitizeUserInput] matches nowhere. *)
Fixpoint noTag (s : string) : bool :=
  match s with
  | EmptyString => true
  | String c t => negb (isLt c && existsb_str isGt t) && noTag t
  end.

(** A code unit that none of the four patterns of [sanitizeUserInput]
    can do without appears in every match: ["<"] in the first two, [":"] in
    the third, ["="] in the fourth.  A plain code unit is none of them. *)
Definition plain (c : ascii) : bool :=
  negb (Ascii.eqb c "<" || Ascii.eqb c ":" || Ascii.eqb c "=").

End Markup.

(** ** The session-keyed CSRF store ([unnamed/part_011]) *)

Module CsrfStore.
Import Chars Hex.

Record CSRFToken := {
  token : string;
  expiresAt : Z
}.

(** The interval timer: every token with [expiresAt < now] is deleted. *)
Definition sweep (now : Z) (csrfTokens : gmap string CSRFToken)
    : gmap string CSRFToken :=
  filter (fun kv : string * CSRFToken => ¬ (expiresAt kv.2 < now)%Z) csrfTokens.

(** [generateCSRFToken(sessionId)]: [randomBytes] stands for
    [crypto.randomBytes(64)]; the module-level map is passed in and
    returned. *)
Definition generateCSRFToken (randomBytes : nat -> byte) (sessionId : string)
    (now : Z) (csrfTokens : gmap string CSRFToken)
    : gmap string CSRFToken * string :=
  let token := hexOfBytes (map randomBytes (seq 0 64)) in
  let expiresAt := (now + 10 * 60 * 1000)%Z in
  (<[sessionId := {| token := token; expiresAt := expiresAt |}]> csrfTokens,
   token).

(** What a call yields: a value, or the [RangeError] that
    [crypto.timingSafeEqual] throws and nothing here catches. *)
Inductive Result := Returned (value : bool) | Thrown.

(** [validateCSRFToken] *)
Definition validateCSRFToken (sessionId token' : string) (now : Z)
    (csrfTokens : gmap string CSRFToken) : gmap string CSRFToken * Result :=
  match csrfTokens !! sessionId with
  | None => (csrfTokens, Returned false)
  | Some storedToken =>
      if (expiresAt storedToken <? now)%Z then
        (delete sessionId csrfTokens, Returned false)
      else
        match WebhookSig.crypto_timingSafeEqual
                (SecureAuthUtils.utf8Bytes (token storedToken))
                (SecureAuthUtils.utf8Bytes token') with
        | Some equal => (csrfTokens, Returned equal)
        | None => (csrfTokens, Thrown)
        end
  end.

(** [generateCSRFTokenForClient]: the token and [expiresIn], in seconds. *)
Definition generateCSRFTokenForClient (randomBytes : nat -> byte)
    (sessionId : string) (now : Z) (csrfTokens : gmap string CSRFToken)
    : gmap string CSRFToken * (string * Z) :=
  let '(csrfTokens', token) :=
    generateCSRFToken randomBytes sessionId now csrfTokens in
  (csrfTokens', (token, (15 * 60)%Z)).

(** [clearCSRFToken] *)
Definition clearCSRFToken (sessionId : string)
    (csrfTokens : gmap string CSRFToken) : gmap string CSRFToken :=
  delete sessionId csrfTokens.

Record TokenInfo := {
  hasToken : bool;
  infoExpiresAt : option Z;
  isExpired : bool
}.

(** [getCSRFTokenInfo] *)
Definition getCSRFTokenInfo (sessionId : string) (now : Z)
    (csrfTokens : gmap string CSRFToken) : TokenInfo :=
  match csrfTokens !! sessionId with
  | None => {| hasToken := false; infoExpiresAt := None; isExpired := false |}
  | Some token =>
      {| hasToken := true; infoExpiresAt := Some (expiresAt token);
         isExpired := (expiresAt token <? now)%Z |}
  end.

(** A request with what [extractCSRFToken] may read from the form data:
    the field [csrf_token], [None] when it is missing or when reading the
    form throws. *)
Record Request := {
  http : Csrf.NextRequest;
  form_csrf_token : option string
}.

(** [extractCSRFToken] *)
Definition extractCSRFToken (request : Request) : option string :=
  let headerToken := Csrf.headers_get (http request) "x-csrf-token" in
  if truthy headerToken then headerToken
  else if truthy (form_csrf_token request) then form_csrf_token request
  else None.

(** The capture of the leftmost match of [/session_id=([^;]+)/]. *)
Fixpoint matchSessionId (s : string) : option string :=
  let capture :=
    if String.prefix "session_id=" s
    then SecureAuthUtils.takeUntil ";" (substringFrom 11 s) else EmptyString in
  if nonEmpty capture then Some capture
  else match s with
       | EmptyString => None
       | String _ s' => matchSessionId s'
       end.

(** [extractSessionId] *)
Definition extractSessionId (request : Request) : option string :=
  let authHeader := Csrf.headers_get (http request) "authorization" in
  if truthy authHeader && String.prefix "Bearer " (default "" authHeader) then
    Some (substringFrom 7 (default "" authHeader))
  else
    let authToken := Csrf.cookies_get (http request) "auth_token" in
    if truthy authToken then authToken
    else
      let cookieHeader := Csrf.headers_get (http request) "cookie" in
      if truthy cookieHeader then matchSessionId (default "" cookieHeader)
      else None.

(** [validateCSRFProtection] *)
Definition validateCSRFProtection (request : Request) (now : Z)
    (csrfTokens : gmap string CSRFToken) : gmap string CSRFToken * Result :=
  if (Csrf.method (http request) =? "GET")%string then
    (csrfTokens, Returned true)
  else
    match extractCSRFToken request with
    | None => (csrfTokens, Returned false)
    | Some token =>
        let sessionId := extractSessionId request in
        if negb (truthy sessionId) then (csrfTokens, Returned false)
        else validateCSRFToken (default "" sessionId) token now csrfTokens
    end.

End CsrfStore.

(** ** More of the rate limiter ([unnamed/part_011]) *)

Module RateLimitMore.
Import RateLimit.

Record StoredStatus := {
  statusCount : Z;
  statusRemaining : Z;
  storedResetTime : Z;
  isLimited : bool
}.

(** [getRateLimitStatus(key)] *)
Definition getRateLimitStatus (key : string) (now : Z)
    (rateLimitStore : gmap string RateLimitEntry) : StoredStatus :=
  match rateLimitStore !! key with
  | None =>
      {| statusCount := 0; statusRemaining := 100;
         storedResetTime := now + 15 * 60 * 1000; isLimited := false |}
  | Some entry =>
      let isExpired := (resetTime entry <? now)%Z in
      if isExpired then
        {| statusCount := 0; statusRemaining := 100;
           storedResetTime := now + 15 * 60 * 1000; isLimited := false |}
      else
        {| statusCount := count entry;
           statusRemaining := Z.max 0 (100 - count entry);
           storedResetTime := resetTime entry;
           isLimited := (100 <=? count entry)%Z |}
  end.

(** What happens to the module-level store: a call of [checkRateLimit],
    or the interval timer running [cleanupExpiredEntries]. *)
Inductive Event :=
  | Check (request : Request) (limitType : LimitType) (now : Z)
  | Cleanup (now : Z).

Definition step (rateLimitStore : gmap string RateLimitEntry) (e : Event)
    : gmap string RateLimitEntry :=
  match e with
  | Check request limitType now =>
      (checkRateLimit request limitType now rateLimitStore).1
  | Cleanup now => cleanupExpiredEntries now rateLimitStore
  end.

(** The store after a history of events, from the empty store of a fresh
    module. *)
Definition run (events : list Event) : gmap string RateLimitEntry :=
  fold_left step events ∅.

(** Every count in the store lies between one and the largest configured
    limit. *)
Definition bounded (store : gmap string RateLimitEntry) : Prop :=
  forall k e, store !! k = Some e -> (1 <= count e <= 50)%Z.

End RateLimitMore.

(** ** Relations between states of the webhook handler *)

Module WebhookMore.
Import Store Webhook.

(** [r'] is the record [r], possibly verified in the meantime: the same
    code, name, number and expiry, and verified if [r] was. *)
Definition sameRecord (r r' : VerificationRow) : Prop :=
  vc_code r' = vc_code r /\ vc_name r' = vc_name r /\
  vc_whatsapp_number r' = vc_whatsapp_number r /\
  vc_expires_at r' = vc_expires_at r /\
  (vc_verified r = true -> vc_verified r' = true).

(** A state in which the sender of [message] has used up the messages of
    the running minute: the window opened at [opened], and the counter
    stands at [counted]. *)
Definition exhausted (message : Message) (opened counted : Z) (st : State) : Prop :=
  messageRateLimit st !! from message = Some opened /\
  messageRateLimit st !! (from message ++ "_count") = Some counted /\
  (0 < opened)%Z /\ (MAX_MESSAGES_PER_MINUTE <= counted)%Z.

(** The state after five chat messages of one sender, the sixth message of
    that sender, and its delivery. *)
Definition afterFiveChats : State :=
  run WebhookSig.exampleHmac (Some exampleSecret) fiveChats exampleState.

Definition sixthChat : Message := chat "6".

End WebhookMore.

(** ** Responses of the remaining routes *)

Module Responses.
Import Store.

(** A response: an error of [createSecureErrorResponse] with the code of
    [ERROR_CODES] and the status, the 429 of [handleRateLimitError], or the
    success body. *)
Inductive Response (A : Type) :=
  | Error (code : string) (status : nat)
  | RateLimited (retryAfter : Z)
  | Ok (value : A).

Arguments Error {A} _ _.
Arguments RateLimited {A} _.
Arguments Ok {A} _.

(** The error that [handleDatabaseError] answers with. *)
Definition handleDatabaseError {A : Type} (error : DbError) : Response A :=
  match error with
  | PGRST116 => Error "RECORD_NOT_FOUND" 500
  | UniqueViolation => Error "RECORD_EXISTS" 500
  | OtherDbError => Error "DATABASE_ERROR" 500
  end.

End Responses.

(** ** Signing in with a verified code ([app/api/verify-and-auth/route.ts]) *)

Module VerifyAndAuth.
Import Chars Jwt SecureAuth Store Responses.

Record Request := {
  http : Csrf.NextRequest;
  (** the field [code] of the JSON body, a string *)
  code : string
}.

(** The success body and the token put into the [auth_token] cookie. *)
Record Authenticated := {
  data_code : string;
  data_name : string;
  auth_token : Token
}.

Section Route.

Variable HS256 : string -> Header -> Claims -> list byte.
Variable JWT_SECRET : string.
Variable JWT_EXPIRES_IN : Z.

(** [POST] *)
Definition POST (now : Z) (request : Request) (db : Database)
    : Response Authenticated :=
  if negb (Csrf.validateDoubleSubmitCSRF (http request)) then
    Error "CSRF_INVALID" 403
  else
    let sanitizedCode := Sanitize.sanitizeUserInput (code request) in
    if negb (nonEmpty sanitizedCode) then Error "INVALID_INPUT" 400
    else
      match single (List.filter
                      (fun row => (vc_code row =? sanitizedCode)%string &&
                                  (now <? vc_expires_at row)%Z)
                      (verification_codes db)) with
      | inr error => handleDatabaseError error
      | inl verificationData =>
          if negb (vc_verified verificationData) then
            Error "VERIFICATION_FAILED" 400
          else
            let secureToken :=
              generateSecureToken HS256 JWT_SECRET JWT_EXPIRES_IN now
                {| SecureAuth.code := vc_code verificationData;
                   name := vc_name verificationData;
                   whatsappNumber := vc_whatsapp_number verificationData;
                   verified := true |} in
            Ok {| data_code := vc_code verificationData;
                  data_name := vc_name verificationData;
                  auth_token := secureToken |}
      end.

End Route.

End VerifyAndAuth.

(** ** Signing in with a password (the second handler kept in
       [app/api/webhooks/whatsapp/route.ts]) *)

Module Login.
Import Chars Hex Jwt SecureAuth Store Responses Validation.

Record Request := {
  http : Csrf.NextRequest;
  (** the fields of the JSON body *)
  phone : string;
  password : string
}.

Record LoggedIn := {
  user_id : string;
  user_name : string;
  user_phone : string;
  auth_token : Token
}.

(** [retryAfter || 900] *)
Definition retryAfterOr900 (retryAfter : option Z) : Z :=
  match retryAfter with
  | Some n => if (n =? 0)%Z then 900%Z else n
  | None => 900%Z
  end.

Section Route.

Variable HS256 : string -> Header -> Claims -> list byte.
Variable JWT_SECRET : string.
Variable JWT_EXPIRES_IN : Z.

(** [bcrypt.compare(password, hash)] *)
Variable comparePassword : string -> string -> bool.

(** [POST].  [randomBytes] stands for [crypto.randomBytes(64)]; the store
    of the rate limiter is passed in and returned. *)
Definition POST (now : Z) (randomBytes : nat -> byte) (request : Request)
    (rateLimitStore : gmap string RateLimit.RateLimitEntry) (db : Database)
    : gmap string RateLimit.RateLimitEntry * Response LoggedIn :=
  let '(rateLimitStore', rateLimit) :=
    RateLimit.checkRateLimit
      {| RateLimit.headers := Csrf.headers (http request) |}
      RateLimit.auth now rateLimitStore in
  (rateLimitStore',
   if negb (RateLimit.allowed rateLimit) then
     RateLimited (retryAfterOr900 (RateLimit.retryAfter rateLimit))
   else if negb (Csrf.validateDoubleSubmitCSRF (http request)) then
     Error "CSRF_INVALID" 403
   else
     let sanitizedPhone := Sanitize.sanitizeUserInput (phone request) in
     let sanitizedPassword := Sanitize.sanitizeUserInput (password request) in
     match validatePhoneNumber sanitizedPhone with
     | Invalid _ => Error "INVALID_INPUT" 400
     | Valid validatedPhone =>
       match validatePassword sanitizedPassword with
       | Invalid _ => Error "INVALID_INPUT" 400
       | Valid _ =>
         match single (List.filter
                         (fun u => (Store.user_phone u =? validatedPhone)%string &&
                                   user_verified u)
                         (users db)) with
         | inr _ => Error "AUTH_INVALID" 401
         | inl user =>
             if negb (comparePassword sanitizedPassword (user_password_hash user))
             then Error "AUTH_INVALID" 401
             else
               let secureToken :=
                 generateSecureToken HS256 JWT_SECRET JWT_EXPIRES_IN now
                   (SetPassword.passwordLoginSession randomBytes
                      (Store.user_name user) (Store.user_phone user)) in
               Ok {| user_id := Store.user_id user;
                     user_name := Store.user_name user;
                     user_phone := Store.user_phone user;
                     auth_token := secureToken |}
         end
       end
     end).

End Route.

End Login.

(** ** Asking for a password reset ([unnamed/part_004]) *)

Module ResetPassword.
Import Chars Jwt SecureAuth Store Responses Validation.

Record Request := {
  http : Csrf.NextRequest;
  (** the field [phone] of the JSON body *)
  phone : string
}.

(** The success body and the token put into the [auth_token] cookie. *)
Record Issued := {
  issued_code : string;
  auth_token : Token
}.

(** The loop that looks for an unused code.  [candidates i] is the result
    of the call number [i] of [generateVerificationCode()], counted from
    zero; [code] is the current candidate and [next] the number of the call
    that would replace it.  The loop stops when the probe finds no single
    record with the code, or after [fuel] replacements. *)
Fixpoint chooseCode (fuel : nat) (candidates : nat -> string) (next : nat)
    (code : string) (rows : list VerificationRow) : string :=
  match fuel with
  | O => code
  | S fuel' =>
      match single (List.filter (fun row => (vc_code row =? code)%string) rows) with
      | inr _ => code
      | inl _ => chooseCode fuel' candidates (S next) (candidates next) rows
      end
  end.

Section Route.

Variable HS256 : string -> Header -> Claims -> list byte.
Variable JWT_SECRET : string.
Variable JWT_EXPIRES_IN : Z.

(** [POST].  [insertError] is the error with which the store refuses the
    new record, if it does. *)
Definition POST (now : Z) (candidates : nat -> string)
    (insertError : option DbError) (request : Request) (db : Database)
    : Database * Response Issued :=
  if negb (Csrf.validateDoubleSubmitCSRF (http request)) then
    (db, Error "CSRF_INVALID" 403)
  else
    let sanitizedPhone := Sanitize.sanitizeUserInput (phone request) in
    match validatePhoneNumber sanitizedPhone with
    | Invalid _ => (db, Error "INVALID_INPUT" 400)
    | Valid validatedPhone =>
      match single (List.filter
                      (fun u => (Store.user_phone u =? validatedPhone)%string &&
                                user_verified u)
                      (users db)) with
      | inr _ => (db, Error "ACCOUNT_NOT_FOUND" 404)
      | inl existingUser =>
          let code :=
            chooseCode 10 candidates 1 (candidates 0%nat) (verification_codes db) in
          let expiresAt := (now + 10 * 60 * 1000)%Z in
          match insertError with
          | Some error => (db, handleDatabaseError error)
          | None =>
              let data :=
                {| vc_code := code;
                   vc_name := Store.user_name existingUser;
                   vc_whatsapp_number := validatedPhone;
                   vc_verified := false;
                   vc_expires_at := expiresAt;
                   vc_verified_at := None |} in
              let secureToken :=
                generateSecureToken HS256 JWT_SECRET JWT_EXPIRES_IN now
                  (resetFlowSession (vc_code data)
                     (Store.user_name existingUser) validatedPhone) in
              ({| verification_codes := verification_codes db ++ [data];
                  users := users db |},
               Ok {| issued_code := vc_code data; auth_token := secureToken |})
          end
      end
    end.

End Route.

End ResetPassword.

(** ** The session route ([unnamed/part_003]) *)

Module Session.
Import Chars Jwt SecureAuth Store Responses.

(** The success body and, when the route sets one, the new [auth_token]
    cookie. *)
Record Report := {
  data_code : string;
  data_name : string;
  data_verified : bool;
  set_cookie : option Token
}.

Section Route.

Variable HS256 : string -> Header -> Claims -> list byte.
Variable JWT_SECRET : string.
Variable JWT_EXPIRES_IN : Z.

(** [verifySecureTokenEdge] and [generateSecureTokenEdge] do what
    [verifySecureToken] and [generateSecureToken] do. *)
Definition verifySecureTokenEdge : Z -> Token -> option SessionData :=
  verifySecureToken HS256 JWT_SECRET.

Definition generateSecureTokenEdge : Z -> SessionData -> Token :=
  generateSecureToken HS256 JWT_SECRET JWT_EXPIRES_IN.

(** [GET].  [token] is the [auth_token] cookie in parsed form. *)
Definition GET (now : Z) (token : option Token) (db : Database)
    : Response Report :=
  match token with
  | None => Error "AUTH_REQUIRED" 401
  | Some token =>
    match verifySecureTokenEdge now token with
    | None => Error "AUTH_INVALID" 401
    | Some sessionData =>
        if SetPassword.looksLikeSessionId (SecureAuth.code sessionData) then
          Ok {| data_code := SecureAuth.code sessionData;
                data_name := name sessionData;
                data_verified := verified sessionData;
                set_cookie := None |}
        else
          match single (List.filter
                          (fun row =>
                             (vc_code row =? SecureAuth.code sessionData)%string &&
                             (now <? vc_expires_at row)%Z)
                          (verification_codes db)) with
          | inr error => handleDatabaseError error
          | inl data =>
              Ok {| data_code := vc_code data;
                    data_name := vc_name data;
                    data_verified := vc_verified data;
                    set_cookie :=
                      if negb (Bool.eqb (vc_verified data) (verified sessionData))
                      then Some (generateSecureTokenEdge now
                                   {| SecureAuth.code := SecureAuth.code sessionData;
                                      name := name sessionData;
                                      whatsappNumber := whatsappNumber sessionData;
                                      verified := vc_verified data |})
                      else None |}
          end
    end
  end.

End Route.

End Session.

(** ** The store as the routes and the webhook handler share it *)

Module Flow.
Import Store.

(** The database behind a state of the webhook handler, given the users. *)
Definition database (st : Webhook.State) (users : list UserRow) : Database :=
  {| verification_codes := Webhook.verification_codes st; users := users |}.

(** The record [row] once the webhook handler has verified it at [at]. *)
Definition verifiedAt (at_ : Z) (row : VerificationRow) : VerificationRow :=
  {| vc_code := vc_code row; vc_name := vc_name row;
     vc_whatsapp_number := vc_whatsapp_number row;
     vc_verified := true;
     vc_expires_at := vc_expires_at row;
     vc_verified_at := Some at_ |}.

(** A browser request with matching CSRF cookie and header. *)
Definition browser : Csrf.NextRequest :=
  {| Csrf.method := "POST";
     Csrf.headers := {[ "x-csrf-token" := "c0ffee" ]};
     Csrf.cookies := {[ "csrf-token" := "c0ffee" ]} |}.

(** A stand-in for [bcrypt.compare] that goes with
    [SetPassword.exampleHash]. *)
Definition exampleCompare (password hash : string) : bool :=
  (hash =? SetPassword.exampleHash password)%string.

(** The request with which the holder of [SetPassword.exampleRequest]'s
    password signs in. *)
Definition loginRequest : Login.Request :=
  {| Login.http := browser; Login.phone := "15551234567";
     Login.password := "abc123" |}.

(** A store with one user and one record, whose code is the first
    candidate that the reset route draws below. *)
Definition resetDb : Database :=
  {| verification_codes := verification_codes SetPassword.exampleDb;
     users :=
       [{| user_id := "user-1"; user_phone := "15551234567";
           user_name := "Ann"; user_password_hash := "$2a$12$abc123";
           user_verified := true; user_created_at := 0;
           user_updated_at := 0 |}] |}.

Definition resetCandidates (i : nat) : string :=
  match i with O => "X7K2M9" | _ => "Q4W8E2" end.

Definition resetRequest : ResetPassword.Request :=
  {| ResetPassword.http := browser; ResetPassword.phone := "15551234567" |}.

End Flow.

(** * Properties *)

(** ** Characters and hexadecimal text *)

Module CharFacts.
Import Chars Hex.

Lemma append_String (c : ascii) (s t : string) :
  String c s ++ t = String c (s ++ t).
Proof. reflexivity. Qed.

Lemma append_Empty (t : string) : "" ++ t = t.
Proof. reflexivity. Qed.

Lemma append_Empty_r_str (s : string) : s ++ "" = s.
Proof. induction s as [|c s IH]; [reflexivity|]. now rewrite append_String, IH. Qed.

Lemma length_append (a b : string) :
  String.length (a ++ b) = (String.length a + String.length b)%nat.
Proof.
  induction a as [|c a IH]; [reflexivity|].
  rewrite append_String. cbn. now rewrite IH.
Qed.

Lemma byteOfN_to_N (b : byte) : byteOfN (Byte.to_N b) = b.
Proof. unfold byteOfN. now rewrite Byte.of_to_N. Qed.

Lemma hexValue_hexDigit (n : N) : (n < 16)%N -> hexValue (hexDigit n) = Some n.
Proof.
  intros Hn.
  assert (Hcases : In n (map N.of_nat (seq 0 16))).
  { apply in_map_iff. exists (N.to_nat n). split; [lia|]. apply in_seq. lia. }
  simpl in Hcases.
  repeat (destruct Hcases as [<- | Hcases]; [reflexivity|]).
  destruct Hcases.
Qed.

Lemma bytesOfHex_byteToHex (b : byte) (s : string) :
  bytesOfHex (byteToHex b ++ s) = b :: bytesOfHex s.
Proof.
  unfold byteToHex. cbv zeta.
  rewrite !append_String, append_Empty. cbn [bytesOfHex].
  pose proof (Byte.to_N_bounded b) as Hb.
  rewrite !hexValue_hexDigit.
  - f_equal. rewrite <- (byteOfN_to_N b) at 3. f_equal.
    pose proof (N.div_mod (Byte.to_N b) 16). lia.
  - apply N.mod_lt. lia.
  - apply N.Div0.div_lt_upper_bound. lia.
Qed.

(** Decoding the hex text of a byte string gives the bytes back. *)
Lemma bytesOfHex_hexOfBytes (bs : list byte) : bytesOfHex (hexOfBytes bs) = bs.
Proof.
  induction bs as [|b bs IH]; [reflexivity|].
  cbn [hexOfBytes]. now rewrite bytesOfHex_byteToHex, IH.
Qed.

Lemma isHex_hexDigit (n : N) : (n < 16)%N -> isHex (hexDigit n) = true.
Proof.
  intros Hn.
  assert (Hcases : In n (map N.of_nat (seq 0 16))).
  { apply in_map_iff. exists (N.to_nat n). split; [lia|]. apply in_seq. lia. }
  simpl in Hcases.
  repeat (destruct Hcases as [<- | Hcases]; [reflexivity|]).
  destruct Hcases.
Qed.

Lemma forallb_str_hexOfBytes (bs : list byte) :
  forallb_str isHex (hexOfBytes bs) = true.
Proof.
  induction bs as [|b bs IH]; [reflexivity|].
  cbn [hexOfBytes]. unfold byteToHex. cbv zeta.
  rewrite !append_String, append_Empty. cbn [forallb_str].
  pose proof (Byte.to_N_bounded b) as Hb.
  rewrite !isHex_hexDigit, IH; [reflexivity| |].
  - apply N.mod_lt. lia.
  - apply N.Div0.div_lt_upper_bound. lia.
Qed.

Lemma length_hexOfBytes (bs : list byte) :
  String.length (hexOfBytes bs) = (2 * List.length bs)%nat.
Proof.
  induction bs as [|b bs IH]; [reflexivity|].
  cbn [hexOfBytes]. unfold byteToHex. cbv zeta.
  rewrite !append_String, append_Empty. cbn [String.length List.length].
  rewrite IH. lia.
Qed.

End CharFacts.

(** ** Double-submit CSRF guard *)

Module CsrfFacts.
Import Chars Hex Csrf CsrfTokenRoute CharFacts.

Lemma charCode_inj (x y : ascii) : charCode x = charCode y -> x = y.
Proof.
  unfold charCode. intros H.
  now rewrite <- (ascii_N_embedding x), <- (ascii_N_embedding y), H.
Qed.

(** The accumulator ends at zero exactly when it started at zero and the
    two strings agree at every index. *)
Lemma xorAccumulate_zero (a : string) : forall (b : string) (r : N),
  String.length a = String.length b ->
  (xorAccumulate a b r = 0%N <-> r = 0%N /\ a = b).
Proof.
  induction a as [|x a IH]; intros [|y b] r Hlen; cbn in Hlen; try discriminate.
  - cbn. intuition.
  - cbn [xorAccumulate]. rewrite IH by congruence.
    rewrite N.lor_eq_0_iff, N.lxor_eq_0_iff. split.
    + intros [[Hr Hxy] Hab]. apply charCode_inj in Hxy. now subst.
    + intros [Hr Heq]. injection Heq as -> ->. auto.
Qed.

(** [timingSafeEqual] decides equality of strings. *)
Lemma timingSafeEqual_spec (a b : string) : timingSafeEqual a b = true <-> a = b.
Proof.
  unfold timingSafeEqual.
  destruct (Nat.eqb_spec (String.length a) (String.length b)) as [Hlen|Hlen]; cbn.
  - rewrite N.eqb_eq, (xorAccumulate_zero a b 0 Hlen). intuition.
  - split; [discriminate|]. intros ->. now contradiction Hlen.
Qed.

Lemma nonEmpty_true (s : string) : nonEmpty s = true <-> s <> "".
Proof. destruct s; cbn; split; congruence. Qed.

Lemma truthy_Some (o : option string) :
  truthy o = true <-> exists s, o = Some s /\ s <> "".
Proof.
  destruct o as [s|]; cbn.
  - rewrite nonEmpty_true. split; [eauto|]. now intros (s' & [= <-] & H).
  - split; [discriminate|]. now intros (s' & H & _).
Qed.

(** C3, as the code has it: only the method [GET] is exempt; every other
    method, the safe ones [HEAD], [OPTIONS] and [TRACE] included, passes
    exactly when the [x-csrf-token] header and the [csrf-token] cookie are
    both present with the same non-empty value. *)
Theorem validateDoubleSubmitCSRF_spec (request : NextRequest) :
  validateDoubleSubmitCSRF request = true <->
  method request = "GET" \/
  exists t : string, t <> "" /\
    headers_get request "x-csrf-token" = Some t /\
    cookies_get request "csrf-token" = Some t.
Proof.
  unfold validateDoubleSubmitCSRF.
  destruct (String.eqb_spec (method request) "GET") as [Hm|Hm].
  { intuition. }
  destruct (headers_get request "x-csrf-token") as [t|] eqn:Ht;
    destruct (cookies_get request "csrf-token") as [c|] eqn:Hc.
  - destruct (nonEmpty t) eqn:Et; destruct (nonEmpty c) eqn:Ec; cbn.
    + rewrite timingSafeEqual_spec. split.
      * intros ->. right. exists c. apply nonEmpty_true in Ec. auto.
      * intros [?|(u & _ & [= ->] & [= ->])]; [contradiction|reflexivity].
    + split; [discriminate|].
      intros [?|(u & Hu & [= ->] & [= ->])]; [contradiction|]. congruence.
    + split; [discriminate|].
      intros [?|(u & Hu & [= ->] & [= ->])]; [contradiction|]. congruence.
    + split; [discriminate|].
      intros [?|(u & Hu & [= ->] & [= ->])]; [contradiction|].
      apply nonEmpty_true in Hu. congruence.
  - split; [discriminate|]. intros [?|(u & _ & _ & ?)]; [contradiction|discriminate].
  - split; [discriminate|]. intros [?|(u & _ & ? & _)]; [contradiction|discriminate].
  - split; [discriminate|]. intros [?|(u & _ & ? & _)]; [contradiction|discriminate].
Qed.

(** C3 as stated fails: a [HEAD] request, which is safe, that carries
    neither the cookie nor the header is rejected. *)
Lemma validateDoubleSubmitCSRF_head_rejected :
  let request := {| method := "HEAD"; headers := ∅; cookies := ∅ |} in
  safe_method (method request) = true /\
  validateDoubleSubmitCSRF request = false.
Proof. split; reflexivity. Qed.

Lemma length_generateCSRFToken (array : nat -> byte) :
  String.length (generateCSRFToken array) = 128%nat.
Proof.
  unfold generateCSRFToken.
  now rewrite length_hexOfBytes, length_map, length_seq.
Qed.

Lemma nonEmpty_generateCSRFToken (array : nat -> byte) :
  nonEmpty (generateCSRFToken array) = true.
Proof.
  pose proof (length_generateCSRFToken array) as H.
  destruct (generateCSRFToken array); [discriminate H|reflexivity].
Qed.

(** C9 fails on [app/api/csrf-token/route.ts].  Take a caller that
    presents a user agent (the handler answers 400 to any other before it
    comes to the token) and holds a non-empty [csrf-token] cookie [t], and
    let the token of this call differ from [t].  The handler never reads the
    cookie: it answers 200 with the new token and sets it as the cookie, so
    neither the body nor the cookie is [t], and a form in flight, which
    carries [t] in its header and now the new cookie, is refused by
    [validateDoubleSubmitCSRF].  The copy of the handler kept in
    [unnamed/part_005] does what the claim describes up to the cookie: it
    answers with [t] and sets no cookie, so the form still passes. *)
Theorem csrf_token_GET_overwrites_cookie
    (array : nat -> byte) (request : NextRequest) (t : string) :
  truthy (headers_get request "user-agent") = true ->
  cookies_get request "csrf-token" = Some t ->
  t <> "" ->
  generateCSRFToken array <> t ->
  CsrfTokenRoute.GET array request =
    {| status := 200;
       body_token := Some (generateCSRFToken array);
       set_cookie := Some (generateCSRFToken array) |} /\
  body_token (CsrfTokenRoute.GET array request) <> Some t /\
  set_cookie (CsrfTokenRoute.GET array request) <> Some t /\
  (forall form : NextRequest,
     method form <> "GET" ->
     headers_get form "x-csrf-token" = Some t ->
     cookies_get form "csrf-token" = set_cookie (CsrfTokenRoute.GET array request) ->
     validateDoubleSubmitCSRF form = false) /\
  CsrfTokenRouteCopy.GET array request =
    {| status := 200; body_token := Some t; set_cookie := None |} /\
  (forall form : NextRequest,
     headers_get form "x-csrf-token" = Some t ->
     cookies_get form "csrf-token" = Some t ->
     validateDoubleSubmitCSRF form = true).
Proof.
  intros Hua Hcookie Ht Hnew. pose proof Ht as Hnonempty.
  apply nonEmpty_true in Hnonempty.
  assert (Hget : CsrfTokenRoute.GET array request =
            {| status := 200;
               body_token := Some (generateCSRFToken array);
               set_cookie := Some (generateCSRFToken array) |}).
  { unfold CsrfTokenRoute.GET. rewrite Hua. cbn [negb]. cbv zeta.
    now rewrite nonEmpty_generateCSRFToken. }
  rewrite Hget. cbn [body_token set_cookie].
  split; [reflexivity|]. split; [congruence|]. split; [congruence|].
  split; [|split].
  - intros form Hm Hh Hc. unfold validateDoubleSubmitCSRF.
    destruct (String.eqb_spec (method form) "GET"); [contradiction|].
    rewrite Hh, Hc, Hnonempty, nonEmpty_generateCSRFToken. cbn [negb orb].
    apply not_true_is_false. rewrite timingSafeEqual_spec. congruence.
  - unfold CsrfTokenRouteCopy.GET. rewrite Hua, Hcookie. cbn [truthy].
    rewrite Hnonempty. cbn [negb default from_option id]. now rewrite Hnonempty.
  - intros form Hh Hc. unfold validateDoubleSubmitCSRF.
    rewrite Hh, Hc, Hnonempty. cbn [negb orb].
    destruct (method form =? "GET")%string; [reflexivity|].
    now apply timingSafeEqual_spec.
Qed.

(** The run that shows it: the caller holds the token ["ff...ff"] of an
    earlier call, and the 64 random bytes of this call are all zero. *)
Lemma csrf_token_GET_overwrites_cookie_witness :
  let existing := generateCSRFToken (fun _ => xff) in
  let minted := generateCSRFToken (fun _ => x00) in
  let request :=
    {| method := "GET";
       headers := {[ "user-agent" := "Mozilla/5.0" ]};
       cookies := {[ "csrf-token" := existing ]} |} in
  let form (cookie : string) :=
    {| method := "POST";
       headers := {[ "x-csrf-token" := existing ]};
       cookies := {[ "csrf-token" := cookie ]} |} in
  CsrfTokenRoute.GET (fun _ => x00) request =
    {| status := 200; body_token := Some minted; set_cookie := Some minted |} /\
  minted <> existing /\
  validateDoubleSubmitCSRF (form minted) = false /\
  CsrfTokenRouteCopy.GET (fun _ => x00) request =
    {| status := 200; body_token := Some existing; set_cookie := None |} /\
  validateDoubleSubmitCSRF (form existing) = true.
Proof.
  intros existing minted request form.
  assert (Hnew : minted <> existing) by (vm_compute; discriminate).
  destruct (csrf_token_GET_overwrites_cookie (fun _ => x00) request existing
              eq_refl eq_refl ltac:(vm_compute; discriminate) Hnew)
    as (Hget & _ & _ & Hrefused & Hcopy & Hpasses).
  split; [exact Hget|]. split; [exact Hnew|]. split; [|split].
  - apply Hrefused; [vm_compute; discriminate|reflexivity|].
    rewrite Hget. reflexivity.
  - exact Hcopy.
  - apply Hpasses; reflexivity.
Defined.

End CsrfFacts.

(** ** Signed tokens and session data *)

Module TokenFacts.
Import Jwt SecureAuth.

Section Tokens.

Variable HS256 : string -> Header -> Claims -> list byte.
Variable JWT_SECRET : string.
Variable JWT_EXPIRES_IN : Z.

Local Abbreviation mint := (generateSecureToken HS256 JWT_SECRET JWT_EXPIRES_IN).
Local Abbreviation verify := (verifySecureToken HS256 JWT_SECRET).

(** A freshly signed token passes every check but the one on [exp]. *)
Lemma verifyAccessToken_generateAccessToken (now now' : Z) (p : JWTPayload) :
  verifyAccessToken HS256 JWT_SECRET now'
    (generateAccessToken HS256 JWT_SECRET JWT_EXPIRES_IN now p) =
  if (now / 1000 + JWT_EXPIRES_IN <=? now' / 1000)%Z then None
  else Some (payload (generateAccessToken HS256 JWT_SECRET JWT_EXPIRES_IN now p)).
Proof.
  unfold verifyAccessToken, generateAccessToken, jwt_verify, jwt_sign.
  cbn [header payload signature alg exp aud iss].
  rewrite !bool_decide_eq_true_2 by reflexivity. cbn.
  now destruct (_ <=? _)%Z.
Qed.

(** Whole seconds against milliseconds: [now' / 1000] has reached [e]
    exactly when [now'] has reached [e * 1000]. *)
Lemma seconds_reached (e now' : Z) : (e <=? now' / 1000)%Z = (e * 1000 <=? now')%Z.
Proof.
  destruct (Z.leb_spec (e * 1000) now') as [H|H].
  - apply Z.leb_le. apply Z.div_le_lower_bound; lia.
  - apply Z.leb_gt. apply Z.div_lt_upper_bound; lia.
Qed.

Lemma verify_mint (now now' : Z) (data : SessionData) :
  verify now' (mint now data) =
  if (expiresAtMs now JWT_EXPIRES_IN <=? now')%Z then None
  else Some (withVerified data true).
Proof.
  unfold verifySecureToken, generateSecureToken, expiresAtMs.
  rewrite verifyAccessToken_generateAccessToken, seconds_reached.
  now destruct (_ <=? _)%Z.
Qed.

Lemma withVerified_id (data : SessionData) (v : bool) :
  withVerified data v = data <-> verified data = v.
Proof.
  destruct data as [c n w b]. unfold withVerified. cbn. split.
  - now intros [= ->].
  - now intros ->.
Qed.

(** C1, as the code has it: a token minted from session data and verified
    strictly before its expiry yields the same code, name and phone with
    [verified = true], whatever the flag was at minting, so the result is
    the original session data exactly when that flag was [true]; at or
    after the expiry the token is rejected. *)
Theorem verify_mint_round_trip (now now' : Z) (data : SessionData) :
  ((now' < expiresAtMs now JWT_EXPIRES_IN)%Z ->
     verify now' (mint now data) = Some (withVerified data true) /\
     (verify now' (mint now data) = Some data <-> verified data = true)) /\
  ((expiresAtMs now JWT_EXPIRES_IN <= now')%Z ->
     verify now' (mint now data) = None).
Proof.
  rewrite verify_mint. split; intros H.
  - destruct (Z.leb_spec (expiresAtMs now JWT_EXPIRES_IN) now'); [lia|].
    split; [reflexivity|]. rewrite <- withVerified_id. split; congruence.
  - destruct (Z.leb_spec (expiresAtMs now JWT_EXPIRES_IN) now'); [reflexivity|lia].
Qed.

(** C10: whatever token [verifySecureToken] accepts, the session data it
    returns has [verified = true]; minting writes the role ["user"] and
    does not look at the [verified] flag; in particular the token of the
    reset flow, minted from [verified = false], decodes to
    [verified = true] until it expires. *)
Theorem verified_is_never_encoded :
  (forall (now : Z) (token : Token) (sd : SessionData),
     verify now token = Some sd -> verified sd = true) /\
  (forall (now : Z) (data : SessionData) (v : bool),
     role (claims (payload (mint now data))) = "user" /\
     mint now (withVerified data v) = mint now data) /\
  (forall (now now' : Z) (code name phone : string),
     (now' < expiresAtMs now JWT_EXPIRES_IN)%Z ->
     verify now' (mint now (resetFlowSession code name phone)) =
     Some (withVerified (resetFlowSession code name phone) true)).
Proof.
  split; [|split].
  - intros now token sd. unfold verifySecureToken.
    destruct (verifyAccessToken _ _ _ _); [|discriminate].
    now intros [= <-].
  - intros now data v. split; reflexivity.
  - intros now now' code name phone H. rewrite verify_mint.
    destruct (Z.leb_spec (expiresAtMs now JWT_EXPIRES_IN) now'); [lia|reflexivity].
Qed.

End Tokens.

Lemma verify_mint_round_trip_witness :
  let data := {| code := "X7K2M9"; name := "Ann";
                 whatsappNumber := "15551234567"; verified := true |} in
  let token := generateSecureToken exampleDigest "secret" 3600 0 data in
  (verifySecureToken exampleDigest "secret" 1000 token =
     Some (withVerified data true) /\
   (verifySecureToken exampleDigest "secret" 1000 token = Some data <->
    verified data = true)) /\
  verifySecureToken exampleDigest "secret" 3600000 token = None.
Proof.
  intros data token. split.
  - apply (proj1 (verify_mint_round_trip exampleDigest "secret" 3600 0 1000 data)).
    reflexivity.
  - apply (proj2 (verify_mint_round_trip exampleDigest "secret" 3600 0 3600000 data)).
    vm_compute. discriminate.
Defined.

(** C1 as stated fails: the session data of the reset flow, whose flag is
    [false], does not come back from its own token. *)
Lemma round_trip_loses_verified :
  let data := resetFlowSession "X7K2M9" "Ann" "15551234567" in
  ~ (forall (HS256 : string -> Header -> Claims -> list byte) (secret : string),
       verifySecureToken HS256 secret 1000
         (generateSecureToken HS256 secret 3600 0 data) = Some data).
Proof.
  intros data H. specialize (H exampleDigest "secret"). vm_compute in H.
  discriminate H.
Qed.

Lemma verified_is_never_encoded_witness :
  let data := resetFlowSession "X7K2M9" "Ann" "15551234567" in
  let token := generateSecureToken exampleDigest "secret" 3600 0 data in
  verified (withVerified data true) = true /\
  verifySecureToken exampleDigest "secret" 1000 token =
    Some (withVerified data true).
Proof.
  intros data token.
  pose proof (verified_is_never_encoded exampleDigest "secret" 3600) as (H1 & _ & H3).
  split.
  - apply (H1 1000%Z token). reflexivity.
  - apply (H3 0%Z 1000%Z). reflexivity.
Defined.

End TokenFacts.

(** ** Webhook signature check *)

Module WebhookSigFacts.
Import Chars Hex WebhookSig CharFacts CsrfFacts.

Lemma startsWith_app (p s : string) :
  startsWith s p = true <-> exists rest, s = p ++ rest.
Proof.
  unfold startsWith. revert s.
  induction p as [|a p IH]; intros s.
  - destruct s; cbn; (split; [intros _; eexists; reflexivity|reflexivity]).
  - destruct s as [|b s]; cbn [String.prefix].
    + split; [discriminate|]. intros (rest & H). discriminate H.
    + destruct (ascii_dec a b) as [->|Hab].
      * rewrite IH.
        split; intros (rest & H); exists rest;
          rewrite ?append_String in *; congruence.
      * split; [discriminate|]. intros (rest & H).
        rewrite append_String in H. congruence.
Qed.

Lemma append_cancel_l (p a b : string) : p ++ a = p ++ b -> a = b.
Proof.
  induction p as [|c p IH]; [easy|].
  rewrite !append_String. intros [= H]. auto.
Qed.

Lemma substringFrom_app (p rest : string) :
  substringFrom (String.length p) (p ++ rest) = rest.
Proof. induction p as [|a p IH]; [reflexivity|]. exact IH. Qed.

Lemma crypto_timingSafeEqual_true (a b : list byte) :
  match crypto_timingSafeEqual a b with Some v => v | None => false end = true
  <-> a = b.
Proof.
  unfold crypto_timingSafeEqual.
  destruct (Nat.eqb_spec (List.length a) (List.length b)) as [H|H]; cbn.
  - apply bool_decide_eq_true.
  - split; [discriminate|]. intros ->. now contradiction H.
Qed.

Section Hmac.

Variable hmacSha256 : string -> string -> list byte.

(** The detailed variant reports the validity that the plain one returns. *)
Lemma verifyWebhookSignatureDetailed_isValid
    (payload : string) (signature : option string) (secret : string) :
  isValid (verifyWebhookSignatureDetailed hmacSha256 payload signature secret) =
  verifyWebhookSignature hmacSha256 payload signature secret.
Proof.
  unfold verifyWebhookSignatureDetailed, verifyWebhookSignature.
  repeat (match goal with
          | |- context [if ?b then _ else _] => destruct b
          | |- context [match ?o with Some _ => _ | None => _ end] => destruct o
          end; try reflexivity).
Qed.

(** The signature computed from the digest itself is accepted. *)
Lemma verifyWebhookSignature_accepts (payload secret : string) :
  payload <> "" -> secret <> "" ->
  List.length (hmacSha256 secret payload) = 32%nat ->
  verifyWebhookSignature hmacSha256 payload
    (Some ("sha256=" ++ hexOfBytes (hmacSha256 secret payload))) secret = true.
Proof.
  intros Hp Hs Hlen. unfold verifyWebhookSignature.
  apply nonEmpty_true in Hp, Hs. rewrite Hp, Hs. cbn [negb].
  assert (Hsub : forall rest, substringFrom 7 ("sha256=" ++ rest) = rest)
    by reflexivity.
  assert (Hpre : forall rest, startsWith ("sha256=" ++ rest) "sha256=" = true)
    by (intros rest; apply startsWith_app; eauto).
  rewrite Hpre. cbn [negb]. cbv zeta. rewrite Hsub.
  assert (Hhex : isHex64 (hexOfBytes (hmacSha256 secret payload)) = true).
  { unfold isHex64. rewrite length_hexOfBytes, Hlen. cbn [Nat.mul Nat.add Nat.eqb andb].
    apply forallb_str_hexOfBytes. }
  rewrite Hhex. cbn [negb].
  now apply crypto_timingSafeEqual_true.
Qed.

(** C2: the check answers [true] exactly when the payload and the secret
    are non-empty and the signature is ["sha256="] followed by 64
    hexadecimal digits that decode to the HMAC-SHA-256 of the payload under
    the secret; every other input, a missing signature included, gives
    [false].  The detailed variant reports the same validity. *)
Theorem verifyWebhookSignature_spec
    (payload : string) (signature : option string) (secret : string) :
  (verifyWebhookSignature hmacSha256 payload signature secret = true <->
   payload <> "" /\ secret <> "" /\
   exists digest : string,
     signature = Some ("sha256=" ++ digest) /\
     String.length digest = 64%nat /\
     forallb_str isHex digest = true /\
     bytesOfHex digest = hmacSha256 secret payload) /\
  isValid (verifyWebhookSignatureDetailed hmacSha256 payload signature secret) =
    verifyWebhookSignature hmacSha256 payload signature secret.
Proof.
  split; [|apply verifyWebhookSignatureDetailed_isValid].
  unfold verifyWebhookSignature.
  destruct (nonEmpty payload) eqn:Hp; cbn [negb].
  2:{ split; [discriminate|]. intros (H & _). apply nonEmpty_true in H. congruence. }
  apply nonEmpty_true in Hp.
  destruct signature as [sig|].
  2:{ split; [discriminate|]. intros (_ & _ & d & H & _). discriminate H. }
  destruct (nonEmpty sig) eqn:Hs; cbn [negb].
  2:{ split; [discriminate|]. intros (_ & _ & d & [= ->] & _). discriminate Hs. }
  destruct (nonEmpty secret) eqn:Hk; cbn [negb].
  2:{ split; [discriminate|]. intros (_ & H & _). apply nonEmpty_true in H. congruence. }
  apply nonEmpty_true in Hk.
  destruct (startsWith sig "sha256=") eqn:Hpre; cbn [negb].
  2:{ split; [discriminate|]. intros (_ & _ & d & [= ->] & _).
      assert (startsWith ("sha256=" ++ d) "sha256=" = true) as E
        by (apply startsWith_app; eauto).
      congruence. }
  apply startsWith_app in Hpre as (rest & ->).
  cbv zeta.
  assert (Hsub : substringFrom 7 ("sha256=" ++ rest) = rest) by reflexivity.
  rewrite Hsub. clear Hsub.
  unfold isHex64.
  destruct (Nat.eqb_spec (String.length rest) 64) as [Hlen|Hlen]; cbn [andb negb].
  2:{ split; [discriminate|]. intros (_ & _ & d & [= E] & ? & _).
      apply append_cancel_l in E as ->. contradiction. }
  destruct (forallb_str isHex rest) eqn:Hhex; cbn [negb].
  2:{ split; [discriminate|]. intros (_ & _ & d & [= E] & _ & ? & _).
      apply append_cancel_l in E as ->. congruence. }
  rewrite crypto_timingSafeEqual_true, bytesOfHex_hexOfBytes.
  split.
  - intros H. repeat split; try assumption. exists rest. auto.
  - intros (_ & _ & d & [= E] & _ & _ & H).
    now apply append_cancel_l in E as ->.
Qed.

End Hmac.

Example signature_accepted :
  verifyWebhookSignature exampleHmac "{}"
    (Some ("sha256=" ++ hexOfBytes (exampleHmac "app-secret" "{}")))
    "app-secret" = true.
Proof. reflexivity. Qed.

Example signature_upper_case_accepted :
  verifyWebhookSignature exampleHmac "{}"
    (Some ("sha256=" ++ toUpperCase (hexOfBytes (exampleHmac "app-secret" "{}"))))
    "app-secret" = true.
Proof. reflexivity. Qed.

Example signature_missing_rejected :
  verifyWebhookSignature exampleHmac "{}" None "app-secret" = false.
Proof. reflexivity. Qed.

Example signature_wrong_digest_rejected :
  verifyWebhookSignature exampleHmac "{}"
    (Some ("sha256=" ++ hexOfBytes (exampleHmac "other-secret!" "{}")))
    "app-secret" = false.
Proof. reflexivity. Qed.

End WebhookSigFacts.

(** ** Rate limiter *)

Module RateLimitFacts.
Import RateLimit.

Lemma cleanup_lookup (now : Z) (store : gmap string RateLimitEntry) (k : string) :
  cleanupExpiredEntries now store !! k =
  match store !! k with
  | Some e => if (resetTime e <? now)%Z then None else Some e
  | None => None
  end.
Proof.
  unfold cleanupExpiredEntries. rewrite map_lookup_filter.
  destruct (store !! k) as [e|]; cbn; [|reflexivity].
  destruct (Z.ltb_spec (resetTime e) now).
  - now rewrite option_guard_False by (cbn; lia).
  - now rewrite option_guard_True by (cbn; lia).
Qed.

Section OneKey.

Variable config : Config.
Variable request : Request.

Local Abbreviation key := (keyGenerator config request).
Local Abbreviation N := (maxRequests config).
Local Abbreviation W := (windowMs config).
Local Abbreviation check := (checkRateLimitWith config request).

(** Case analysis on the comparisons of one call, with the arithmetic
    side conditions closed by [lia]. *)
Ltac check_cases :=
  unfold checkRateLimitWith; cbv zeta;
  repeat first
    [ rewrite cleanup_lookup
    | rewrite lookup_insert_eq
    | progress cbn [fst snd count resetTime]
    | match goal with
      | H : ?s !! ?k = Some _ |- context [?s !! ?k] => rewrite H
      | H : ?s !! ?k = None |- context [?s !! ?k] => rewrite H
      | |- context [(?a <? ?b)%Z] => destruct (Z.ltb_spec a b); try lia
      | |- context [(?a <=? ?b)%Z] => destruct (Z.leb_spec a b); try lia
      end ];
  auto.

(** First request of a key, or first request after its window has
    elapsed: the entry starts again at one. *)
Lemma check_fresh (now : Z) (store : gmap string RateLimitEntry) :
  match store !! key with
  | None => True
  | Some e => (resetTime e < now)%Z
  end ->
  (check now store).1 !! key =
    Some {| count := 1; resetTime := now + W; lastRequest := now |} /\
  (check now store).2 =
    {| allowed := true; remaining := N - 1;
       statusResetTime := now + W; retryAfter := None |}.
Proof.
  destruct (store !! key) as [e|] eqn:He; intros H; check_cases.
Qed.

(** A request inside the window of an entry that has reached the limit:
    denied, and the entry stays as it was. *)
Lemma check_limited (now : Z) (store : gmap string RateLimitEntry)
    (e : RateLimitEntry) :
  store !! key = Some e ->
  (now <= resetTime e)%Z ->
  (N <= count e)%Z ->
  (check now store).1 !! key = Some e /\
  (check now store).2 =
    {| allowed := false; remaining := 0; statusResetTime := resetTime e;
       retryAfter := Some (ceilSeconds (resetTime e - now)) |}.
Proof. intros He Hnow Hc. check_cases. Qed.

(** A request inside the window of an entry below the limit: allowed and
    counted. *)
Lemma check_counted (now : Z) (store : gmap string RateLimitEntry)
    (e : RateLimitEntry) :
  store !! key = Some e ->
  (now <= resetTime e)%Z ->
  (count e < N)%Z ->
  (check now store).1 !! key =
    Some {| count := count e + 1; resetTime := resetTime e; lastRequest := now |} /\
  (check now store).2 =
    {| allowed := true; remaining := N - (count e + 1);
       statusResetTime := resetTime e; retryAfter := None |}.
Proof. intros He Hnow Hc. check_cases. Qed.

(** A denied request never changes the entry of its key, whatever the
    store was. *)
Lemma check_denied_unchanged (now : Z) (store : gmap string RateLimitEntry) :
  allowed (check now store).2 = false ->
  (check now store).1 !! key = store !! key /\
  exists e, store !! key = Some e /\
    retryAfter (check now store).2 = Some (ceilSeconds (resetTime e - now)).
Proof.
  destruct (store !! key) as [e|] eqn:He.
  2:{ intros H. destruct (check_fresh now store) as [_ E]; [now rewrite He|].
      rewrite E in H. discriminate H. }
  destruct (Z.ltb_spec (resetTime e) now) as [Hexp|Hin].
  { intros H. destruct (check_fresh now store) as [_ E]; [now rewrite He|].
    rewrite E in H. discriminate H. }
  destruct (Z.leb_spec N (count e)) as [Hfull|Hbelow].
  - intros _. destruct (check_limited now store e He Hin Hfull) as [E1 E2].
    rewrite E1, E2. eauto.
  - intros H. destruct (check_counted now store e He Hin Hbelow) as [_ E].
    rewrite E in H. discriminate H.
Qed.

Lemma ceilSeconds_pos (x : Z) : (0 < x)%Z -> (0 < ceilSeconds x)%Z.
Proof.
  intros H. unfold ceilSeconds.
  assert ((- x) / 1000 < 0)%Z by (apply Z.div_lt_upper_bound; lia). lia.
Qed.

Lemma ceilSeconds_0 : ceilSeconds 0 = 0%Z.
Proof. reflexivity. Qed.

Lemma checkRateLimitAll_cons (now : Z) (times : list Z)
    (store : gmap string RateLimitEntry) :
  checkRateLimitAll config request (now :: times) store =
  ((checkRateLimitAll config request times (check now store).1).1,
   (check now store).2 ::
   (checkRateLimitAll config request times (check now store).1).2).
Proof.
  cbn [checkRateLimitAll].
  destruct (check now store) as [s1 st]. cbn [fst snd].
  now destruct (checkRateLimitAll config request times s1).
Qed.

(** Calls that all fall inside the window of an existing entry: the count
    climbs to the limit and stays there; a call is allowed exactly while
    the count it meets is below the limit. *)
Lemma run_in_window (R : Z) (times : list Z) :
  Forall (fun t => (t <= R)%Z) times ->
  forall (store : gmap string RateLimitEntry) (c l : Z),
    store !! key = Some {| count := c; resetTime := R; lastRequest := l |} ->
    (1 <= c <= N)%Z ->
    let r := checkRateLimitAll config request times store in
    (exists l', r.1 !! key =
       Some {| count := Z.min (c + Z.of_nat (List.length times)) N;
               resetTime := R; lastRequest := l' |}) /\
    (forall (i : nat) (st : RateLimitStatus) (t : Z),
       r.2 !! i = Some st -> times !! i = Some t ->
       ((c + Z.of_nat i < N)%Z -> allowed st = true) /\
       ((N <= c + Z.of_nat i)%Z ->
          allowed st = false /\
          retryAfter st = Some (ceilSeconds (R - t)))).
Proof.
  induction 1 as [|t times Ht _ IH]; intros store c l Hs Hc r.
  - subst r. cbn. split.
    + exists l. rewrite Hs. do 2 f_equal. lia.
    + intros i st t H. discriminate H.
  - subst r. rewrite checkRateLimitAll_cons. cbn [fst snd].
    destruct (Z.leb_spec N c) as [Hfull|Hbelow].
    + destruct (check_limited t store _ Hs Ht Hfull) as [E1 E2].
      cbn [count resetTime] in E2.
      destruct (IH _ c l E1 Hc) as [(l' & Hl') Hst]. split.
      * exists l'. rewrite Hl'. do 2 f_equal. cbn [List.length]. lia.
      * intros [|i] st u Hi Hu; cbn in Hi, Hu.
        -- injection Hi as <-. injection Hu as <-. rewrite E2. cbn.
           split; [lia|auto].
        -- destruct (Hst i st u Hi Hu) as [_ Hd]. split; [lia|].
           intros _. apply Hd. lia.
    + destruct (check_counted t store _ Hs Ht Hbelow) as [E1 E2].
      cbn [count resetTime] in E1, E2.
      destruct (IH _ (c + 1)%Z t E1 ltac:(lia)) as [(l' & Hl') Hst]. split.
      * exists l'. rewrite Hl'. do 2 f_equal. cbn [List.length]. lia.
      * intros [|i] st u Hi Hu; cbn in Hi, Hu.
        -- injection Hi as <-. injection Hu as <-. rewrite E2. cbn.
           split; [auto|lia].
        -- destruct (Hst i st u Hi Hu) as [Ha Hd]. split.
           ++ intros ?. apply Ha. lia.
           ++ intros ?. apply Hd. lia.
Qed.

(** C4, as the code has it.  From an empty store, with a limit [N >= 1],
    let a first call at [t0] open the window that resets at [t0 + W] and
    let every later call come no later than that instant.  Then the call
    number [i] (counting from zero) is allowed exactly when [i < N]; a
    denied call reports [retryAfter = ceil((t0 + W - t) / 1000)], which is
    positive when the call is strictly before the reset time and zero when
    it is exactly at it; the stored count is the number of calls capped at
    [N], so denied calls are not counted, and a denied call leaves the
    entry of its key as it was in any store; and a call after the reset
    time is allowed and restarts the entry at count one with a fresh
    window. *)
Theorem rate_limit_window (t0 : Z) (later : list Z) :
  (1 <= N)%Z ->
  Forall (fun t => (t <= t0 + W)%Z) later ->
  let times := t0 :: later in
  let r := checkRateLimitAll config request times ∅ in
  (forall (i : nat) (st : RateLimitStatus) (t : Z),
     r.2 !! i = Some st -> times !! i = Some t ->
     ((Z.of_nat i < N)%Z -> allowed st = true) /\
     ((N <= Z.of_nat i)%Z ->
        allowed st = false /\
        retryAfter st = Some (ceilSeconds (t0 + W - t)) /\
        ((t < t0 + W)%Z -> (0 < ceilSeconds (t0 + W - t))%Z) /\
        (t = (t0 + W)%Z -> ceilSeconds (t0 + W - t) = 0%Z))) /\
  (exists l, r.1 !! key =
     Some {| count := Z.min (Z.of_nat (List.length times)) N;
             resetTime := t0 + W; lastRequest := l |}) /\
  (forall (store : gmap string RateLimitEntry) (t : Z),
     allowed (check t store).2 = false ->
     (check t store).1 !! key = store !! key) /\
  (forall t' : Z, (t0 + W < t')%Z ->
     allowed (check t' r.1).2 = true /\
     (check t' r.1).1 !! key =
       Some {| count := 1; resetTime := t' + W; lastRequest := t' |}).
Proof.
  intros HN Hlater times r. subst times r.
  rewrite checkRateLimitAll_cons. cbn [fst snd].
  destruct (check_fresh t0 ∅) as [E1 E2]; [now rewrite lookup_empty|].
  destruct (run_in_window (t0 + W) later Hlater _ 1 t0 E1 ltac:(lia))
    as [(l' & Hl') Hst].
  split; [|split; [|split]].
  - intros [|i] st t Hi Ht; cbn in Hi, Ht.
    + injection Hi as <-. injection Ht as <-. rewrite E2. cbn.
      split; [auto|lia].
    + destruct (Hst i st t Hi Ht) as [Ha Hd]. split.
      * intros ?. apply Ha. lia.
      * intros ?. destruct Hd as [Hd1 Hd2]; [lia|].
        repeat split; auto.
        -- intros ?. apply ceilSeconds_pos. lia.
        -- intros ->. now rewrite Z.sub_diag.
  - exists l'. rewrite Hl'. do 2 f_equal. cbn [List.length]. lia.
  - intros store t H. now apply check_denied_unchanged.
  - intros t' Ht'.
    destruct (check_fresh t'
      (checkRateLimitAll config request later (check t0 ∅).1).1) as [F1 F2].
    + rewrite Hl'. cbn. lia.
    + rewrite F1, F2. auto.
Qed.

End OneKey.

(** Each of the four configured categories allows at least one request. *)
Lemma RATE_LIMITS_positive (limitType : LimitType) :
  (1 <= maxRequests (RATE_LIMITS limitType))%Z.
Proof. destruct limitType; cbn; lia. Qed.

Lemma rate_limit_window_witness :
  let config := RATE_LIMITS passwordReset in
  let r := checkRateLimitAll config exampleRequest [0; 1; 2; 3]%Z ∅ in
  map allowed r.2 = [true; true; false; false] /\
  map retryAfter r.2 = [None; None; Some 3600; Some 3600]%Z /\
  (exists l, r.1 !! keyGenerator config exampleRequest =
     Some {| count := 2; resetTime := 3600000; lastRequest := l |}) /\
  allowed (checkRateLimitWith config exampleRequest 3600001 r.1).2 = true.
Proof.
  intros config r.
  assert (Hlater : Forall (fun t => (t <= 0 + windowMs config)%Z) [1; 2; 3]%Z)
    by (repeat constructor; cbn; lia).
  destruct (rate_limit_window config exampleRequest 0 [1; 2; 3]%Z
              ltac:(cbn; lia) Hlater) as (_ & Hcount & _ & Hafter).
  split; [reflexivity|]. split; [reflexivity|]. split.
  - exact Hcount.
  - apply (Hafter 3600001%Z). cbn. lia.
Defined.

(** C4 as stated fails at the edge of the window: with the limit of two
    of the password-reset category, a third call at exactly the reset time
    is still denied, and its [retryAfter] is zero. *)
Lemma rate_limit_retryAfter_zero_at_reset :
  let config := RATE_LIMITS passwordReset in
  let r := checkRateLimitAll config exampleRequest [0; 1; 3600000]%Z ∅ in
  map allowed r.2 = [true; true; false] /\
  map retryAfter r.2 = [None; None; Some 0%Z].
Proof. vm_compute. split; reflexivity. Qed.

End RateLimitFacts.

(** ** Verification codes in message text *)

Module WhatsAppFacts.
Import Chars WhatsApp CharFacts.

Example extract_example_1 :
  extractVerificationCode "please VERIFY ab12c3 now" = Some "AB12C3".
Proof. reflexivity. Qed.

Example extract_example_2 : extractVerificationCode "PLEASE VERIFY" = None.
Proof. reflexivity. Qed.

Example extract_example_3 : extractVerificationCode "123456" = None.
Proof. reflexivity. Qed.

Example extract_example_4 : extractVerificationCode "code:ab12c3." = Some "AB12C3".
Proof. reflexivity. Qed.

Example extract_example_5 : firstWhitespaceDelimitedCode "code:ab12c3." = None.
Proof. reflexivity. Qed.

Example extract_example_6 : extractVerificationCode "ab12c3_ x-9z8y7w" = Some "9Z8Y7W".
Proof. reflexivity. Qed.

Example extract_example_7 : firstWordDelimitedCode "ab12c3_ x-9z8y7w" = Some "9Z8Y7W".
Proof. reflexivity. Qed.

(** *** The matches of the regular expression are the six-character
        alphanumeric runs among the maximal runs of word characters *)

Lemma matchHere_true (prev : option ascii) (s : string) :
  matchHere prev s = true <->
  wordBoundary prev (headOf s) = true /\
  isCode6 (slice0 6 s) = true /\
  wordBoundary (lastOf None (slice0 6 s)) (headOf (substringFrom 6 s)) = true.
Proof.
  unfold matchHere, isCode6. cbv zeta. rewrite !andb_true_iff. tauto.
Qed.

Lemma matchCodes_eq (prev : option ascii) (s : string) :
  matchCodes prev s =
  match s with
  | EmptyString => []
  | String c t =>
      if matchHere prev s
      then slice0 6 s ::
           matchCodes (lastOf None (slice0 6 s)) (substringFrom 6 s)
      else matchCodes (Some c) t
  end.
Proof.
  destruct s as [|c1 rest1]; [reflexivity|].
  cbn [matchCodes].
  destruct (matchHere prev (String c1 rest1)) eqn:E; [|reflexivity].
  apply matchHere_true in E as (_ & E & _).
  unfold isCode6 in E. apply andb_true_iff in E as [E _].
  apply Nat.eqb_eq in E.
  destruct rest1 as [|c2 [|c3 [|c4 [|c5 [|c6 rest6]]]]]; try discriminate E.
  reflexivity.
Qed.

Lemma slice0_substringFrom (n : nat) (s : string) :
  slice0 n s ++ substringFrom n s = s.
Proof.
  revert s. induction n as [|n IH]; intros [|c s]; cbn; try reflexivity.
  rewrite append_String. now rewrite IH.
Qed.

Lemma slice0_app (w s : string) : slice0 (String.length w) (w ++ s) = w.
Proof.
  induction w as [|c w IH]; cbn.
  - now destruct s.
  - rewrite append_String. cbn. now rewrite IH.
Qed.

Lemma substringFrom_length_app (w s : string) :
  substringFrom (String.length w) (w ++ s) = s.
Proof. induction w as [|c w IH]; [reflexivity|exact IH]. Qed.

Lemma length_substringFrom (n : nat) (s : string) :
  (String.length (substringFrom n s) <= String.length s)%nat.
Proof.
  revert s. induction n as [|n IH]; intros [|c s]; cbn; try lia.
  specialize (IH s). lia.
Qed.

Lemma isAlnum_isWord (c : ascii) : isAlnum c = true -> isWord c = true.
Proof. unfold isWord. now intros ->. Qed.

Lemma forallb_str_impl (p q : ascii -> bool) (s : string) :
  (forall c, p c = true -> q c = true) ->
  forallb_str p s = true -> forallb_str q s = true.
Proof.
  intros Hpq. induction s as [|c s IH]; cbn; [easy|].
  rewrite !andb_true_iff. intros [Hc Hs]. auto.
Qed.

Lemma forallb_str_lastOf (p : ascii -> bool) (s : string) (c : ascii) :
  p c = true -> forallb_str p s = true ->
  exists d, lastOf (Some c) s = Some d /\ p d = true.
Proof.
  revert c. induction s as [|x s IH]; intros c Hc; cbn.
  - eauto.
  - rewrite andb_true_iff. intros [Hx Hs]. eauto.
Qed.

(** The last code unit of a non-empty run of word characters is a word
    character. *)
Lemma lastOf_word (w : string) :
  nonEmpty w = true -> forallb_str isWord w = true ->
  isWordOpt (lastOf None w) = true.
Proof.
  destruct w as [|c w]; [discriminate|]. cbn.
  rewrite andb_true_iff. intros _ [Hc Hw].
  destruct (forallb_str_lastOf isWord w c Hc Hw) as (d & -> & Hd). exact Hd.
Qed.

Lemma isCode6_word (w : string) :
  isCode6 w = true ->
  String.length w = 6%nat /\ nonEmpty w = true /\ forallb_str isWord w = true.
Proof.
  unfold isCode6. rewrite andb_true_iff, Nat.eqb_eq. intros [Hlen Hw].
  repeat split; [exact Hlen| |].
  - destruct w; [discriminate Hlen|reflexivity].
  - revert Hw. apply forallb_str_impl, isAlnum_isWord.
Qed.

Lemma matchHere_head (prev : option ascii) (c : ascii) (t : string) :
  matchHere prev (String c t) = true ->
  isWord c = true /\ isWordOpt prev = false.
Proof.
  intros H. apply matchHere_true in H as (Hb & Hc & _).
  unfold isCode6 in Hc. cbn in Hc.
  rewrite !andb_true_iff in Hc. destruct Hc as [_ [Hc _]].
  apply isAlnum_isWord in Hc. split; [exact Hc|].
  unfold wordBoundary in Hb. cbn in Hb. rewrite Hc in Hb.
  now destruct (isWordOpt prev).
Qed.

(** What precedes a position that starts with a non-word character does
    not matter. *)
Lemma matchCodes_prev_irrelevant (prev prev' : option ascii) (s : string) :
  isWordOpt (headOf s) = false -> matchCodes prev s = matchCodes prev' s.
Proof.
  destruct s as [|c t]; [reflexivity|]. intros Hc. cbn in Hc.
  rewrite (matchCodes_eq prev), (matchCodes_eq prev').
  destruct (matchHere prev (String c t)) eqn:E1.
  { apply matchHere_head in E1 as [? _]. congruence. }
  destruct (matchHere prev' (String c t)) eqn:E2.
  { apply matchHere_head in E2 as [? _]. congruence. }
  reflexivity.
Qed.

(** Inside a run of word characters nothing matches. *)
Lemma matchCodes_inside (u : string) : forall (p : ascii) (s' : string),
  isWord p = true ->
  forallb_str isWord u = true ->
  isWordOpt (headOf s') = false ->
  matchCodes (Some p) (u ++ s') = matchCodes None s'.
Proof.
  induction u as [|c u IH]; intros p s' Hp Hu Hs'.
  - rewrite append_Empty. now apply matchCodes_prev_irrelevant.
  - cbn in Hu. apply andb_true_iff in Hu as [Hc Hu].
    rewrite append_String, matchCodes_eq.
    destruct (matchHere (Some p) (String c (u ++ s'))) eqn:E.
    { apply matchHere_head in E as [_ E]. cbn in E. congruence. }
    now apply IH.
Qed.

Lemma append_assoc (a b c : string) : (a ++ b) ++ c = a ++ (b ++ c).
Proof.
  induction a as [|x a IH]; [reflexivity|]. now rewrite !append_String, IH.
Qed.

(** A run of word characters followed by a non-word character or by the
    end of the input is emitted whole. *)
Lemma runsFrom_word_app (w : string) : forall (cur s' : string),
  forallb_str isWord w = true ->
  isWordOpt (headOf s') = false ->
  runsFrom isWord cur (w ++ s') =
  (emitRun (cur ++ w) ++ runsFrom isWord "" s')%list.
Proof.
  induction w as [|c w IH]; intros cur s' Hw Hs'.
  - rewrite append_Empty, append_Empty_r_str.
    destruct s' as [|d t]; cbn.
    + now rewrite app_nil_r.
    + cbn in Hs'. now rewrite Hs'.
  - cbn in Hw. apply andb_true_iff in Hw as [Hc Hw].
    rewrite append_String. cbn [runsFrom]. rewrite Hc.
    rewrite IH by assumption. now rewrite append_assoc.
Qed.

(** Every string starts with a (possibly empty) run of word characters
    that ends at a non-word character or at the end of the input. *)
Lemma word_prefix_split (s : string) :
  exists w s', s = w ++ s' /\ forallb_str isWord w = true /\
               isWordOpt (headOf s') = false.
Proof.
  induction s as [|c s (w & s' & -> & Hw & Hs')].
  - exists "", "". auto.
  - destruct (isWord c) eqn:Hc.
    + exists (String c w), s'. cbn. rewrite Hc. auto.
    + exists "", (String c (w ++ s')). cbn. auto.
Qed.

Lemma matchHere_code6 (prev : option ascii) (w s' : string) :
  isWordOpt prev = false ->
  isCode6 w = true ->
  isWordOpt (headOf s') = false ->
  matchHere prev (w ++ s') = true.
Proof.
  intros Hprev Hw Hs'.
  destruct (isCode6_word w Hw) as (Hlen & Hne & Hword).
  apply matchHere_true. rewrite <- Hlen.
  rewrite slice0_app, substringFrom_length_app.
  repeat split; [|exact Hw|].
  - unfold wordBoundary. rewrite Hprev.
    destruct w as [|c w]; [discriminate|]. rewrite append_String.
    cbn in Hword |- *.
    apply andb_true_iff in Hword as [-> _]. reflexivity.
  - unfold wordBoundary. now rewrite lastOf_word, Hs'.
Qed.

(** The matches found from a position that is not inside a word are the
    six-character alphanumeric runs among the maximal word runs. *)
Lemma matchCodes_runs (n : nat) : forall (s : string) (prev : option ascii),
  (String.length s <= n)%nat ->
  isWordOpt prev = false \/ isWordOpt (headOf s) = false ->
  matchCodes prev s = List.filter isCode6 (runsFrom isWord "" s).
Proof.
  induction n as [|n IH]; intros s prev Hlen Hb.
  { destruct s; [reflexivity|cbn in Hlen; lia]. }
  destruct s as [|c t]; [reflexivity|].
  rewrite matchCodes_eq.
  destruct (matchHere prev (String c t)) eqn:E.
  - (* a match: the next six code units are a whole run *)
    pose proof E as E'. apply matchHere_true in E' as (_ & Hcode & Hafter).
    destruct (isCode6_word _ Hcode) as (Hl6 & Hne & Hword).
    unfold wordBoundary in Hafter. rewrite lastOf_word in Hafter by assumption.
    apply negb_true_iff in Hafter.
    replace (runsFrom isWord "" (String c t))
      with (runsFrom isWord ""
              (slice0 6 (String c t) ++ substringFrom 6 (String c t)))
      by now rewrite slice0_substringFrom.
    rewrite runsFrom_word_app by assumption.
    rewrite append_Empty. unfold emitRun. rewrite Hne.
    cbn [app List.filter]. rewrite Hcode. f_equal.
    apply IH; [|now right].
    pose proof (slice0_substringFrom 6 (String c t)) as Hs.
    apply (f_equal String.length) in Hs.
    rewrite length_append, Hl6 in Hs. cbn [String.length] in Hs, Hlen. lia.
  - destruct (isWord c) eqn:Hc.
    + (* a word run that is not a code: skipped whole *)
      destruct Hb as [Hprev|Hb]; [|cbn in Hb; congruence].
      destruct (word_prefix_split t) as (w & s' & -> & Hw & Hs').
      assert (Hrun : forallb_str isWord (String c w) = true)
        by (cbn; now rewrite Hc, Hw).
      rewrite matchCodes_inside by assumption.
      rewrite <- append_String.
      rewrite runsFrom_word_app by assumption.
      rewrite append_Empty. unfold emitRun. cbn [nonEmpty app List.filter].
      destruct (isCode6 (String c w)) eqn:Hcode.
      { rewrite <- append_String in E.
        rewrite matchHere_code6 in E by assumption. discriminate E. }
      apply IH; [|now right].
      cbn [String.length] in Hlen. rewrite length_append in Hlen. lia.
    + (* a non-word character *)
      cbn [runsFrom]. rewrite Hc. cbn [emitRun nonEmpty app].
      apply IH; [cbn in Hlen; lia|]. left. cbn. exact Hc.
Qed.

(** C5, as the code has it: the result is the first run of exactly six
    letters and digits, among the maximal runs of word characters (letters,
    digits, underscore) of the message, that has both a letter and a digit,
    in upper case, and no match when there is none; runs are delimited by
    word boundaries, of which whitespace is only one kind.  The three
    inputs named in the specification give the stated results. *)
Theorem extractVerificationCode_spec :
  (forall message : string,
     extractVerificationCode message = firstWordDelimitedCode message) /\
  extractVerificationCode "please VERIFY ab12c3 now" = Some "AB12C3" /\
  extractVerificationCode "PLEASE VERIFY" = None /\
  extractVerificationCode "123456" = None.
Proof.
  split; [|repeat split; reflexivity].
  intros message. unfold extractVerificationCode, firstWordDelimitedCode,
    firstCodeAmong. cbv zeta.
  rewrite (matchCodes_runs (String.length message)); auto.
Qed.

(** C5 as stated fails: a code that follows a colon is found although no
    whitespace-delimited six-character run exists in the message. *)
Lemma extractVerificationCode_not_whitespace_delimited :
  extractVerificationCode "code:ab12c3." = Some "AB12C3" /\
  firstWhitespaceDelimitedCode "code:ab12c3." = None.
Proof. split; reflexivity. Qed.

End WhatsAppFacts.

(** ** Verification-code generation *)

Module UtilsFacts.
Import Chars Utils CharFacts.

Lemma get_forallb_str (p : ascii -> bool) (s : string) :
  forallb_str p s = true ->
  forall (n : nat) (c : ascii), String.get n s = Some c -> p c = true.
Proof.
  induction s as [|x s IH]; cbn; intros H n c Hn; [discriminate Hn|].
  apply andb_true_iff in H as [Hx Hs].
  destruct n as [|n]; [now injection Hn as <-|eauto].
Qed.

Lemma forallb_str_app (p : ascii -> bool) (a b : string) :
  forallb_str p (a ++ b) = forallb_str p a && forallb_str p b.
Proof.
  induction a as [|x a IH]; [reflexivity|].
  rewrite append_String. cbn. now rewrite IH, andb_assoc.
Qed.

(** A byte contributes nothing or one character of the alphabet. *)
Lemma alphabetAt_cases (i : N) :
  alphabetAt i = "" \/
  exists c, alphabetAt i = String c "" /\ inAlphabet c = true.
Proof.
  unfold alphabetAt.
  destruct (String.get (N.to_nat i) alphabet) as [c|] eqn:E; [right|now left].
  exists c. split; [reflexivity|].
  now apply (get_forallb_str inAlphabet alphabet eq_refl (N.to_nat i)).
Qed.

(** The inner loop keeps the identifier inside the alphabet and never
    lets it grow past [size]. *)
Lemma fill_invariant (size : nat) (bytes : list byte) : forall id : string,
  forallb_str inAlphabet id = true ->
  (String.length id < size)%nat ->
  let r := fill size id bytes in
  forallb_str inAlphabet r.1 = true /\
  (if r.2 then String.length r.1 = size else (String.length r.1 < size)%nat).
Proof.
  induction bytes as [|b bytes IH]; intros id Hid Hlen; cbn.
  - auto.
  - destruct (alphabetAt_cases (N.land (Byte.to_N b) mask)) as [->|(c & -> & Hc)].
    + rewrite append_Empty_r_str.
      destruct (Nat.eqb_spec (String.length id) size); [lia|]. now apply IH.
    + destruct (Nat.eqb_spec (String.length (id ++ String c "")) size) as [E|E].
      * cbn. rewrite forallb_str_app, Hid. cbn. now rewrite Hc.
      * apply IH.
        -- rewrite forallb_str_app, Hid. cbn. now rewrite Hc.
        -- rewrite length_append in *. cbn in *. lia.
Qed.

Lemma customRandom_invariant (size : nat) (pools : list (nat -> byte)) :
  forall id code : string,
    forallb_str inAlphabet id = true ->
    (String.length id < size)%nat ->
    customRandom size id pools = Some code ->
    String.length code = size /\ forallb_str inAlphabet code = true.
Proof.
  induction pools as [|bytes pools IH]; intros id code Hid Hlen; cbn [customRandom].
  - discriminate.
  - pose proof (fill_invariant size (map bytes (rev (seq 0 step))) id Hid Hlen)
      as [Ha Hl].
    destruct (fill size id (map bytes (rev (seq 0 step)))) as [id' [|]];
      cbn [fst snd] in Ha, Hl.
    + intros [= <-]. auto.
    + now apply IH.
Qed.

(** The part of C7 that holds: every code that is returned has six
    characters, all of them out of [A-Z0-9]. *)
Lemma generateVerificationCode_alphabet (pools : list (nat -> byte)) (code : string) :
  generateVerificationCode pools = Some code ->
  String.length code = 6%nat /\ forallb_str inAlphabet code = true.
Proof. apply customRandom_invariant; [reflexivity|cbn; lia]. Qed.

Lemma alphabetAt_accepted (b : byte) :
  accepted b = true ->
  exists c, alphabetAt (N.land (Byte.to_N b) mask) = String c "".
Proof.
  unfold accepted. intros H. apply N.ltb_lt in H.
  set (i := N.land (Byte.to_N b) mask) in *.
  assert (Hcases : In i (map N.of_nat (seq 0 36))).
  { apply in_map_iff. exists (N.to_nat i). split; [lia|]. apply in_seq. lia. }
  cbn in Hcases.
  repeat (destruct Hcases as [<- | Hcases]; [eexists; reflexivity|]).
  destruct Hcases.
Qed.

(** Enough accepted bytes complete the identifier: the inner loop stops
    with a result. *)
Lemma fill_enough (size : nat) (bytes : list byte) : forall id : string,
  (String.length id < size)%nat ->
  (size - String.length id <= List.length (List.filter accepted bytes))%nat ->
  (fill size id bytes).2 = true.
Proof.
  induction bytes as [|b bytes IH]; intros id Hlen Hn; cbn in *; [lia|].
  destruct (accepted b) eqn:Hb.
  - destruct (alphabetAt_accepted b Hb) as (c & ->).
    destruct (Nat.eqb_spec (String.length (id ++ String c "")) size) as [E|E];
      [reflexivity|].
    rewrite length_append in E. cbn in E, Hn.
    apply IH; rewrite length_append; cbn; lia.
  - destruct (alphabetAt_cases (N.land (Byte.to_N b) mask)) as [->|(c & -> & _)].
    + rewrite append_Empty_r_str.
      destruct (Nat.eqb_spec (String.length id) size); [lia|]. now apply IH.
    + destruct (Nat.eqb_spec (String.length (id ++ String c "")) size) as [E|E];
        [reflexivity|].
      rewrite length_append in E. cbn in E.
      apply IH; rewrite length_append; cbn; lia.
Qed.

(** A first pool with at least six accepted bytes yields a code. *)
Lemma generateVerificationCode_returns (bytes : nat -> byte)
    (pools : list (nat -> byte)) :
  (6 <= List.length (List.filter accepted (map bytes (rev (seq 0 step)))))%nat ->
  exists code, generateVerificationCode (bytes :: pools) = Some code.
Proof.
  intros H. unfold generateVerificationCode. cbn [customRandom].
  pose proof (fill_enough 6 (map bytes (rev (seq 0 step))) ""
                ltac:(cbn; lia) ltac:(cbn [String.length]; lia)) as Hdone.
  destruct (fill 6 "" (map bytes (rev (seq 0 step)))) as [id' flag].
  cbn in Hdone. subst flag. eauto.
Qed.

(** C7 fails on the code: when every random byte is zero the generator
    returns ["AAAAAA"], which has no digit; the validator of the webhook
    rejects that code and the extractor never finds it in a message, so it
    cannot be verified. *)
Theorem generateVerificationCode_letters_only :
  generateVerificationCode [fun _ => x00] = Some "AAAAAA" /\
  wellFormedCode "AAAAAA" = false /\
  Security.validateVerificationCode "AAAAAA" = None /\
  WhatsApp.extractVerificationCode "AAAAAA" = None.
Proof. repeat split; reflexivity. Qed.

End UtilsFacts.

(** ** Input sanitising and password rules *)

Module SanitizeFacts.
Import Chars Sanitize AuthUtils.

(** Fuel beyond the length of the input changes nothing, as long as a
    match is never empty: the fuel of [replaceAll] is enough. *)
Lemma removeMatches_fuel (matchAt : string -> option nat) :
  (forall s n, matchAt s = Some n -> (1 <= n)%nat) ->
  forall (fuel fuel' : nat) (s : string),
    (String.length s <= fuel)%nat -> (String.length s <= fuel')%nat ->
    removeMatches fuel matchAt s = removeMatches fuel' matchAt s.
Proof.
  intros Hpos. induction fuel as [|fuel IH]; intros fuel' s Hf Hf'.
  - destruct s; [|cbn in Hf; lia]. now destruct fuel'.
  - destruct s as [|c t]; [now destruct fuel'|].
    destruct fuel' as [|fuel']; [cbn in Hf'; lia|].
    cbn [removeMatches].
    destruct (matchAt (String c t)) as [n|] eqn:E.
    + specialize (Hpos _ _ E). destruct n as [|n]; [lia|].
      cbn [substringFrom].
      pose proof (WhatsAppFacts.length_substringFrom n t).
      cbn in Hf, Hf'. apply IH; lia.
    + f_equal. cbn in Hf, Hf'. apply IH; lia.
Qed.

Lemma matchers_positive :
  (forall s n, matchScript s = Some n -> (1 <= n)%nat) /\
  (forall s n, matchTag s = Some n -> (1 <= n)%nat) /\
  (forall s n, matchJavascript s = Some n -> (1 <= n)%nat) /\
  (forall s n, matchHandler s = Some n -> (1 <= n)%nat).
Proof.
  repeat split; intros s n.
  - unfold matchScript. destruct (_ && _); [|discriminate].
    destruct (indexOfCI _ _); [|discriminate]. intros [= <-]. lia.
  - unfold matchTag. destruct s as [|c t]; [discriminate|].
    destruct (Ascii.eqb c "<"); [|discriminate].
    destruct (indexOfChar _ _); [|discriminate]. cbn. intros [= <-]. lia.
  - unfold matchJavascript. destruct (startsWithCI _ _); [|discriminate].
    intros [= <-]. lia.
  - unfold matchHandler. destruct (startsWithCI _ _); [|discriminate].
    cbv zeta. destruct (_ =? _)%nat; [discriminate|].
    destruct (headIs _ _); [|discriminate]. intros [= <-]. lia.
Qed.

Example sanitize_plain_code : sanitizeUserInput "X7K2M9" = "X7K2M9".
Proof. reflexivity. Qed.

Example sanitize_script :
  sanitizeUserInput "  a<script>alert(1)</SCRIPT>b <b>c</b> onclick = x javascript:y  "
  = "ab c  x y".
Proof. reflexivity. Qed.

Example sanitize_unclosed : sanitizeUserInput "1 < 2 and on =" = "1 < 2 and on =".
Proof. reflexivity. Qed.

Example validatePassword_ok : isValid (validatePassword "abc123") = true.
Proof. reflexivity. Qed.

Example validatePassword_errors :
  errors (validatePassword "1111") =
  ["Password must be at least 6 characters long";
   "Password must contain at least one letter";
   "Password cannot contain more than 3 repeated characters"].
Proof. reflexivity. Qed.

End SanitizeFacts.

(** ** Setting a password *)

Module SetPasswordFacts.
Import Chars Hex Jwt SecureAuth Store Errors SetPassword CharFacts.

Lemma single_inl {A : Type} (rows : list A) (row : A) :
  single rows = inl row -> rows = [row].
Proof.
  destruct rows as [|r [|r' rows]]; cbn; try discriminate. now intros [= ->].
Qed.

Section Route.

Variable HS256 : string -> Header -> Claims -> list byte.
Variable JWT_SECRET : string.
Variable JWT_EXPIRES_IN : Z.
Variable hashPassword : string -> string.

Local Abbreviation POST := (POST HS256 JWT_SECRET JWT_EXPIRES_IN hashPassword).


End Route.



End SetPasswordFacts.

(** ** The webhook handler and the de-duplication of deliveries *)

Module WebhookFacts.
Import Chars Store Errors Webhook.

Lemma send_processedMessages (outcome : Outcome) (to : string) (reply : Reply)
    (st : State) (k : State -> State * Response) :
  (forall st', processedMessages (k st').1 = processedMessages st') ->
  processedMessages (send outcome to reply st k).1 = processedMessages st.
Proof.
  intros Hk. unfold send. destruct (sendFails outcome); [reflexivity|].
  now rewrite Hk.
Qed.

(** Handling a message leaves the set of processed identifiers alone. *)
Lemma processMessage_processedMessages (now : Z) (outcome : Outcome)
    (message : Message) (st : State) :
  processedMessages (processMessage now outcome message st).1 =
  processedMessages st.
Proof.
  unfold processMessage.
  repeat match goal with
         | |- context [match ?x with _ => _ end] => destruct x
         end;
    try reflexivity; now rewrite send_processedMessages.
Qed.

Lemma send_journal (outcome : Outcome) (to : string) (reply : Reply)
    (st : State) (k : State -> State * Response) :
  (forall st', journal (k st').1 = journal st') ->
  journal (send outcome to reply st k).1 = journal st.
Proof.
  intros Hk. unfold send. destruct (sendFails outcome); [reflexivity|].
  now rewrite Hk.
Qed.

Lemma send_response (outcome : Outcome) (to : string) (reply : Reply)
    (st : State) :
  sendFails outcome = false ->
  (send outcome to reply st (fun st' => (st', Success None))).2 = Success None.
Proof. intros H. unfold send. now rewrite H. Qed.

(** Handling a message executes at most one update, and exactly one when
    the text carries a code with a single unexpired record that is not yet
    verified and the store accepts the update. *)
Lemma processMessage_journal (now : Z) (outcome : Outcome)
    (message : Message) (st : State) :
  let st' := (processMessage now outcome message st).1 in
  (journal st' = journal st \/ exists code, journal st' = (journal st ++ [code])%list) /\
  (forall extractedCode code row,
     WhatsApp.extractVerificationCode (text message) = Some extractedCode ->
     Security.validateVerificationCode extractedCode = Some code ->
     single (List.filter
               (fun row => (vc_code row =? code)%string &&
                           (now <? vc_expires_at row)%Z)
               (verification_codes st)) = inl row ->
     vc_verified row = false ->
     updateFails outcome = false ->
     journal st' = (journal st ++ [code])%list).
Proof.
  unfold processMessage. split.
  - repeat match goal with
           | |- context [match ?x with _ => _ end] => destruct x
           end;
      try (left; reflexivity);
      try (left; now rewrite send_journal);
      right; eexists; now rewrite send_journal.
  - intros extractedCode code row -> -> -> -> ->. now rewrite send_journal.
Qed.

Lemma processMessage_response (now : Z) (outcome : Outcome)
    (message : Message) (st : State) :
  sendFails outcome = false ->
  (processMessage now outcome message st).2 = Success None.
Proof.
  intros H. unfold processMessage.
  repeat match goal with
         | |- context [match ?x with _ => _ end] => destruct x
         end;
    try reflexivity; now apply send_response.
Qed.

Section Handler.

Variable hmacSha256 : string -> string -> list byte.
Variable appSecret : option string.

Local Abbreviation POST := (POST hmacSha256 appSecret).
Local Abbreviation run := (run hmacSha256 appSecret).
Local Abbreviation authenticated := (authenticated hmacSha256 appSecret).

(** An authenticated delivery reaches the guard: the handler is the part
    behind the three gates. *)
Lemma POST_authenticated (now : Z) (outcome : Outcome) (request : Request)
    (message : Message) (st : State) :
  authenticated request message ->
  POST now outcome request st =
  if bool_decide (is_Some (processedMessages st !! id message)) then
    (st, Success (Some "Duplicate ignored"))
  else
    let phoneRateLimit := default 0%Z (messageRateLimit st !! from message) in
    let limited :=
      (0 <? phoneRateLimit)%Z && (now - phoneRateLimit <? RATE_LIMIT_WINDOW)%Z in
    let messageCount :=
      default 0%Z (messageRateLimit st !! (from message ++ "_count")) in
    if limited && (MAX_MESSAGES_PER_MINUTE <=? messageCount)%Z then
      (st, Success (Some "Rate limited"))
    else
      processMessage now outcome message
        {| processedMessages := <[id message := now]> (processedMessages st);
           messageRateLimit :=
             if limited then
               <[from message ++ "_count" := (messageCount + 1)%Z]>
                 (messageRateLimit st)
             else
               <[from message ++ "_count" := 1%Z]>
                 (<[from message := now]> (messageRateLimit st));
           verification_codes := verification_codes st;
           journal := journal st;
           outbox := outbox st |}.
Proof.
  intros (Hsec & (secret & -> & Hsig) & Hbody).
  unfold Webhook.POST. now rewrite Hsec, Hsig, Hbody.
Qed.

(** No delivery, of whatever request, removes or re-stamps a recorded
    identifier. *)
Lemma POST_keeps_processed (now : Z) (outcome : Outcome) (request : Request)
    (st : State) (k : string) (since : Z) :
  processedMessages st !! k = Some since ->
  processedMessages (POST now outcome request st).1 !! k = Some since.
Proof.
  intros Hk. unfold Webhook.POST.
  destruct (validateWebhookSecurity request); [|exact Hk]. cbn [negb].
  destruct appSecret as [secret|]; [|exact Hk]. cbv zeta.
  destruct (WebhookSig.isValid _); [|exact Hk]. cbn [negb].
  destruct (parsedBody request) as [[| |message]|]; try exact Hk.
  case_bool_decide as Hdup; [exact Hk|].
  destruct (_ && _); [exact Hk|].
  rewrite processMessage_processedMessages. cbn [processedMessages].
  rewrite lookup_insert_ne; [exact Hk|].
  intros E. apply Hdup. rewrite E, Hk. eauto.
Qed.

Lemma cleanup_keeps_processed (now : Z) (st : State) (k : string) (since : Z) :
  processedMessages st !! k = Some since ->
  (now - 5 * 60 * 1000 <= since)%Z ->
  processedMessages (cleanup now st) !! k = Some since.
Proof.
  intros Hk Hwithin. unfold cleanup. cbn [processedMessages].
  apply map_lookup_filter_Some. split; [exact Hk|]. cbn. lia.
Qed.

(** A recorded identifier stays recorded through any deliveries and
    through the sweeps of its retention window. *)
Lemma run_keeps_processed (events : list Event) (k : string) (since : Z) :
  Forall (withinRetention since) events ->
  forall st : State,
    processedMessages st !! k = Some since ->
    processedMessages (run events st) !! k = Some since.
Proof.
  induction 1 as [|e events He _ IH]; intros st Hk; [exact Hk|].
  cbn. apply IH. destruct e as [now outcome request|now]; cbn.
  - now apply POST_keeps_processed.
  - now apply cleanup_keeps_processed.
Qed.

(** C8, as the code has it.  Let an authenticated delivery carry a message
    identifier that is not yet recorded, and let the handler not answer
    ["Rate limited"].  Then the identifier is recorded; the delivery
    executes at most one update of the store, exactly one when its text
    carries a code with a single unexpired, unverified record and the store
    accepts the update; it is acknowledged with success unless the send
    call fails.  After any further deliveries and any sweeps that fall
    within five minutes of the first delivery, a second authenticated
    delivery with the same message identifier is answered
    ["Duplicate ignored"] with success and leaves the whole state, store
    included, as it was. *)
Theorem duplicate_delivery_short_circuited
    (request request2 : Request) (message message2 : Message) (st : State)
    (now1 now2 : Z) (outcome1 outcome2 : Outcome) (events : list Event) :
  authenticated request message ->
  authenticated request2 message2 ->
  id message2 = id message ->
  processedMessages st !! id message = None ->
  (POST now1 outcome1 request st).2 <> Success (Some "Rate limited") ->
  Forall (withinRetention now1) events ->
  let st1 := (POST now1 outcome1 request st).1 in
  let st2 := run events st1 in
  processedMessages st1 !! id message = Some now1 /\
  (journal st1 = journal st \/ exists code, journal st1 = (journal st ++ [code])%list) /\
  (forall extractedCode code row,
     WhatsApp.extractVerificationCode (text message) = Some extractedCode ->
     Security.validateVerificationCode extractedCode = Some code ->
     single (List.filter
               (fun row => (vc_code row =? code)%string &&
                           (now1 <? vc_expires_at row)%Z)
               (verification_codes st)) = inl row ->
     vc_verified row = false ->
     updateFails outcome1 = false ->
     journal st1 = (journal st ++ [code])%list) /\
  (sendFails outcome1 = false ->
     (POST now1 outcome1 request st).2 = Success None) /\
  POST now2 outcome2 request2 st2 = (st2, Success (Some "Duplicate ignored")).
Proof.
  intros Hauth Hauth2 Hid Hnew Hlimit Hevents st1 st2. subst st1 st2.
  rewrite (POST_authenticated now1 outcome1 request message st Hauth) in *.
  rewrite bool_decide_eq_false_2 in * by (rewrite Hnew; now intros [? ?]).
  cbv zeta in *.
  destruct (_ && (MAX_MESSAGES_PER_MINUTE <=? _)%Z); [now contradiction Hlimit|].
  set (stm := {| processedMessages := _ |}) in *.
  assert (Hrec : processedMessages (processMessage now1 outcome1 message stm).1
                   !! id message = Some now1).
  { rewrite processMessage_processedMessages. apply lookup_insert_eq. }
  split; [exact Hrec|].
  destruct (processMessage_journal now1 outcome1 message stm) as [Hj1 Hj2].
  split; [exact Hj1|]. split; [exact Hj2|].
  split; [now apply processMessage_response|].
  rewrite (POST_authenticated now2 outcome2 request2 message2 _ Hauth2).
  rewrite bool_decide_eq_true_2; [reflexivity|].
  rewrite Hid.
  rewrite (run_keeps_processed events (id message) now1 Hevents _ Hrec). eauto.
Qed.

End Handler.

Lemma duplicate_delivery_short_circuited_witness :
  let request := exampleDelivery "raw-code" codeMessage in
  let POST := POST WebhookSig.exampleHmac (Some exampleSecret) in
  let st1 := (POST 1000%Z calm request exampleState).1 in
  let st2 := run WebhookSig.exampleHmac (Some exampleSecret)
               ([Sweep 200000] ++ fiveChats) st1 in
  journal st1 = ["X7K2M9"] /\
  (POST 1000%Z calm request exampleState).2 = Success None /\
  POST 250000%Z calm request st2 = (st2, Success (Some "Duplicate ignored")).
Proof.
  intros request POST st1 st2.
  assert (Hauth : authenticated WebhookSig.exampleHmac (Some exampleSecret)
                    request codeMessage).
  { split; [reflexivity|]. split; [|reflexivity].
    exists exampleSecret. split; reflexivity. }
  assert (Hevents : Forall (withinRetention 1000) ([Sweep 200000] ++ fiveChats))
    by (repeat constructor; cbn; lia).
  destruct (duplicate_delivery_short_circuited WebhookSig.exampleHmac
              (Some exampleSecret) request request codeMessage codeMessage
              exampleState 1000 250000 calm calm _ Hauth Hauth eq_refl eq_refl
              ltac:(vm_compute; discriminate) Hevents)
    as (_ & _ & Hone & Hack & Hdup).
  split; [|split].
  - apply (Hone "X7K2M9" "X7K2M9"
             {| vc_code := "X7K2M9"; vc_name := "Ann";
                vc_whatsapp_number := "15551234567"; vc_verified := false;
                vc_expires_at := 600000; vc_verified_at := None |});
      reflexivity.
  - apply Hack. reflexivity.
  - exact Hdup.
Defined.

(** C8 as stated fails.  A delivery stopped by the per-sender limit is not
    recorded, so its repetition a minute later is not short-circuited and
    performs the update itself; and a message without a code, delivered
    twice, causes no update at all. *)
Lemma rate_limited_delivery_not_recorded :
  let POST := POST WebhookSig.exampleHmac (Some exampleSecret) in
  let request := exampleDelivery "raw-code" codeMessage in
  let busy := run WebhookSig.exampleHmac (Some exampleSecret) fiveChats
                exampleState in
  let first := POST 10000%Z calm request busy in
  let second := POST 70000%Z calm request first.1 in
  let hello := exampleDelivery "raw-1" (chat "1") in
  let hello1 := POST 1000%Z calm hello exampleState in
  let hello2 := POST 2000%Z calm hello hello1.1 in
  (first.2 = Success (Some "Rate limited") /\
   journal first.1 = [] /\
   processedMessages first.1 !! id codeMessage = None /\
   second.2 = Success None /\
   journal second.1 = ["X7K2M9"]) /\
  (hello1.2 = Success None /\
   hello2.2 = Success (Some "Duplicate ignored") /\
   journal hello2.1 = []).
Proof. vm_compute. repeat split. Qed.

End WebhookFacts.

(** * Further properties of the code *)

(** ** Validators *)

Module ValidationFacts.
Import Chars Sanitize Validation CharFacts.

Example validateName_apostrophe : validateName "O'Brien" = Valid "OBrien".
Proof. reflexivity. Qed.

Example validatePhoneNumber_example :
  validatePhoneNumber "+1 (555) 123-4567" = Valid "15551234567".
Proof. reflexivity. Qed.

Lemma digitsOf_digits (s : string) : forallb_str isDigit (digitsOf s) = true.
Proof.
  induction s as [|c s IH]; [reflexivity|]. cbn.
  destruct (isDigit c) eqn:E; [cbn; now rewrite E|exact IH].
Qed.

Lemma digitsOf_id (s : string) : forallb_str isDigit s = true -> digitsOf s = s.
Proof.
  induction s as [|c s IH]; [reflexivity|]. cbn.
  rewrite andb_true_iff. intros [-> Hs]. now rewrite IH.
Qed.

(** X1: a phone number that [validatePhoneNumber] accepts comes back as the
    digits of the input, which is what [formatPhoneNumber] computes: between
    10 and 15 digits and nothing else.  Validating the result again returns
    it unchanged. *)
Theorem validatePhoneNumber_normal_form (phone cleaned : string) :
  validatePhoneNumber phone = Valid cleaned ->
  cleaned = formatPhoneNumber phone /\
  forallb_str isDigit cleaned = true /\
  (10 <= String.length cleaned <= 15)%nat /\
  validatePhoneNumber cleaned = Valid cleaned.
Proof.
  unfold validatePhoneNumber, formatPhoneNumber. cbv zeta.
  destruct (nonEmpty phone); [|discriminate]. cbn [negb].
  destruct (Nat.ltb_spec (String.length (digitsOf phone)) 10) as [|Hlo];
    [discriminate|].
  destruct (Nat.ltb_spec 15 (String.length (digitsOf phone))) as [|Hhi];
    [discriminate|].
  destruct (_ && _) eqn:Hzero; [discriminate|].
  intros [= <-].
  pose proof (digitsOf_digits phone) as Hd.
  repeat split; try assumption.
  rewrite (digitsOf_id _ Hd).
  destruct (digitsOf phone) as [|c d] eqn:E; [cbn in Hlo; lia|].
  cbn [nonEmpty negb].
  destruct (Nat.ltb_spec (String.length (String c d)) 10); [lia|].
  destruct (Nat.ltb_spec 15 (String.length (String c d))); [lia|].
  now rewrite Hzero.
Qed.

Lemma validatePhoneNumber_normal_form_witness :
  "15551234567" = formatPhoneNumber "+1 (555) 123-4567" /\
  forallb_str isDigit "15551234567" = true /\
  (10 <= String.length "15551234567" <= 15)%nat /\
  validatePhoneNumber "15551234567" = Valid "15551234567".
Proof.
  apply (validatePhoneNumber_normal_form "+1 (555) 123-4567" "15551234567").
  reflexivity.
Defined.

(** *** What the replacements keep *)

Lemma forallb_str_substringFrom (p : ascii -> bool) (n : nat) (s : string) :
  forallb_str p s = true -> forallb_str p (substringFrom n s) = true.
Proof.
  revert s. induction n as [|n IH]; intros [|c s]; cbn; try easy.
  rewrite andb_true_iff. intros [_ Hs]. auto.
Qed.

(** Removing matches only deletes code units. *)
Lemma forallb_str_removeMatches (p : ascii -> bool)
    (matchAt : string -> option nat) (fuel : nat) :
  forall s : string,
    forallb_str p s = true ->
    forallb_str p (removeMatches fuel matchAt s) = true.
Proof.
  induction fuel as [|fuel IH]; intros s Hs; [exact Hs|].
  destruct s as [|c t]; [reflexivity|]. cbn [removeMatches].
  destruct (matchAt (String c t)) as [n|].
  - apply IH. now apply forallb_str_substringFrom.
  - cbn in Hs |- *. apply andb_true_iff in Hs as [-> Ht]. cbn. auto.
Qed.

Lemma forallb_str_replaceAll (p : ascii -> bool)
    (matchAt : string -> option nat) (s : string) :
  forallb_str p s = true -> forallb_str p (replaceAll matchAt s) = true.
Proof. apply forallb_str_removeMatches. Qed.

Lemma forallb_str_trimStart (p : ascii -> bool) (s : string) :
  forallb_str p s = true -> forallb_str p (trimStart s) = true.
Proof.
  induction s as [|c s IH]; [easy|]. cbn.
  destruct (isSpace c); [|easy].
  rewrite andb_true_iff. intros [_ Hs]. auto.
Qed.

Lemma forallb_str_trimEnd (p : ascii -> bool) (s : string) :
  forallb_str p s = true -> forallb_str p (trimEnd s) = true.
Proof.
  induction s as [|c s IH]; [easy|]. cbn.
  rewrite andb_true_iff. intros [Hc Hs]. specialize (IH Hs).
  destruct (trimEnd s) as [|d t].
  - destruct (isSpace c); cbn; [reflexivity|now rewrite Hc].
  - cbn in IH |- *. now rewrite Hc, IH.
Qed.

Lemma forallb_str_trim (p : ascii -> bool) (s : string) :
  forallb_str p s = true -> forallb_str p (trim s) = true.
Proof. intros H. now apply forallb_str_trimEnd, forallb_str_trimStart. Qed.

Lemma removeChars_clean (q : ascii -> bool) (s : string) :
  forallb_str (fun c => negb (q c)) (removeChars q s) = true.
Proof.
  induction s as [|c s IH]; [reflexivity|]. cbn.
  destruct (q c) eqn:E; [exact IH|]. cbn. now rewrite E.
Qed.

Lemma forallb_str_and (p q : ascii -> bool) (s : string) :
  forallb_str p s = true -> forallb_str q s = true ->
  forallb_str (fun c => p c && q c) s = true.
Proof.
  induction s as [|c s IH]; [easy|]. cbn.
  rewrite !andb_true_iff. intros [-> Hp] [-> Hq]. auto.
Qed.

(** Trimming leaves no whitespace at either end. *)
Lemma trimStart_head (s : string) : headIs isSpace (trimStart s) = false.
Proof.
  induction s as [|c s IH]; [reflexivity|]. cbn.
  destruct (isSpace c) eqn:E; [exact IH|]. cbn. exact E.
Qed.

Lemma trimEnd_head (s : string) :
  headIs isSpace s = false -> headIs isSpace (trimEnd s) = false.
Proof.
  destruct s as [|c s]; [reflexivity|]. cbn. intros Hc.
  destruct (trimEnd s); [rewrite Hc|]; cbn; auto.
Qed.

Lemma trimEnd_last (s : string) :
  trimEnd s = "" \/
  exists c, WhatsApp.lastOf None (trimEnd s) = Some c /\ isSpace c = false.
Proof.
  induction s as [|c s IH]; [now left|]. cbn [trimEnd].
  destruct (trimEnd s) as [|d t] eqn:E.
  - destruct (isSpace c) eqn:Hc; [now left|]. right. exists c. auto.
  - right. destruct IH as [IH|IH]; [discriminate IH|]. exact IH.
Qed.

Lemma trim_last (s : string) :
  trim s = "" \/
  exists c, WhatsApp.lastOf None (trim s) = Some c /\ isSpace c = false.
Proof. apply trimEnd_last. Qed.

(** X2: a name that [validateName] accepts has between 2 and 100 code
    units, each a letter, a whitespace character or a hyphen, and neither
    starts nor ends with whitespace.  It never contains an apostrophe,
    although the final test of the validator admits one: the replacement of
    the dangerous characters has removed every apostrophe before. *)
Theorem validateName_result (name cleaned : string) :
  validateName name = Valid cleaned ->
  (2 <= String.length cleaned <= 100)%nat /\
  forallb_str (fun c => isLetter c || isSpace c || (charCode c =? 45)%N)
    cleaned = true /\
  existsb_str (fun c => (charCode c =? 39)%N) cleaned = false /\
  headIs isSpace cleaned = false /\
  (exists c, WhatsApp.lastOf None cleaned = Some c /\ isSpace c = false).
Proof.
  unfold validateName. cbv zeta.
  destruct (nonEmpty name); [|discriminate]. cbn [negb].
  set (r := trim _).
  destruct (Nat.ltb_spec (String.length r) 2) as [|Hlo]; [discriminate|].
  destruct (Nat.ltb_spec 100 (String.length r)) as [|Hhi]; [discriminate|].
  destruct (nonEmpty r && forallb_str isNameChar r) eqn:Hre; [|discriminate].
  cbn [negb]. intros [= <-].
  apply andb_true_iff in Hre as [_ Hname].
  assert (Hsafe : forallb_str (fun c => negb (isDangerous c)) r = true).
  { subst r. apply forallb_str_trim.
    do 2 apply forallb_str_replaceAll. apply removeChars_clean. }
  pose proof (forallb_str_and _ _ r Hname Hsafe) as Hboth.
  split; [lia|]. split; [|split; [|split]].
  - revert Hboth. apply WhatsAppFacts.forallb_str_impl. intros c.
    unfold isNameChar, isDangerous. cbv zeta.
    destruct (charCode c =? 39)%N.
    + rewrite !orb_true_r. discriminate.
    + rewrite orb_false_r, andb_true_iff. now intros [H _].
  - clear -Hsafe. induction r as [|c r IH]; [reflexivity|].
    cbn in Hsafe |- *. apply andb_true_iff in Hsafe as [Hc Hr].
    rewrite (IH Hr), orb_false_r.
    unfold isDangerous in Hc. cbv zeta in Hc.
    destruct (charCode c =? 39)%N; [|reflexivity].
    now rewrite !orb_true_r in Hc.
  - subst r. unfold trim. apply trimEnd_head, trimStart_head.
  - subst r.
    match goal with
    | |- context [WhatsApp.lastOf None (trim ?x)] =>
        destruct (trim_last x) as [Hlast|Hlast]
    end; [|exact Hlast].
    rewrite Hlast in Hlo. cbn in Hlo. lia.
Qed.

Lemma validateName_result_witness :
  (2 <= String.length "Mary-Ann OBrien" <= 100)%nat /\
  forallb_str (fun c => isLetter c || isSpace c || (charCode c =? 45)%N)
    "Mary-Ann OBrien" = true /\
  existsb_str (fun c => (charCode c =? 39)%N) "Mary-Ann OBrien" = false /\
  headIs isSpace "Mary-Ann OBrien" = false /\
  (exists c, WhatsApp.lastOf None "Mary-Ann OBrien" = Some c /\ isSpace c = false).
Proof.
  apply (validateName_result "  <b>Mary-Ann</b> O'Brien " "Mary-Ann OBrien").
  reflexivity.
Defined.

(** X3: the two password validators of the repository agree.  The one of
    [lib/security.ts] returns the password exactly when the one of
    [lib/auth-utils.ts] collects no error, and otherwise throws the first
    error of that list. *)
Theorem validatePassword_variants_agree (password : string) :
  match validatePassword password with
  | Valid value =>
      value = password /\
      AuthUtils.validatePassword password =
        {| AuthUtils.isValid := true; AuthUtils.errors := [] |}
  | Invalid message =>
      AuthUtils.isValid (AuthUtils.validatePassword password) = false /\
      head (AuthUtils.errors (AuthUtils.validatePassword password)) = Some message
  end.
Proof.
  unfold validatePassword, AuthUtils.validatePassword.
  destruct (nonEmpty password); [|split; reflexivity]. cbn [negb]. cbv zeta.
  destruct (String.length password <? 6)%nat;
    destruct (128 <? String.length password)%nat;
    destruct (existsb_str isLetter password);
    destruct (AuthUtils.includes "password" (toLowerCase password));
    destruct (AuthUtils.includes "123456" (toLowerCase password));
    destruct (AuthUtils.hasRepeated4 password);
    split; reflexivity.
Qed.

End ValidationFacts.

(** ** Extracted codes against the validator *)

Module CodeFacts.
Import Chars WhatsApp Security CharFacts.

Ltac ascii_cases c :=
  destruct c as [[|] [|] [|] [|] [|] [|] [|] [|]]; try reflexivity; try discriminate.

Lemma toUpperChar_alnum (c : ascii) :
  isAlnum c = true -> (isUpper (toUpperChar c) || isDigit (toUpperChar c)) = true.
Proof. ascii_cases c. Qed.

Lemma toUpperChar_letter (c : ascii) :
  isLetter c = true -> isUpper (toUpperChar c) = true.
Proof. ascii_cases c. Qed.

Lemma toUpperChar_digit (c : ascii) :
  isDigit c = true -> isDigit (toUpperChar c) = true.
Proof. ascii_cases c. Qed.

Lemma toUpperChar_idem (c : ascii) : toUpperChar (toUpperChar c) = toUpperChar c.
Proof. ascii_cases c. Qed.

Lemma length_toUpperCase (s : string) :
  String.length (toUpperCase s) = String.length s.
Proof. induction s as [|c s IH]; cbn; [reflexivity|]. now rewrite IH. Qed.

Lemma toUpperCase_idem (s : string) : toUpperCase (toUpperCase s) = toUpperCase s.
Proof.
  induction s as [|c s IH]; cbn; [reflexivity|].
  now rewrite toUpperChar_idem, IH.
Qed.

Lemma forallb_str_toUpperCase (p q : ascii -> bool) (s : string) :
  (forall c, p c = true -> q (toUpperChar c) = true) ->
  forallb_str p s = true -> forallb_str q (toUpperCase s) = true.
Proof.
  intros Hpq. induction s as [|c s IH]; cbn; [easy|].
  rewrite !andb_true_iff. intros [Hc Hs]. auto.
Qed.

Lemma existsb_str_toUpperCase (p q : ascii -> bool) (s : string) :
  (forall c, p c = true -> q (toUpperChar c) = true) ->
  existsb_str p s = true -> existsb_str q (toUpperCase s) = true.
Proof.
  intros Hpq. induction s as [|c s IH]; cbn; [easy|].
  rewrite !orb_true_iff. intros [Hc|Hs]; auto.
Qed.

(** A six-character alphanumeric run with a letter and a digit, once in
    upper case, is a code the validator returns unchanged. *)
Lemma validate_upper_code (m : string) :
  isCode6 m = true -> hasLetter m = true -> hasNumber m = true ->
  validateVerificationCode (toUpperCase m) = Some (toUpperCase m).
Proof.
  unfold isCode6, hasLetter, hasNumber.
  rewrite andb_true_iff, Nat.eqb_eq. intros [Hlen Halnum] Hl Hd.
  unfold validateVerificationCode.
  assert (Hne : nonEmpty (toUpperCase m) = true)
    by (destruct m; [discriminate Hlen|reflexivity]).
  rewrite Hne, length_toUpperCase, Hlen. cbn [negb Nat.eqb andb].
  rewrite (forallb_str_toUpperCase isAlnum _ m toUpperChar_alnum Halnum).
  cbn [negb]. cbv zeta.
  rewrite (existsb_str_toUpperCase isLetter isUpper m toUpperChar_letter Hl).
  rewrite (existsb_str_toUpperCase isDigit isDigit m toUpperChar_digit Hd).
  cbn [negb orb]. now rewrite toUpperCase_idem.
Qed.

(** X4: whatever [extractVerificationCode] finds in a message is a code
    that [validateVerificationCode] returns unchanged: six characters out of
    [A-Z0-9] with a letter and a digit.  The handler's reply for an invalid
    code format can therefore never be sent. *)
Theorem extracted_code_is_valid (message code : string) :
  extractVerificationCode message = Some code ->
  validateVerificationCode code = Some code /\
  Utils.wellFormedCode code = true /\
  (forall (now : Z) (outcome : Webhook.Outcome) (m : Webhook.Message)
          (st : Webhook.State) (to extracted : string),
     Webhook.text m = message ->
     In (to, Webhook.InvalidFormat extracted)
        (Webhook.outbox (Webhook.processMessage now outcome m st).1) ->
     In (to, Webhook.InvalidFormat extracted) (Webhook.outbox st)).
Proof.
  intros Hex. pose proof Hex as Hex'.
  unfold extractVerificationCode in Hex. cbv zeta in Hex.
  destruct (List.find _ _) as [m|] eqn:Hfind; [|discriminate Hex].
  injection Hex as <-.
  apply find_some in Hfind as [Hin Hboth].
  apply andb_true_iff in Hboth as [Hl Hd].
  rewrite (WhatsAppFacts.matchCodes_runs (String.length message)) in Hin by auto.
  apply filter_In in Hin as [_ Hcode].
  pose proof (validate_upper_code m Hcode Hl Hd) as Hvalid.
  split; [exact Hvalid|]. split.
  - unfold validateVerificationCode in Hvalid. unfold Utils.wellFormedCode.
    destruct (nonEmpty _); [|discriminate Hvalid]. cbn [negb] in Hvalid.
    destruct (String.length (toUpperCase m) =? 6)%nat; [|discriminate Hvalid].
    cbn [negb andb] in Hvalid |- *.
    unfold Utils.inAlphabet.
    destruct (forallb_str _ _); [|discriminate Hvalid]. cbn [negb andb] in Hvalid |- *.
    cbv zeta in Hvalid.
    destruct (existsb_str isUpper _); [|discriminate Hvalid].
    destruct (existsb_str isDigit _); [reflexivity|discriminate Hvalid].
  - intros now outcome msg st to extracted Htext.
    unfold Webhook.processMessage. rewrite Htext, Hex', Hvalid.
    unfold Webhook.send.
    repeat match goal with
           | |- context [match ?x with _ => _ end] => destruct x
           end;
      cbn [fst Webhook.outbox]; try easy;
      intros Hin; apply in_app_iff in Hin as [Hin|[Hin|[]]];
      try exact Hin; discriminate Hin.
Qed.

Lemma extracted_code_is_valid_witness :
  validateVerificationCode "AB12C3" = Some "AB12C3" /\
  Utils.wellFormedCode "AB12C3" = true.
Proof.
  destruct (extracted_code_is_valid "please VERIFY ab12c3 now" "AB12C3" eq_refl)
    as (H1 & H2 & _).
  split; assumption.
Defined.

End CodeFacts.

(** ** Issuing and checking CSRF tokens *)

Module CsrfTokenFacts.
Import Chars Hex HexDigits Csrf CsrfTokenRoute CharFacts CsrfFacts.

Lemma isLowerHex_hexDigit (n : N) : (n < 16)%N -> isLowerHex (hexDigit n) = true.
Proof.
  intros Hn.
  assert (Hcases : In n (map N.of_nat (seq 0 16))).
  { apply in_map_iff. exists (N.to_nat n). split; [lia|]. apply in_seq. lia. }
  simpl in Hcases.
  repeat (destruct Hcases as [<- | Hcases]; [reflexivity|]).
  destruct Hcases.
Qed.

Lemma isLowerHex_hexOfBytes (bs : list byte) :
  forallb_str isLowerHex (hexOfBytes bs) = true.
Proof.
  induction bs as [|b bs IH]; [reflexivity|].
  cbn [hexOfBytes]. unfold byteToHex. cbv zeta.
  rewrite !append_String, append_Empty. cbn [forallb_str].
  pose proof (Byte.to_N_bounded b) as Hb.
  rewrite !isLowerHex_hexDigit, IH; [reflexivity| |].
  - apply N.mod_lt. lia.
  - apply N.Div0.div_lt_upper_bound. lia.
Qed.

Lemma map_seq_ext {A : Type} (f g : nat -> A) (n : nat) :
  map f (seq 0 n) = map g (seq 0 n) -> forall i, (i < n)%nat -> f i = g i.
Proof.
  intros H i Hi.
  assert (E : nth_error (map f (seq 0 n)) i = nth_error (map g (seq 0 n)) i)
    by now rewrite H.
  rewrite !nth_error_map, nth_error_seq in E.
  destruct (Nat.ltb_spec i n) as [_|]; [|lia]. cbn in E. congruence.
Qed.

(** Two draws that give the same token agree on every byte. *)
Lemma generateCSRFToken_inj (array array' : nat -> byte) :
  generateCSRFToken array = generateCSRFToken array' ->
  forall i, (i < 64)%nat -> array i = array' i.
Proof.
  unfold generateCSRFToken. intros H. apply map_seq_ext.
  now rewrite <- (bytesOfHex_hexOfBytes (map array (seq 0 64))), H,
    bytesOfHex_hexOfBytes.
Qed.

(** X5: a token of [generateCSRFToken] is 128 lower-case hexadecimal
    digits that spell the 64 random bytes: decoding the digits gives the
    bytes back, so two draws give the same token only if they agree on
    every byte. *)
Theorem generateCSRFToken_spells_bytes (array array' : nat -> byte) :
  String.length (generateCSRFToken array) = 128%nat /\
  forallb_str isLowerHex (generateCSRFToken array) = true /\
  bytesOfHex (generateCSRFToken array) = map array (seq 0 64) /\
  (generateCSRFToken array = generateCSRFToken array' ->
   forall i, (i < 64)%nat -> array i = array' i).
Proof.
  split; [apply length_generateCSRFToken|].
  split; [apply isLowerHex_hexOfBytes|].
  split; [apply bytesOfHex_hexOfBytes|].
  apply generateCSRFToken_inj.
Qed.

Lemma generateCSRFToken_spells_bytes_witness :
  String.length (generateCSRFToken (fun _ => x2a)) = 128%nat /\
  (forall i, (i < 64)%nat -> (fun _ : nat => x2a) i = (fun _ : nat => x2a) i).
Proof.
  split.
  - exact (proj1 (generateCSRFToken_spells_bytes (fun _ => x2a) (fun _ => x2a))).
  - exact (proj2 (proj2 (proj2
      (generateCSRFToken_spells_bytes (fun _ => x2a) (fun _ => x2a)))) eq_refl).
Defined.

(** X6: the token that the endpoint issues passes the guard when the
    client sends it back in both places, whatever the method; and when the
    endpoint is called again with other random bytes, a form that still
    holds the earlier token in its header is refused, because the cookie
    now holds the later one. *)
Theorem issued_token_round_trip
    (array array' : nat -> byte) (request0 : NextRequest) :
  truthy (headers_get request0 "user-agent") = true ->
  exists token : string,
    body_token (GET array request0) = Some token /\
    set_cookie (GET array request0) = Some token /\
    (forall request : NextRequest,
       headers_get request "x-csrf-token" = Some token ->
       cookies_get request "csrf-token" = Some token ->
       validateDoubleSubmitCSRF request = true) /\
    (forall (request : NextRequest) (i : nat),
       (i < 64)%nat -> array i <> array' i ->
       method request <> "GET" ->
       headers_get request "x-csrf-token" = Some token ->
       cookies_get request "csrf-token" = set_cookie (GET array' request0) ->
       validateDoubleSubmitCSRF request = false).
Proof.
  intros Hua. exists (generateCSRFToken array).
  unfold GET. rewrite Hua. cbn [negb]. cbv zeta.
  rewrite !nonEmpty_generateCSRFToken. cbn [negb body_token set_cookie].
  split; [reflexivity|]. split; [reflexivity|]. split.
  - intros request Hh Hc. unfold validateDoubleSubmitCSRF.
    rewrite Hh, Hc, nonEmpty_generateCSRFToken. cbn [negb orb].
    destruct (method request =? "GET")%string; [reflexivity|].
    now apply timingSafeEqual_spec.
  - intros request i Hi Hne Hm Hh Hc. unfold validateDoubleSubmitCSRF.
    destruct (String.eqb_spec (method request) "GET"); [contradiction|].
    rewrite Hh, Hc, !nonEmpty_generateCSRFToken. cbn [negb orb].
    apply not_true_is_false. rewrite timingSafeEqual_spec. intros E.
    apply Hne. now apply (generateCSRFToken_inj array array' E).
Qed.

Lemma issued_token_round_trip_witness :
  let request0 :=
    {| method := "GET"; headers := {[ "user-agent" := "Mozilla/5.0" ]};
       cookies := ∅ |} in
  let first := generateCSRFToken (fun _ => x00) in
  let second := generateCSRFToken (fun _ => xff) in
  validateDoubleSubmitCSRF
    {| method := "POST"; headers := {[ "x-csrf-token" := first ]};
       cookies := {[ "csrf-token" := first ]} |} = true /\
  validateDoubleSubmitCSRF
    {| method := "POST"; headers := {[ "x-csrf-token" := first ]};
       cookies := {[ "csrf-token" := second ]} |} = false.
Proof.
  intros request0 first second.
  destruct (issued_token_round_trip (fun _ => x00) (fun _ => xff) request0 eq_refl)
    as (token & Hbody & _ & Hok & Hstale).
  injection Hbody as <-.
  split.
  - apply Hok; reflexivity.
  - apply (Hstale _ 0%nat); [lia|discriminate|discriminate|reflexivity|reflexivity].
Defined.

End CsrfTokenFacts.

(** ** Cookie and comparison helpers *)

Module SecureAuthUtilsFacts.
Import Chars Hex SecureAuthUtils CharFacts.

Lemma utf8Decode_char (c : ascii) (rest : list byte) :
  utf8Decode (utf8Char c ++ rest)%list = String c (utf8Decode rest).
Proof.
  destruct c as [[|] [|] [|] [|] [|] [|] [|] [|]]; reflexivity.
Qed.

Lemma utf8Decode_utf8Bytes (s : string) : utf8Decode (utf8Bytes s) = s.
Proof.
  induction s as [|c s IH]; [reflexivity|].
  cbn [utf8Bytes]. now rewrite utf8Decode_char, IH.
Qed.

Lemma utf8Bytes_inj (a b : string) : utf8Bytes a = utf8Bytes b -> a = b.
Proof.
  intros H. rewrite <- (utf8Decode_utf8Bytes a), <- (utf8Decode_utf8Bytes b).
  now rewrite H.
Qed.


Ltac divlia := zify; Z.to_euclidean_division_equations; lia.

Lemma to_N_byteOfN (k : N) : (k < 256)%N -> Byte.to_N (byteOfN k) = k.
Proof.
  intros Hk. unfold byteOfN. destruct (Byte.of_N k) eqn:E.
  - now apply Byte.to_of_N.
  - apply Byte.of_N_None_iff in E. lia.
Qed.

Lemma surrogate_bounds (u : N) :
  (isHighSurrogate u = true <-> (55296 <= u <= 56319)%N) /\
  (isLowSurrogate u = true <-> (56320 <= u <= 57343)%N).
Proof.
  unfold isHighSurrogate, isLowSurrogate, between.
  rewrite !andb_true_iff, !N.leb_le. tauto.
Qed.

Lemma split64 (n : N) :
  (n / 4096 = n / 64 / 64 /\ n / 262144 = n / 64 / 64 / 64)%N.
Proof. now rewrite !N.Div0.div_div. Qed.

Lemma join64 (n : N) :
  ((240 + n / 64 / 64 / 64 - 240) * 262144 +
   (128 + (n / 64 / 64) mod 64 - 128) * 4096 +
   (128 + (n / 64) mod 64 - 128) * 64 + (128 + n mod 64 - 128) = n)%N.
Proof. divlia. Qed.

Lemma utf8DecodeUnits_codePoint (u : N) (rest : list byte) :
  (u < 65536)%N ->
  utf8DecodeUnits (utf8CodePoint u ++ rest) = u :: utf8DecodeUnits rest.
Proof.
  intros Hu. unfold utf8CodePoint.
  destruct (N.ltb_spec u 128) as [H1|H1];
    [|destruct (N.ltb_spec u 2048) as [H2|H2];
      [|destruct (N.ltb_spec u 65536) as [H3|H3]; [|lia]]];
    cbn [app utf8DecodeUnits].
  - rewrite to_N_byteOfN by lia.
    destruct (N.ltb_spec u 128); [reflexivity|lia].
  - rewrite !to_N_byteOfN by divlia.
    destruct (N.ltb_spec (192 + u / 64) 128); [divlia|].
    destruct (N.ltb_spec (192 + u / 64) 224); [|divlia].
    f_equal. divlia.
  - destruct (split64 u) as [E _]. rewrite E.
    rewrite !to_N_byteOfN by divlia.
    destruct (N.ltb_spec (224 + u / 64 / 64) 128); [divlia|].
    destruct (N.ltb_spec (224 + u / 64 / 64) 224); [divlia|].
    destruct (N.ltb_spec (224 + u / 64 / 64) 240); [|divlia].
    f_equal. divlia.
Qed.

Lemma codePoint_bounds (hi lo : N) :
  isHighSurrogate hi = true -> isLowSurrogate lo = true ->
  (65536 <= codePoint hi lo < 1114112)%N /\
  (55296 + (codePoint hi lo - 65536) / 1024 = hi)%N /\
  (56320 + (codePoint hi lo - 65536) mod 1024 = lo)%N.
Proof.
  intros Hhi%surrogate_bounds Hlo%surrogate_bounds. unfold codePoint.
  split; [lia|]. divlia.
Qed.

Lemma utf8DecodeUnits_pair (hi lo : N) (rest : list byte) :
  isHighSurrogate hi = true -> isLowSurrogate lo = true ->
  utf8DecodeUnits (utf8CodePoint (codePoint hi lo) ++ rest) =
    hi :: lo :: utf8DecodeUnits rest.
Proof.
  intros Hhi Hlo.
  destruct (codePoint_bounds hi lo Hhi Hlo) as (Hcp & Ehi & Elo).
  revert Hcp Ehi Elo. generalize (codePoint hi lo). intros cp Hcp Ehi Elo.
  unfold utf8CodePoint.
  destruct (N.ltb_spec cp 128); [lia|].
  destruct (N.ltb_spec cp 2048); [lia|].
  destruct (N.ltb_spec cp 65536); [lia|].
  cbn [app utf8DecodeUnits].
  destruct (split64 cp) as [E2 E3]. rewrite E2, E3.
  rewrite !to_N_byteOfN by divlia.
  destruct (N.ltb_spec (240 + cp / 64 / 64 / 64) 128); [divlia|].
  destruct (N.ltb_spec (240 + cp / 64 / 64 / 64) 224); [divlia|].
  destruct (N.ltb_spec (240 + cp / 64 / 64 / 64) 240); [divlia|].
  cbv zeta.
  rewrite join64, Ehi, Elo. reflexivity.
Qed.

Lemma utf8DecodeUnits_utf8Encode_upto (n : nat) (s : JSString) :
  (List.length s <= n)%nat -> wellFormed s = true ->
  utf8DecodeUnits (utf8Encode s) = s.
Proof.
  revert s. induction n as [|n IH]; intros [|u rest] Hlen Hwf;
    try reflexivity; cbn [List.length] in Hlen; [lia|].
  cbn [wellFormed utf8Encode] in *.
  destruct (isHighSurrogate u) eqn:Hhi.
  - destruct rest as [|lo rest']; [discriminate|].
    apply andb_true_iff in Hwf as [Hlo Hwf]. rewrite Hlo.
    rewrite utf8DecodeUnits_pair by assumption.
    cbn [List.length] in Hlen. rewrite IH by (assumption || lia). reflexivity.
  - apply andb_true_iff in Hwf as [Hwf Hrest].
    apply andb_true_iff in Hwf as [Hlo Hu].
    apply negb_true_iff in Hlo. rewrite Hlo.
    apply N.ltb_lt in Hu.
    rewrite utf8DecodeUnits_codePoint by assumption.
    rewrite IH by (assumption || lia). reflexivity.
Qed.

Lemma utf8DecodeUnits_utf8Encode (s : JSString) :
  wellFormed s = true -> utf8DecodeUnits (utf8Encode s) = s.
Proof. now apply (utf8DecodeUnits_utf8Encode_upto (List.length s)). Qed.

Lemma utf8Encode_inj (a b : JSString) :
  wellFormed a = true -> wellFormed b = true ->
  utf8Encode a = utf8Encode b -> a = b.
Proof.
  intros Ha Hb H.
  rewrite <- (utf8DecodeUnits_utf8Encode a Ha), <- (utf8DecodeUnits_utf8Encode b Hb).
  now rewrite H.
Qed.

Lemma utf8Encode_lone (u : N) (rest : JSString) :
  lone u rest = true -> utf8Encode (u :: rest) = (replacement ++ utf8Encode rest)%list.
Proof.
  unfold lone. intros H. cbn [utf8Encode].
  destruct (isHighSurrogate u) eqn:Hhi.
  - destruct (isLowSurrogate u) eqn:Hlo.
    + apply surrogate_bounds in Hhi. apply surrogate_bounds in Hlo. lia.
    + cbn in H. destruct rest as [|lo rest']; [reflexivity|].
      apply negb_true_iff in H. now rewrite H.
  - rewrite andb_false_l, orb_false_r in H. now rewrite H.
Qed.

(** On the strings of the other modules the encoder is [utf8Bytes]. *)
Lemma utf8Encode_codeUnits (s : string) : utf8Encode (codeUnits s) = utf8Bytes s.
Proof.
  induction s as [|c s IH]; [reflexivity|].
  cbn [codeUnits utf8Encode utf8Bytes]. rewrite IH.
  pose proof (N_ascii_bounded c) as Hc. fold (charCode c) in Hc.
  unfold isHighSurrogate, isLowSurrogate, between, utf8CodePoint, utf8Char.
  cbv zeta.
  destruct (N.leb_spec 55296 (charCode c)); [lia|].
  destruct (N.leb_spec 56320 (charCode c)); [lia|]. cbn [andb].
  destruct (N.ltb_spec (charCode c) 128); [reflexivity|].
  destruct (N.ltb_spec (charCode c) 2048); [reflexivity|lia].
Qed.

Lemma codeUnits_wellFormed (s : string) : wellFormed (codeUnits s) = true.
Proof.
  induction s as [|c s IH]; [reflexivity|].
  cbn [codeUnits wellFormed]. rewrite IH.
  pose proof (N_ascii_bounded c) as Hc. fold (charCode c) in Hc.
  unfold isHighSurrogate, isLowSurrogate, between.
  destruct (N.leb_spec 55296 (charCode c)); [lia|].
  destruct (N.leb_spec 56320 (charCode c)); [lia|]. cbn [andb negb].
  destruct (N.ltb_spec (charCode c) 65536); [reflexivity|lia].
Qed.

(** X7: [secureCompare] on strings as sequences of code units.  Equal
    strings compare equal.  A [true] answer means equal lengths and equal
    UTF-8 encodings, which for well-formed strings (no surrogate without
    its partner) means equal strings.  The [RangeError] of
    [crypto.timingSafeEqual] for buffers of different byte lengths (two
    strings of one length, such as [[233]] and [[101]]) is answered by
    [false], and the strings do differ.  For other strings a [true] answer
    does not mean equality: the encoder writes [U+FFFD] for every surrogate
    without a partner, so two strings that differ in such a unit at the
    head, such as [[0xD800]] and [[0xDBFF]], compare equal. *)
Theorem secureCompare_spec (a b : JSString) :
  (a = b -> secureCompare a b = true) /\
  (secureCompare a b = true ->
   List.length a = List.length b /\ utf8Encode a = utf8Encode b) /\
  (wellFormed a = true -> wellFormed b = true ->
   secureCompare a b = true -> a = b) /\
  (WebhookSig.crypto_timingSafeEqual (utf8Encode a) (utf8Encode b) = None ->
   secureCompare a b = false /\ a <> b) /\
  (forall u v : N, lone u a = true -> lone v a = true ->
   secureCompare (u :: a) (v :: a) = true).
Proof.
  assert (Hsound : secureCompare a b = true ->
            List.length a = List.length b /\ utf8Encode a = utf8Encode b).
  { unfold secureCompare, WebhookSig.crypto_timingSafeEqual.
    destruct (List.length a =? List.length b)%nat eqn:El; [|discriminate].
    cbn [negb].
    destruct (List.length (utf8Encode a) =? List.length (utf8Encode b))%nat;
      [|discriminate].
    cbn [negb]. intros H%bool_decide_eq_true.
    split; [now apply Nat.eqb_eq|assumption]. }
  assert (Hrefl : forall s t : JSString,
            List.length s = List.length t -> utf8Encode s = utf8Encode t ->
            secureCompare s t = true).
  { intros s t Hl He. unfold secureCompare, WebhookSig.crypto_timingSafeEqual.
    rewrite Hl, He, !Nat.eqb_refl. cbn [negb]. now apply bool_decide_eq_true. }
  repeat split.
  - intros ->. now apply Hrefl.
  - now apply Hsound.
  - now apply Hsound.
  - intros Ha Hb H. apply utf8Encode_inj; [assumption|assumption|].
    now apply Hsound.
  - unfold secureCompare. now destruct (negb _); [|rewrite H].
  - intros ->. unfold WebhookSig.crypto_timingSafeEqual in H.
    now rewrite Nat.eqb_refl in H.
  - intros u v Hu Hv. apply Hrefl; [reflexivity|].
    now rewrite !utf8Encode_lone.
Qed.

Lemma secureCompare_spec_witness :
  (secureCompare [233%N] [101%N] = false /\ [233%N] <> [101%N]) /\
  secureCompare [55296%N] [56319%N] = true.
Proof.
  split.
  - apply (proj1 (proj2 (proj2 (proj2 (secureCompare_spec [233%N] [101%N]))))).
    vm_compute. reflexivity.
  - apply (proj2 (proj2 (proj2 (proj2 (secureCompare_spec [] []))))
             55296%N 56319%N); vm_compute; reflexivity.
Defined.

Lemma matchAuthToken_eq (s : string) :
  matchAuthToken s =
  let capture :=
    if String.prefix "auth_token=" s
    then takeUntil ";" (substringFrom 11 s) else EmptyString in
  if nonEmpty capture then Some capture
  else match s with
       | EmptyString => None
       | String _ s' => matchAuthToken s'
       end.
Proof. destruct s; reflexivity. Qed.

Lemma takeUntil_clean (s : string) : forallb_str noSemicolon (takeUntil ";" s) = true.
Proof.
  induction s as [|x s IH]; [reflexivity|]. cbn [takeUntil].
  destruct (Ascii.eqb x ";") eqn:E; [reflexivity|].
  cbn [forallb_str]. unfold noSemicolon at 1. now rewrite E, IH.
Qed.

Lemma takeUntil_append (v rest : string) :
  forallb_str noSemicolon v = true ->
  takeUntil ";" (v ++ String ";" rest) = v /\ takeUntil ";" v = v.
Proof.
  induction v as [|x v IH]; intros H.
  - rewrite append_Empty. split; reflexivity.
  - cbn [forallb_str] in H. apply andb_true_iff in H as [Hx Hv].
    rewrite append_String. cbn [takeUntil].
    unfold noSemicolon in Hx. apply negb_true_iff in Hx. rewrite Hx.
    destruct (IH Hv) as [-> ->]. split; reflexivity.
Qed.

Lemma matchAuthToken_some (s v : string) :
  matchAuthToken s = Some v -> v <> "" /\ forallb_str noSemicolon v = true.
Proof.
  revert v. induction s as [|x s IH]; intros v; rewrite matchAuthToken_eq; cbv zeta.
  - cbn. discriminate.
  - set (capture := if String.prefix _ _ then _ else _).
    assert (Hclean : forallb_str noSemicolon capture = true).
    { subst capture. destruct (String.prefix _ _); [apply takeUntil_clean|reflexivity]. }
    destruct (nonEmpty capture) eqn:E.
    + intros H. assert (Hv : capture = v) by congruence. rewrite <- Hv.
      split; [now apply CsrfFacts.nonEmpty_true|exact Hclean].
    + apply IH.
Qed.

Lemma matchAuthToken_here (v rest : string) :
  v <> "" -> forallb_str noSemicolon v = true ->
  matchAuthToken ("auth_token=" ++ v ++ String ";" rest) = Some v /\
  matchAuthToken ("auth_token=" ++ v) = Some v.
Proof.
  intros Hne Hv. destruct (takeUntil_append v rest Hv) as [H1 H2].
  apply CsrfFacts.nonEmpty_true in Hne.
  split; rewrite matchAuthToken_eq; cbv zeta.
  - replace (String.prefix "auth_token=" ("auth_token=" ++ v ++ String ";" rest))
      with true by (rewrite !append_String, append_Empty; cbn;
                    now destruct (v ++ _)).
    replace (substringFrom 11 ("auth_token=" ++ v ++ String ";" rest))
      with (v ++ String ";" rest)
      by (now rewrite !append_String, append_Empty).
    now rewrite H1, Hne.
  - replace (String.prefix "auth_token=" ("auth_token=" ++ v))
      with true by (rewrite !append_String, append_Empty; cbn; now destruct v).
    replace (substringFrom 11 ("auth_token=" ++ v)) with v
      by (now rewrite !append_String, append_Empty).
    now rewrite H2, Hne.
Qed.

Lemma getTokenFromRequest_header (s : string) :
  nonEmpty s = true -> getTokenFromRequest (Some s) = matchAuthToken s.
Proof.
  intros H. unfold getTokenFromRequest. cbn [truthy]. now rewrite H.
Qed.

Lemma prefix_shifted (c : ascii) (rest : string) :
  String.prefix "auth_token=" (String c (String "a" rest)) = false.
Proof.
  change (String.prefix "auth_token=" (String c (String "a" rest)))
    with (if ascii_dec "a" c
          then (if ascii_dec "u" "a" then String.prefix "th_token=" rest else false)
          else false).
  destruct (ascii_dec "a" c); [|reflexivity].
  destruct (ascii_dec "u" "a"); [discriminate|reflexivity].
Qed.

(** X8: the cookie written by [setSecureSessionCookie] is read back by
    [getTokenFromRequest]: for a token that is not empty and has no
    semicolon (as every JWT), the header made of that cookie string yields
    the token, also when the cookie name is preceded by one more character
    (the pattern does not anchor the name); whatever [getTokenFromRequest]
    returns is not empty and has no semicolon; and the cookie string of
    [clearSessionCookie], like a missing header, yields no token. *)
Theorem session_cookie_round_trip (token : string) :
  token <> "" -> forallb_str noSemicolon token = true ->
  getTokenFromRequest (Some (sessionCookie token)) = Some token /\
  (forall c : ascii,
     getTokenFromRequest (Some (String c (sessionCookie token))) = Some token) /\
  (forall (cookie : option string) (v : string),
     getTokenFromRequest cookie = Some v ->
     v <> "" /\ forallb_str noSemicolon v = true) /\
  getTokenFromRequest (Some clearedSessionCookie) = None /\
  getTokenFromRequest None = None.
Proof.
  intros Hne Hv.
  assert (Hhere : matchAuthToken (sessionCookie token) = Some token).
  { unfold sessionCookie.
    change "; HttpOnly; Secure; Path=/; Max-Age=86400; SameSite=Strict"
      with (String ";" " HttpOnly; Secure; Path=/; Max-Age=86400; SameSite=Strict").
    now apply matchAuthToken_here. }
  split; [|split; [|split; [|split]]].
  - rewrite getTokenFromRequest_header; [exact Hhere|].
    unfold sessionCookie. now rewrite !append_String.
  - intros c. rewrite getTokenFromRequest_header by reflexivity.
    rewrite matchAuthToken_eq. cbv zeta.
    replace (String.prefix "auth_token=" (String c (sessionCookie token)))
      with false.
    + cbn [nonEmpty]. exact Hhere.
    + unfold sessionCookie. rewrite !append_String. now rewrite prefix_shifted.
  - intros cookie v. unfold getTokenFromRequest. apply matchAuthToken_some.
  - reflexivity.
  - reflexivity.
Qed.

Lemma session_cookie_round_trip_witness :
  getTokenFromRequest (Some (sessionCookie "eyJh.eyJ1.c2ln")) = Some "eyJh.eyJ1.c2ln" /\
  (forall c : ascii,
     getTokenFromRequest (Some (String c (sessionCookie "eyJh.eyJ1.c2ln"))) =
     Some "eyJh.eyJ1.c2ln") /\
  (forall (cookie : option string) (v : string),
     getTokenFromRequest cookie = Some v ->
     v <> "" /\ forallb_str noSemicolon v = true) /\
  getTokenFromRequest (Some clearedSessionCookie) = None /\
  getTokenFromRequest None = None.
Proof.
  apply (session_cookie_round_trip "eyJh.eyJ1.c2ln"); [discriminate|reflexivity].
Defined.

End SecureAuthUtilsFacts.

(** ** Refresh tokens, expiry and the verifier of the middleware *)

Module JwtMoreFacts.
Import Chars Jwt JwtMore CharFacts.

Section Tokens.

Variable HS256 : string -> Header -> Claims -> list byte.
Variable JWT_SECRET : string.
Variable JWT_EXPIRES_IN : Z.
Variable JWT_REFRESH_EXPIRES_IN : Z.

Local Abbreviation access := (generateAccessToken HS256 JWT_SECRET JWT_EXPIRES_IN).
Local Abbreviation refresh :=
  (generateRefreshToken HS256 JWT_SECRET JWT_REFRESH_EXPIRES_IN).
Local Abbreviation verify := (verifyAccessToken HS256 JWT_SECRET).
Local Abbreviation middleware := (verifyAccessTokenMiddleware HS256 JWT_SECRET).

Lemma verify_refresh (now now' : Z) (p : JWTPayload) :
  verify now' (refresh now p) =
  if ((now / 1000 + JWT_REFRESH_EXPIRES_IN) * 1000 <=? now')%Z then None
  else Some (payload (refresh now p)).
Proof.
  rewrite <- TokenFacts.seconds_reached.
  apply (TokenFacts.verifyAccessToken_generateAccessToken
           HS256 JWT_SECRET JWT_REFRESH_EXPIRES_IN).
Qed.

Lemma verify_access (now now' : Z) (p : JWTPayload) :
  verify now' (access now p) =
  if ((now / 1000 + JWT_EXPIRES_IN) * 1000 <=? now')%Z then None
  else Some (payload (access now p)).
Proof.
  rewrite <- TokenFacts.seconds_reached.
  apply TokenFacts.verifyAccessToken_generateAccessToken.
Qed.

(** X9: the refresh token of [generateTokenPair] is an access token with a
    longer life: [verifyAccessToken] accepts it with the caller's claims
    until its own expiry, in particular at every instant at which the
    access token of the pair has already expired and the refresh token has
    not; nothing in the token tells the two apart but [exp]. *)
Theorem refresh_token_verifies_as_access_token (now now' : Z) (p : JWTPayload) :
  ((now / 1000 + JWT_EXPIRES_IN) * 1000 <= now')%Z ->
  (now' < (now / 1000 + JWT_REFRESH_EXPIRES_IN) * 1000)%Z ->
  let pair := generateTokenPair HS256 JWT_SECRET JWT_EXPIRES_IN
                JWT_REFRESH_EXPIRES_IN now p in
  verify now' (fst pair) = None /\
  (exists c, verify now' (snd pair) = Some c /\ claims c = p /\
             SecureAuth.verifySecureToken HS256 JWT_SECRET now' (snd pair) =
             Some {| SecureAuth.code := userId p;
                     SecureAuth.name := username p;
                     SecureAuth.whatsappNumber := phone p;
                     SecureAuth.verified := true |}) /\
  header (snd pair) = header (fst pair) /\
  claims (payload (snd pair)) = claims (payload (fst pair)) /\
  iat (payload (snd pair)) = iat (payload (fst pair)) /\
  iss (payload (snd pair)) = iss (payload (fst pair)) /\
  aud (payload (snd pair)) = aud (payload (fst pair)).
Proof.
  intros Ha Hr pair. subst pair. unfold generateTokenPair. cbn [fst snd].
  split; [|split].
  - rewrite verify_access. destruct (Z.leb_spec ((now / 1000 + JWT_EXPIRES_IN) * 1000) now');
      [reflexivity|lia].
  - unfold SecureAuth.verifySecureToken. rewrite verify_refresh.
    destruct (Z.leb_spec ((now / 1000 + JWT_REFRESH_EXPIRES_IN) * 1000) now'); [lia|].
    eexists. split; [reflexivity|]. split; reflexivity.
  - repeat split.
Qed.


(** X10: on the tokens the code mints (with a non-zero [exp]),
    [isTokenExpired] agrees with the verifier: it reports expiry exactly
    when [verifyAccessToken] rejects the token.  On arbitrary tokens it
    owes nothing to the signature, and every token without [exp], or with
    [exp] zero, is reported expired, also one the verifier accepts. *)
Theorem isTokenExpired_agrees_on_minted (now now' : Z) (p : JWTPayload) :
  (now / 1000 + JWT_EXPIRES_IN <> 0)%Z ->
  (isTokenExpired now' (access now p) = true <-> verify now' (access now p) = None) /\
  (forall t : Token,
     exp (payload t) = None \/ exp (payload t) = Some 0%Z ->
     isTokenExpired now' t = true) /\
  (forall t c,
     verify now' t = Some c -> (0 <= now')%Z ->
     (isTokenExpired now' t = true <-> exp c = None)).
Proof.
  intros Hexp. split; [|split].
  - rewrite verify_access. unfold isTokenExpired, truthyNumber.
    cbn [generateAccessToken jwt_sign payload exp default from_option id].
    destruct (Z.eqb_spec (now / 1000 + JWT_EXPIRES_IN) 0); [contradiction|].
    cbn [negb]. destruct (_ <=? _)%Z; split; congruence.
  - intros t [H|H]; unfold isTokenExpired; now rewrite H.
  - intros t c Hv Hnow. unfold verifyAccessToken, jwt_verify in Hv.
    destruct (negb (alg (header t) =? "HS256")%string); [discriminate|].
    destruct (negb (bool_decide _)); [discriminate|].
    unfold isTokenExpired, truthyNumber.
    destruct (exp (payload t)) as [e|] eqn:E.
    + rewrite TokenFacts.seconds_reached in Hv.
      destruct (Z.leb_spec (e * 1000) now'); [discriminate|].
      destruct (negb (bool_decide _)); [discriminate|].
      destruct (negb (bool_decide _)); [discriminate|].
      injection Hv as <-. rewrite E. cbn [default from_option id].
      destruct (Z.eqb_spec e 0); [lia|]. cbn [negb].
      destruct (Z.leb_spec (e * 1000) now'); [lia|]. split; discriminate.
    + destruct (negb (bool_decide _)); [discriminate|].
      destruct (negb (bool_decide _)); [discriminate|].
      injection Hv as <-. rewrite E. split; reflexivity.
Qed.

Lemma ascii_of_byte_inj (a b : byte) : ascii_of_byte a = ascii_of_byte b -> a = b.
Proof.
  intros H. rewrite <- (byte_of_ascii_of_byte a), <- (byte_of_ascii_of_byte b).
  now rewrite H.
Qed.

Lemma string_of_list_ascii_inj (a b : list ascii) :
  string_of_list_ascii a = string_of_list_ascii b -> a = b.
Proof.
  intros H. rewrite <- (list_ascii_of_string_of_list_ascii a),
    <- (list_ascii_of_string_of_list_ascii b). now rewrite H.
Qed.

Lemma map_ascii_of_byte_inj (a : list byte) :
  forall b, map ascii_of_byte a = map ascii_of_byte b -> a = b.
Proof.
  induction a as [|x a IH]; intros [|y b] H; try discriminate; [reflexivity|].
  cbn in H. injection H as Hxy Hab. f_equal; [now apply ascii_of_byte_inj|auto].
Qed.

Lemma binaryString_inj (a b : string) : binaryString a = binaryString b -> a = b.
Proof.
  unfold binaryString. intros H%string_of_list_ascii_inj%map_ascii_of_byte_inj.
  now apply SecureAuthUtilsFacts.utf8Bytes_inj.
Qed.

Lemma utf8Char_ascii (c : ascii) :
  (charCode c <? 128)%N = true ->
  map ascii_of_byte (SecureAuthUtils.utf8Char c) = [c].
Proof.
  destruct c as [[|] [|] [|] [|] [|] [|] [|] [|]]; intros H;
    try discriminate H; reflexivity.
Qed.

(** [atob] gives ASCII text back as it is. *)
Lemma binaryString_ascii (s : string) : asciiString s = true -> binaryString s = s.
Proof.
  unfold asciiString, binaryString.
  induction s as [|c s IH]; [reflexivity|]. cbn [forallb_str].
  intros [Hc Hs]%andb_true_iff. cbn [SecureAuthUtils.utf8Bytes].
  rewrite map_app, (utf8Char_ascii c Hc). cbn. now rewrite IH.
Qed.

Lemma nonEmpty_binaryString (s : string) : nonEmpty (binaryString s) = nonEmpty s.
Proof.
  destruct s as [|c s]; [reflexivity|]. unfold binaryString.
  cbn [SecureAuthUtils.utf8Bytes]. unfold SecureAuthUtils.utf8Char. cbv zeta.
  now destruct (charCode c <? 128)%N.
Qed.

Lemma truthy_binaryString (o : option string) :
  truthy (option_map binaryString o) = truthy o.
Proof. destruct o as [s|]; [apply nonEmpty_binaryString|reflexivity]. Qed.

Lemma bool_decide_binaryString (o : option string) (k : string) :
  binaryString k = k ->
  bool_decide (option_map binaryString o = Some k) = bool_decide (o = Some k).
Proof.
  intros Hk. apply bool_decide_ext. destruct o as [s|]; cbn; [|easy]. split.
  - intros [= H]. f_equal. apply binaryString_inj. now rewrite Hk.
  - intros [= ->]. now rewrite Hk.
Qed.

Lemma atobPayload_ascii (c : Claims) :
  asciiClaims (claims c) = true ->
  iss c = Some issuer -> aud c = Some audience ->
  atobPayload c = c.
Proof.
  unfold asciiClaims. intros H Hi Ha.
  apply andb_true_iff in H as [H H4]. apply andb_true_iff in H as [H H3].
  apply andb_true_iff in H as [H1 H2].
  destruct c as [[u n p r] i e s a].
  cbn [claims iss aud userId username phone role] in *. subst s a.
  unfold atobPayload.
  cbn [claims iss aud iat exp userId username phone role option_map].
  now rewrite !binaryString_ascii by (assumption || reflexivity).
Qed.

Lemma verifyJWTSignatureSync_true (now : Z) (t : Token) :
  verifyJWTSignatureSync HS256 JWT_SECRET now t = true ->
  JWT_SECRET <> "" /\
  iss (payload t) = Some issuer /\ aud (payload t) = Some audience /\
  signature t = HS256 JWT_SECRET (header t) (payload t) /\
  exists e, exp (payload t) = Some e /\ e <> 0%Z /\
            (now < e * 1000)%Z /\ (e <= now / 1000 + 86400)%Z.
Proof.
  unfold verifyJWTSignatureSync.
  destruct (nonEmpty JWT_SECRET) eqn:Hs; [|discriminate]. cbn [negb].
  cbv zeta. cbn [atobPayload iss aud exp].
  rewrite !truthy_binaryString, !bool_decide_binaryString by reflexivity.
  destruct (negb (truthy (iss (payload t))) || _ || _) eqn:Hreq; [discriminate|].
  apply orb_false_iff in Hreq as [_ Hexp]. apply negb_false_iff in Hexp.
  destruct (bool_decide (iss (payload t) = Some issuer)) eqn:Hi; [|discriminate].
  destruct (bool_decide (aud (payload t) = Some audience)) eqn:Ha; [|discriminate].
  cbn [negb orb].
  destruct (exp (payload t)) as [e|]; [|discriminate]. cbn [default from_option id].
  unfold truthyNumber in Hexp. apply negb_true_iff in Hexp.
  destruct (Z.leb_spec (e * 1000) now); [discriminate|].
  destruct (Z.ltb_spec e (now / 1000)); [discriminate|]. cbn [orb].
  destruct (Z.ltb_spec (now / 1000 + 24 * 60 * 60) e); [discriminate|].
  intros Hsig%bool_decide_eq_true.
  apply bool_decide_eq_true in Hi, Ha. apply CsrfFacts.nonEmpty_true in Hs.
  apply Z.eqb_neq in Hexp. change (24 * 60 * 60)%Z with 86400%Z in *.
  repeat (split; [assumption|]).
  exists e. split; [reflexivity|]. split; [assumption|]. split; [assumption|lia].
Qed.

Lemma middleware_accepts (now : Z) (t : Token) (c : Claims) :
  middleware now t = Some c ->
  c = atobPayload (payload t) /\ (alg (header t) =? "HS256")%string = true /\
  verifyJWTSignatureSync HS256 JWT_SECRET now t = true.
Proof.
  unfold verifyAccessTokenMiddleware.
  destruct (alg (header t) =? "HS256")%string; [|discriminate]. cbn [negb].
  cbv zeta.
  destruct (negb (bool_decide _) || negb (bool_decide _)); [discriminate|].
  destruct (truthyNumber _ && _); [discriminate|].
  destruct (verifyJWTSignatureSync _ _ _ _); [|discriminate]. cbn [negb].
  now intros [= <-].
Qed.

(** X11: the verifier of the middleware admits nothing that the verifier
    of the API routes refuses: a token accepted by
    [verifyAccessTokenMiddleware] is accepted by [verifyAccessToken];
    moreover a secret is configured, and the token has an [exp], which lies
    in the future and at most 24 hours ahead.  The payload the middleware
    returns is the one of [verifyAccessToken] read with [atob], which is
    the same payload when the user's identifier, name, phone and role are
    ASCII text. *)
Theorem middleware_admits_only_verified (now : Z) (t : Token) (c : Claims) :
  middleware now t = Some c ->
  verify now t = Some (payload t) /\ c = atobPayload (payload t) /\
  (asciiClaims (claims (payload t)) = true -> c = payload t) /\
  JWT_SECRET <> "" /\
  exists e, exp (payload t) = Some e /\ (now < e * 1000)%Z /\
            (e <= now / 1000 + 86400)%Z.
Proof.
  intros H. apply middleware_accepts in H as (-> & Halg & Hsync).
  apply verifyJWTSignatureSync_true in Hsync
    as (Hs & Hi & Ha & Hsig & e & He & _ & Hlt & Hcap).
  split; [|split; [reflexivity|split; [|split; [exact Hs|]]]].
  - unfold verifyAccessToken, jwt_verify. rewrite Halg, He.
    rewrite !bool_decide_eq_true_2 by assumption. cbn [negb].
    rewrite TokenFacts.seconds_reached.
    destruct (Z.leb_spec (e * 1000) now); [lia|reflexivity].
  - intros Hascii. now apply atobPayload_ascii.
  - exists e. now repeat split.
Qed.

Lemma middleware_access (now now' : Z) (p : JWTPayload) :
  JWT_SECRET <> "" -> (now / 1000 + JWT_EXPIRES_IN <> 0)%Z ->
  middleware now' (access now p) =
  if ((now / 1000 + JWT_EXPIRES_IN) * 1000 <=? now')%Z ||
     (now' / 1000 + 86400 <? now / 1000 + JWT_EXPIRES_IN)%Z
  then None else Some (atobPayload (payload (access now p))).
Proof.
  intros Hs%CsrfFacts.nonEmpty_true He.
  unfold verifyAccessTokenMiddleware, verifyJWTSignatureSync.
  rewrite Hs. cbv zeta.
  set (tok := access now p).
  assert (Hiss : iss (atobPayload (payload tok)) = Some issuer) by reflexivity.
  assert (Haud : aud (atobPayload (payload tok)) = Some audience) by reflexivity.
  assert (Hexp : exp (atobPayload (payload tok)) =
                 Some (now / 1000 + JWT_EXPIRES_IN)%Z) by reflexivity.
  assert (Hsig : signature tok = HS256 JWT_SECRET (header tok) (payload tok))
    by reflexivity.
  assert (Halg : (alg (header tok) =? "HS256")%string = true) by reflexivity.
  rewrite Hiss, Haud, Hexp, Halg.
  rewrite !bool_decide_eq_true_2 by (reflexivity || exact Hsig).
  cbn [truthyNumber default from_option id].
  destruct (Z.eqb_spec (now / 1000 + JWT_EXPIRES_IN) 0); [contradiction|].
  change (truthy (Some issuer)) with true. change (truthy (Some audience)) with true.
  cbn [negb orb andb].
  destruct (Z.leb_spec ((now / 1000 + JWT_EXPIRES_IN) * 1000) now') as [H|H];
    [reflexivity|]. cbn [negb orb].
  destruct (Z.ltb_spec (now / 1000 + JWT_EXPIRES_IN) (now' / 1000)) as [H1|H1].
  - exfalso.
    assert (now' / 1000 * 1000 <= now')%Z
      by (pose proof (Z.mul_div_le now' 1000); lia).
    lia.
  - cbn [orb]. change (24 * 60 * 60)%Z with 86400%Z.
    now destruct (_ <? _)%Z.
Qed.

(** X12: the 24-hour cap of the middleware on the tokens the code mints
    (a secret being configured and [exp] not zero): the middleware accepts
    an access token exactly while it is unexpired and its [exp] is at most
    24 hours ahead.  So with a configured lifetime of at most 24 hours the
    middleware accepts, at every instant from the minting on, exactly what
    [verifyAccessToken] accepts, with the payload read with [atob]; and
    with a longer lifetime a fresh token is refused by the middleware at
    the very instant of its minting although [verifyAccessToken] accepts
    it. *)
Theorem middleware_lifetime_cap (now now' : Z) (p : JWTPayload) :
  JWT_SECRET <> "" -> (now / 1000 + JWT_EXPIRES_IN <> 0)%Z ->
  (middleware now' (access now p) =
     Some (atobPayload (payload (access now p))) <->
   (now' < (now / 1000 + JWT_EXPIRES_IN) * 1000)%Z /\
   (now / 1000 + JWT_EXPIRES_IN <= now' / 1000 + 86400)%Z) /\
  ((JWT_EXPIRES_IN <= 86400)%Z -> (now <= now')%Z ->
   middleware now' (access now p) =
   option_map atobPayload (verify now' (access now p))) /\
  ((86400 < JWT_EXPIRES_IN)%Z ->
   middleware now (access now p) = None /\
   verify now (access now p) = Some (payload (access now p))).
Proof.
  intros Hs He. rewrite !middleware_access, !verify_access by assumption.
  assert (Hfloor : (now / 1000 * 1000 <= now < now / 1000 * 1000 + 1000)%Z).
  { pose proof (Z.mul_div_le now 1000). pose proof (Z.mul_succ_div_gt now 1000). lia. }
  split; [|split].
  - destruct (Z.leb_spec ((now / 1000 + JWT_EXPIRES_IN) * 1000) now');
      destruct (Z.ltb_spec (now' / 1000 + 86400) (now / 1000 + JWT_EXPIRES_IN));
      cbn [orb]; split; try discriminate; try lia; reflexivity.
  - intros Hcap Hle.
    assert (now / 1000 <= now' / 1000)%Z by (apply Z.div_le_mono; lia).
    destruct (Z.leb_spec ((now / 1000 + JWT_EXPIRES_IN) * 1000) now');
      [reflexivity|].
    destruct (Z.ltb_spec (now' / 1000 + 86400) (now / 1000 + JWT_EXPIRES_IN));
      [lia|reflexivity].
  - intros Hlong.
    destruct (Z.leb_spec ((now / 1000 + JWT_EXPIRES_IN) * 1000) now); [lia|].
    destruct (Z.ltb_spec (now / 1000 + 86400) (now / 1000 + JWT_EXPIRES_IN));
      [|lia]. split; reflexivity.
Qed.

Section Unawaited.

Variable atobReads : Header -> Claims -> bool.

(** X13: [verifyAccessTokenSecure] never checks the signature: it calls
    the asynchronous [verifyJWTSignature] without [await] and tests the
    promise, which is truthy.  So for every token that
    [verifyAccessToken] accepts and whose segments [atob] reads, the token
    with any other signature segment is accepted, with the payload read
    with [atob], under any configured secret or none, while
    [verifyAccessToken] and [verifyAccessTokenMiddleware] both refuse that
    forged token. *)
Theorem unawaited_signature_check
    (now : Z) (t : Token) (c : Claims) (forged : list byte) :
  verify now t = Some c ->
  atobReads (header t) (payload t) = true ->
  forged <> signature t ->
  (forall secret : string,
     verifyAccessTokenSecure HS256 secret atobReads now (withSignature t forged) =
     Some (atobPayload c)) /\
  verify now (withSignature t forged) = None /\
  middleware now (withSignature t forged) = None.
Proof.
  intros Hv Hread Hforged.
  unfold verifyAccessToken, jwt_verify in Hv.
  destruct (alg (header t) =? "HS256")%string eqn:Halg; [|discriminate].
  cbn [negb] in Hv.
  destruct (bool_decide (signature t = _)) eqn:Hsig; [|discriminate].
  apply bool_decide_eq_true in Hsig. cbn [negb] in Hv.
  assert (Hbad : bool_decide
            (forged = HS256 JWT_SECRET (header t) (payload t)) = false).
  { apply bool_decide_eq_false. congruence. }
  split; [|split].
  - intros secret. unfold verifyAccessTokenSecure, withSignature.
    cbn [header payload signature truthyObject negb].
    rewrite Hread, Halg. cbn [negb]. cbv zeta. cbn [atobPayload iss aud exp].
    rewrite !bool_decide_binaryString by reflexivity.
    destruct (exp (payload t)) as [e|] eqn:E.
    + rewrite TokenFacts.seconds_reached in Hv. cbn [default from_option id].
      destruct (Z.leb_spec (e * 1000) now); [discriminate|].
      destruct (bool_decide (aud (payload t) = Some audience)); [|discriminate].
      destruct (bool_decide (iss (payload t) = Some issuer)); [|discriminate].
      cbn [negb orb]. rewrite andb_false_r.
      injection Hv as <-. unfold atobPayload. now rewrite E.
    + destruct (bool_decide (aud (payload t) = Some audience)); [|discriminate].
      destruct (bool_decide (iss (payload t) = Some issuer)); [|discriminate].
      cbn [negb orb truthyNumber andb].
      injection Hv as <-. unfold atobPayload. now rewrite E.
  - unfold verifyAccessToken, jwt_verify, withSignature.
    cbn [header payload signature]. now rewrite Halg, Hbad.
  - destruct (middleware now (withSignature t forged)) as [c'|] eqn:Hm;
      [|reflexivity].
    apply middleware_accepts in Hm as (_ & _ & Hsync).
    apply verifyJWTSignatureSync_true in Hsync as (_ & _ & _ & Hsig' & _).
    unfold withSignature in Hsig'. cbn [header payload signature] in Hsig'.
    apply bool_decide_eq_false in Hbad. contradiction.
Qed.

End Unawaited.

(** X14: the legacy pair [generateAuthToken] / [decodeAuthToken]: before
    the expiry the decoded session repeats the code, name and phone, is
    marked verified, carries as [timestamp] the minting instant rounded
    down to the second and as [expiresAt] that timestamp plus the
    configured lifetime, and [expiresAt] is the very instant from which
    the token is refused. *)
Theorem decodeAuthToken_generateAuthToken
    (now now' : Z) (data : SecureAuth.SessionData) :
  let token := generateAuthToken HS256 JWT_SECRET JWT_EXPIRES_IN now data in
  ((now' < (now / 1000 + JWT_EXPIRES_IN) * 1000)%Z ->
   exists s, decodeAuthToken HS256 JWT_SECRET now' token = Some s /\
     code s = SecureAuth.code data /\ name s = SecureAuth.name data /\
     whatsappNumber s = SecureAuth.whatsappNumber data /\
     verified s = true /\
     (timestamp s <= now < timestamp s + 1000)%Z /\
     expiresAt s = (timestamp s + JWT_EXPIRES_IN * 1000)%Z /\
     (now' < expiresAt s)%Z /\
     decodeAuthToken HS256 JWT_SECRET (expiresAt s) token = None) /\
  (((now / 1000 + JWT_EXPIRES_IN) * 1000 <= now')%Z ->
   decodeAuthToken HS256 JWT_SECRET now' token = None).
Proof.
  intros token. subst token. unfold decodeAuthToken, generateAuthToken.
  rewrite !verify_access.
  assert (Hfloor : (now / 1000 * 1000 <= now < now / 1000 * 1000 + 1000)%Z).
  { pose proof (Z.mul_div_le now 1000). pose proof (Z.mul_succ_div_gt now 1000). lia. }
  split; intros H.
  - destruct (Z.leb_spec ((now / 1000 + JWT_EXPIRES_IN) * 1000) now'); [lia|].
    eexists. split; [reflexivity|].
    cbn [code name whatsappNumber verified timestamp expiresAt
         generateAccessToken jwt_sign payload claims userId username phone
         iat exp default from_option id].
    repeat split; try lia.
    rewrite verify_access.
    destruct (Z.leb_spec ((now / 1000 + JWT_EXPIRES_IN) * 1000)
                ((now / 1000 + JWT_EXPIRES_IN) * 1000)); [reflexivity|lia].
  - destruct (Z.leb_spec ((now / 1000 + JWT_EXPIRES_IN) * 1000) now');
      [reflexivity|lia].
Qed.

End Tokens.

Lemma refresh_token_verifies_as_access_token_witness :
  let pair := generateTokenPair SecureAuth.exampleDigest "secret" 3600 604800 0
                {| userId := "X7K2M9"; username := "Ann";
                   phone := "15551234567"; role := "user" |} in
  verifyAccessToken SecureAuth.exampleDigest "secret" 3600000 (fst pair) = None /\
  (exists c, verifyAccessToken SecureAuth.exampleDigest "secret" 3600000 (snd pair) =
             Some c /\
             claims c = {| userId := "X7K2M9"; username := "Ann";
                           phone := "15551234567"; role := "user" |} /\
             SecureAuth.verifySecureToken SecureAuth.exampleDigest "secret" 3600000
               (snd pair) =
             Some {| SecureAuth.code := "X7K2M9";
                     SecureAuth.name := "Ann";
                     SecureAuth.whatsappNumber := "15551234567";
                     SecureAuth.verified := true |}) /\
  header (snd pair) = header (fst pair) /\
  claims (payload (snd pair)) = claims (payload (fst pair)) /\
  iat (payload (snd pair)) = iat (payload (fst pair)) /\
  iss (payload (snd pair)) = iss (payload (fst pair)) /\
  aud (payload (snd pair)) = aud (payload (fst pair)).
Proof.
  apply (refresh_token_verifies_as_access_token SecureAuth.exampleDigest "secret"
           3600 604800 0 3600000); vm_compute; [discriminate|reflexivity].
Defined.

Lemma isTokenExpired_agrees_on_minted_witness :
  let token := generateAccessToken SecureAuth.exampleDigest "secret" 3600 0
                 {| userId := "X7K2M9"; username := "Ann";
                    phone := "15551234567"; role := "user" |} in
  (isTokenExpired 3600000 token = true <->
   verifyAccessToken SecureAuth.exampleDigest "secret" 3600000 token = None) /\
  (forall t : Token,
     exp (payload t) = None \/ exp (payload t) = Some 0%Z ->
     isTokenExpired 3600000 t = true) /\
  (forall t c,
     verifyAccessToken SecureAuth.exampleDigest "secret" 3600000 t = Some c ->
     (0 <= 3600000)%Z ->
     (isTokenExpired 3600000 t = true <-> exp c = None)).
Proof.
  apply (isTokenExpired_agrees_on_minted SecureAuth.exampleDigest "secret" 3600
           0 3600000). vm_compute. discriminate.
Defined.

Lemma middleware_admits_only_verified_witness :
  let token := generateAccessToken SecureAuth.exampleDigest "secret" 3600 0
                 {| userId := "X7K2M9"; username := "Ann";
                    phone := "15551234567"; role := "user" |} in
  verifyAccessToken SecureAuth.exampleDigest "secret" 1000 token =
    Some (payload token) /\
  payload token = atobPayload (payload token) /\
  (asciiClaims (claims (payload token)) = true -> payload token = payload token) /\
  "secret" <> "" /\
  exists e, exp (payload token) = Some e /\ (1000 < e * 1000)%Z /\
            (e <= 1000 / 1000 + 86400)%Z.
Proof.
  intros token.
  apply (middleware_admits_only_verified SecureAuth.exampleDigest "secret" 1000
           token (payload token)).
  vm_compute. reflexivity.
Defined.

Lemma middleware_lifetime_cap_witness :
  let p := {| userId := "X7K2M9"; username := "Ann";
              phone := "15551234567"; role := "user" |} in
  let token := generateAccessToken SecureAuth.exampleDigest "secret" 172800 0 p in
  verifyAccessTokenMiddleware SecureAuth.exampleDigest "secret" 0 token = None /\
  verifyAccessToken SecureAuth.exampleDigest "secret" 0 token =
    Some (payload token).
Proof.
  intros p token.
  apply (proj2 (proj2 (middleware_lifetime_cap SecureAuth.exampleDigest "secret"
                         172800 0 0 p ltac:(discriminate) ltac:(vm_compute; discriminate)))).
  reflexivity.
Defined.

Lemma unawaited_signature_check_witness :
  let token := generateAccessToken SecureAuth.exampleDigest "secret" 3600 0
                 {| userId := "X7K2M9"; username := "Ann";
                    phone := "15551234567"; role := "user" |} in
  (forall secret : string,
     verifyAccessTokenSecure SecureAuth.exampleDigest secret (fun _ _ => true)
       1000 (withSignature token []) = Some (atobPayload (payload token))) /\
  verifyAccessToken SecureAuth.exampleDigest "secret" 1000
    (withSignature token []) = None /\
  verifyAccessTokenMiddleware SecureAuth.exampleDigest "secret" 1000
    (withSignature token []) = None.
Proof.
  intros token.
  apply (unawaited_signature_check SecureAuth.exampleDigest "secret"
           (fun _ _ => true) 1000 token (payload token) []);
    [vm_compute; reflexivity | reflexivity | vm_compute; discriminate].
Defined.

Lemma decodeAuthToken_generateAuthToken_witness :
  let data := {| SecureAuth.code := "X7K2M9"; SecureAuth.name := "Ann";
                 SecureAuth.whatsappNumber := "15551234567";
                 SecureAuth.verified := false |} in
  let token := generateAuthToken SecureAuth.exampleDigest "secret" 3600 1500 data in
  (exists s, decodeAuthToken SecureAuth.exampleDigest "secret" 2000 token = Some s /\
     code s = "X7K2M9" /\ name s = "Ann" /\ whatsappNumber s = "15551234567" /\
     verified s = true /\
     (timestamp s <= 1500 < timestamp s + 1000)%Z /\
     expiresAt s = (timestamp s + 3600 * 1000)%Z /\
     (2000 < expiresAt s)%Z /\
     decodeAuthToken SecureAuth.exampleDigest "secret" (expiresAt s) token = None) /\
  decodeAuthToken SecureAuth.exampleDigest "secret" 3601000 token = None.
Proof.
  intros data token. split.
  - apply (proj1 (decodeAuthToken_generateAuthToken SecureAuth.exampleDigest
                    "secret" 3600 1500 2000 data)). reflexivity.
  - apply (proj2 (decodeAuthToken_generateAuthToken SecureAuth.exampleDigest
                    "secret" 3600 1500 3601000 data)). vm_compute. discriminate.
Defined.

End JwtMoreFacts.

(** ** The sanitizer *)

Module MarkupFacts.
Import Chars Sanitize Markup CharFacts.

Lemma Deleted_refl (s : string) : Deleted s s.
Proof. induction s; [apply deleted_nil|now apply deleted_keep]. Qed.

Lemma Deleted_trans (a b c : string) : Deleted a b -> Deleted b c -> Deleted a c.
Proof.
  intros Hab. revert c. induction Hab as [|x s t _ IH|x s t _ IH]; intros c Hbc.
  - exact Hbc.
  - apply deleted_skip. now apply IH.
  - inversion Hbc; subst; [apply deleted_skip|apply deleted_keep]; now apply IH.
Qed.

Lemma Deleted_length (s t : string) :
  Deleted s t -> (String.length t <= String.length s)%nat.
Proof. induction 1; cbn; lia. Qed.

Lemma Deleted_empty (s : string) : Deleted s "".
Proof. induction s; [apply deleted_nil|now apply deleted_skip]. Qed.

Lemma Deleted_substringFrom (n : nat) (s : string) : Deleted s (substringFrom n s).
Proof.
  revert s. induction n as [|n IH]; intros [|c s]; cbn [substringFrom];
    try apply Deleted_refl.
  apply deleted_skip. apply IH.
Qed.

Lemma Deleted_removeMatches (matchAt : string -> option nat) (fuel : nat) :
  forall s : string, Deleted s (removeMatches fuel matchAt s).
Proof.
  induction fuel as [|fuel IH]; intros s; [apply Deleted_refl|].
  destruct s as [|c t]; [apply deleted_nil|]. cbn [removeMatches].
  destruct (matchAt (String c t)) as [n|].
  - eapply Deleted_trans; [apply Deleted_substringFrom|apply IH].
  - apply deleted_keep. apply IH.
Qed.

Lemma Deleted_trimStart (s : string) : Deleted s (trimStart s).
Proof.
  induction s as [|c s IH]; [apply deleted_nil|]. cbn [trimStart].
  destruct (isSpace c); [now apply deleted_skip|apply Deleted_refl].
Qed.

Lemma Deleted_trimEnd (s : string) : Deleted s (trimEnd s).
Proof.
  induction s as [|c s IH]; [apply deleted_nil|]. cbn [trimEnd].
  destruct (trimEnd s) as [|d t].
  - destruct (isSpace c); [apply Deleted_empty|].
    apply deleted_keep. exact IH.
  - apply deleted_keep. exact IH.
Qed.

Lemma Deleted_sanitizeUserInput (input : string) :
  Deleted input (sanitizeUserInput input).
Proof.
  unfold sanitizeUserInput, trim, replaceAll.
  do 4 (eapply Deleted_trans; [apply Deleted_removeMatches|]).
  eapply Deleted_trans; [apply Deleted_trimStart|apply Deleted_trimEnd].
Qed.

Lemma Deleted_existsb (p : ascii -> bool) (s t : string) :
  Deleted s t -> existsb_str p s = false -> existsb_str p t = false.
Proof.
  induction 1 as [|c s t _ IH|c s t _ IH]; cbn [existsb_str]; intros H.
  - reflexivity.
  - apply orb_false_iff in H as [_ H]. auto.
  - apply orb_false_iff in H as [-> H]. cbn. auto.
Qed.

Lemma Deleted_noTag (s t : string) : Deleted s t -> noTag s = true -> noTag t = true.
Proof.
  induction 1 as [|c s t Hd IH|c s t Hd IH]; cbn [noTag]; intros H.
  - reflexivity.
  - apply andb_true_iff in H as [_ H]. auto.
  - apply andb_true_iff in H as [Hc H]. rewrite (IH H), andb_true_r.
    destruct (isLt c); [|reflexivity]. cbn in Hc |- *.
    apply negb_true_iff in Hc. now rewrite (Deleted_existsb _ _ _ Hd Hc).
Qed.

Lemma indexOfChar_none (s : string) :
  indexOfChar ">" s = None -> existsb_str isGt s = false.
Proof.
  induction s as [|c s IH]; [reflexivity|]. cbn [indexOfChar existsb_str].
  unfold isGt at 1. destruct (Ascii.eqb c ">"); [discriminate|].
  destruct (indexOfChar ">" s); [discriminate|]. auto.
Qed.

(** Once the tags are removed, no tag is left. *)
Lemma noTag_removeMatches (fuel : nat) :
  forall s : string,
    (String.length s <= fuel)%nat ->
    noTag (removeMatches fuel matchTag s) = true.
Proof.
  induction fuel as [|fuel IH]; intros s Hlen.
  - destruct s; [reflexivity|cbn in Hlen; lia].
  - destruct s as [|c t]; [reflexivity|]. cbn [removeMatches].
    cbn in Hlen. unfold matchTag.
    destruct (Ascii.eqb c "<") eqn:Ec.
    + destruct (indexOfChar ">" t) as [k|] eqn:Ek; cbn [option_map].
      * apply IH. replace (k + 2)%nat with (S (S k)) by lia.
        change (substringFrom (S (S k)) (String c t)) with (substringFrom (S k) t).
        pose proof (WhatsAppFacts.length_substringFrom (S k) t). lia.
      * cbn [noTag]. rewrite IH by lia. rewrite andb_true_r.
        rewrite (Deleted_existsb isGt t _ (Deleted_removeMatches _ _ _)
                   (indexOfChar_none _ Ek)).
        now rewrite andb_false_r.
    + cbn [noTag]. unfold isLt. rewrite Ec. cbn. apply IH. lia.
Qed.

Lemma plain_lower (c : ascii) :
  plain c = true ->
  Ascii.eqb "<" (toLowerChar c) = false /\ Ascii.eqb ":" (toLowerChar c) = false /\
  Ascii.eqb c "=" = false /\ Ascii.eqb c "<" = false.
Proof.
  destruct c as [[|] [|] [|] [|] [|] [|] [|] [|]]; intros H;
    try discriminate H; repeat split.
Qed.

(** A pattern with a code unit that the input lacks matches nowhere. *)
Lemma startsWithCI_lacking (bad : ascii) :
  (forall c, plain c = true -> Ascii.eqb bad (toLowerChar c) = false) ->
  forall p s : string,
    existsb_str (Ascii.eqb bad) p = true -> forallb_str plain s = true ->
    startsWithCI p s = false.
Proof.
  intros Hbad. induction p as [|a p IH]; intros s Hp Hs; [discriminate|].
  destruct s as [|b s]; [reflexivity|]. cbn [startsWithCI].
  cbn [existsb_str forallb_str] in Hp, Hs.
  apply andb_true_iff in Hs as [Hb Hs].
  apply orb_true_iff in Hp as [Ha|Hp].
  - apply Ascii.eqb_eq in Ha. subst a. now rewrite (Hbad b Hb).
  - rewrite (IH s Hp Hs). apply andb_false_r.
Qed.

Lemma headIs_plain (p : ascii -> bool) (s : string) :
  (forall c, plain c = true -> p c = false) ->
  forallb_str plain s = true -> headIs p s = false.
Proof.
  intros Hp. destruct s as [|c s]; [reflexivity|]. cbn.
  intros [Hc _]%andb_true_iff. auto.
Qed.

Lemma matchers_plain (s : string) :
  forallb_str plain s = true ->
  matchScript s = None /\ matchTag s = None /\
  matchJavascript s = None /\ matchHandler s = None.
Proof.
  intros Hs. repeat split.
  - unfold matchScript.
    rewrite (startsWithCI_lacking "<" (fun c H => proj1 (plain_lower c H))
               "<script" s eq_refl Hs). reflexivity.
  - unfold matchTag. destruct s as [|c t]; [reflexivity|].
    cbn in Hs. apply andb_true_iff in Hs as [Hc _].
    destruct (plain_lower c Hc) as (_ & _ & _ & ->). reflexivity.
  - unfold matchJavascript.
    rewrite (startsWithCI_lacking ":"
               (fun c H => proj1 (proj2 (plain_lower c H)))
               "javascript:" s eq_refl Hs). reflexivity.
  - unfold matchHandler. destruct (startsWithCI "on" s); [|reflexivity].
    cbv zeta. destruct (_ =? 0)%nat; [reflexivity|].
    rewrite headIs_plain; [reflexivity| |].
    + intros c Hc. now destruct (plain_lower c Hc) as (_ & _ & -> & _).
    + now repeat apply ValidationFacts.forallb_str_substringFrom.
Qed.

Lemma removeMatches_plain (matchAt : string -> option nat) (fuel : nat) :
  (forall t, forallb_str plain t = true -> matchAt t = None) ->
  forall s, forallb_str plain s = true -> removeMatches fuel matchAt s = s.
Proof.
  intros Hm. induction fuel as [|fuel IH]; intros s Hs; [reflexivity|].
  destruct s as [|c t]; [reflexivity|]. cbn [removeMatches].
  rewrite (Hm _ Hs). cbn in Hs. apply andb_true_iff in Hs as [_ Ht].
  now rewrite (IH t Ht).
Qed.

(** A string without the three code units, already trimmed, is left as it
    is. *)
Lemma sanitizeUserInput_plain (input : string) :
  forallb_str plain input = true -> trim input = input ->
  sanitizeUserInput input = input.
Proof.
  intros Hplain Htrim. unfold sanitizeUserInput, replaceAll.
  rewrite (removeMatches_plain matchScript _
             (fun t H => proj1 (matchers_plain t H)) _ Hplain).
  rewrite (removeMatches_plain matchTag _
             (fun t H => proj1 (proj2 (matchers_plain t H))) _ Hplain).
  rewrite (removeMatches_plain matchJavascript _
             (fun t H => proj1 (proj2 (proj2 (matchers_plain t H)))) _ Hplain).
  rewrite (removeMatches_plain matchHandler _
             (fun t H => proj2 (proj2 (proj2 (matchers_plain t H)))) _ Hplain).
  exact Htrim.
Qed.

Lemma trimEnd_id (s : string) :
  forallb_str (fun c => negb (isSpace c)) s = true -> trimEnd s = s.
Proof.
  induction s as [|c s IH]; [reflexivity|]. cbn [forallb_str trimEnd].
  intros [Hc Hs]%andb_true_iff. rewrite (IH Hs).
  apply negb_true_iff in Hc. rewrite Hc. now destruct s.
Qed.

Lemma trim_id (s : string) :
  forallb_str (fun c => negb (isSpace c)) s = true -> trim s = s.
Proof.
  intros H. unfold trim.
  assert (E : trimStart s = s).
  { destruct s as [|c s]; [reflexivity|]. cbn in H |- *.
    apply andb_true_iff in H as [Hc _]. apply negb_true_iff in Hc.
    now rewrite Hc. }
  rewrite E. now apply trimEnd_id.
Qed.

Lemma upper_digit_plain (c : ascii) :
  (isUpper c || isDigit c) = true -> plain c = true /\ negb (isSpace c) = true.
Proof.
  destruct c as [[|] [|] [|] [|] [|] [|] [|] [|]]; intros H;
    try discriminate H; split; reflexivity.
Qed.

(** A string of capital letters and digits, such as a verification code or
    a phone number in digits, passes the sanitizer unchanged. *)
Lemma sanitizeUserInput_upper_digits (s : string) :
  forallb_str (fun c => isUpper c || isDigit c) s = true ->
  sanitizeUserInput s = s.
Proof.
  intros H. apply sanitizeUserInput_plain.
  - eapply WhatsAppFacts.forallb_str_impl; [|exact H].
    intros c Hc. apply (upper_digit_plain c Hc).
  - apply trim_id. eapply WhatsAppFacts.forallb_str_impl; [|exact H].
    intros c Hc. apply (upper_digit_plain c Hc).
Qed.

(** X15: [sanitizeUserInput] only deletes code units, and what it returns
    holds no tag: no ["<"] with a [">"] anywhere behind it, so in
    particular no script element; it neither starts nor ends with
    whitespace.  A string without ["<"], [":"] and ["="] that is already
    trimmed, such as a verification code, comes back unchanged. *)
Theorem sanitizeUserInput_leaves_no_tag (input : string) :
  Deleted input (sanitizeUserInput input) /\
  noTag (sanitizeUserInput input) = true /\
  (String.length (sanitizeUserInput input) <= String.length input)%nat /\
  headIs isSpace (sanitizeUserInput input) = false /\
  (forallb_str plain input = true -> trim input = input ->
   sanitizeUserInput input = input).
Proof.
  split; [apply Deleted_sanitizeUserInput|]. split; [|split; [|split]].
  - unfold sanitizeUserInput, trim, replaceAll.
    eapply Deleted_noTag.
    { eapply Deleted_trans; [apply Deleted_removeMatches|].
      eapply Deleted_trans; [apply Deleted_removeMatches|].
      eapply Deleted_trans; [apply Deleted_trimStart|apply Deleted_trimEnd]. }
    apply noTag_removeMatches. reflexivity.
  - apply Deleted_length, Deleted_sanitizeUserInput.
  - unfold sanitizeUserInput, trim.
    apply ValidationFacts.trimEnd_head, ValidationFacts.trimStart_head.
  - apply sanitizeUserInput_plain.
Qed.

Lemma sanitizeUserInput_leaves_no_tag_witness :
  noTag (sanitizeUserInput "X7K2M9") = true /\
  sanitizeUserInput "X7K2M9" = "X7K2M9".
Proof.
  split.
  - exact (proj1 (proj2 (sanitizeUserInput_leaves_no_tag "X7K2M9"))).
  - apply (proj2 (proj2 (proj2 (proj2 (sanitizeUserInput_leaves_no_tag "X7K2M9")))));
      reflexivity.
Defined.

End MarkupFacts.

(** ** The session-keyed CSRF store *)

Module CsrfStoreFacts.
Import Chars Hex CsrfStore CharFacts.

Lemma utf8Bytes_length_ascii (s : string) :
  forallb_str (fun c => (charCode c <? 128)%N) s = true ->
  List.length (SecureAuthUtils.utf8Bytes s) = String.length s.
Proof.
  induction s as [|c s IH]; [reflexivity|]. cbn [forallb_str].
  intros [Hc Hs]%andb_true_iff. cbn [SecureAuthUtils.utf8Bytes String.length].
  unfold SecureAuthUtils.utf8Char. cbv zeta. rewrite Hc. cbn. now rewrite IH.
Qed.

Lemma isHex_ascii (c : ascii) : isHex c = true -> (charCode c <? 128)%N = true.
Proof. destruct c as [[|] [|] [|] [|] [|] [|] [|] [|]]; intros H; now try discriminate H. Qed.

Lemma utf8Bytes_length_hex (bs : list byte) :
  List.length (SecureAuthUtils.utf8Bytes (hexOfBytes bs)) = (2 * List.length bs)%nat.
Proof.
  rewrite utf8Bytes_length_ascii; [apply length_hexOfBytes|].
  eapply WhatsAppFacts.forallb_str_impl; [exact isHex_ascii|].
  apply forallb_str_hexOfBytes.
Qed.

Lemma bool_decide_utf8Bytes (a b : string) :
  bool_decide (SecureAuthUtils.utf8Bytes a = SecureAuthUtils.utf8Bytes b) =
  bool_decide (a = b).
Proof.
  apply bool_decide_ext. split.
  - apply SecureAuthUtilsFacts.utf8Bytes_inj.
  - now intros ->.
Qed.

(** [validateCSRFToken] on a stored token that has not expired. *)
Lemma validateCSRFToken_live (sessionId t : string) (now : Z)
    (csrfTokens : gmap string CSRFToken) (stored : CSRFToken) :
  csrfTokens !! sessionId = Some stored -> (now <= expiresAt stored)%Z ->
  validateCSRFToken sessionId t now csrfTokens =
  (csrfTokens,
   if (List.length (SecureAuthUtils.utf8Bytes (token stored)) =?
       List.length (SecureAuthUtils.utf8Bytes t))%nat
   then Returned (bool_decide (token stored = t)) else Thrown).
Proof.
  intros Hs Hlive. unfold validateCSRFToken. rewrite Hs.
  destruct (Z.ltb_spec (expiresAt stored) now); [lia|].
  unfold WebhookSig.crypto_timingSafeEqual.
  destruct (_ =? _)%nat; cbn [negb]; [|reflexivity].
  now rewrite bool_decide_utf8Bytes.
Qed.

(** X16: the life of a token of the session-keyed store.  The token that
    [generateCSRFToken] returns for a session is accepted for that session
    at every instant up to and including ten minutes later, and the store
    is left as it is, so the token can be used again; later it is refused
    and the entry is deleted.  Validation for another session is not
    affected; generating again for the same session kills the earlier
    token at once; and after [clearCSRFToken] the token is refused. *)
Theorem csrf_store_token_life
    (randomBytes : nat -> byte) (sessionId : string) (now now' : Z)
    (csrfTokens : gmap string CSRFToken) :
  let issued := generateCSRFToken randomBytes sessionId now csrfTokens in
  String.length issued.2 = 128%nat /\
  ((now' <= now + 600000)%Z ->
   validateCSRFToken sessionId issued.2 now' issued.1 = (issued.1, Returned true)) /\
  ((now + 600000 < now')%Z ->
   validateCSRFToken sessionId issued.2 now' issued.1 =
   (delete sessionId csrfTokens, Returned false)) /\
  (forall other t : string,
     other <> sessionId ->
     (validateCSRFToken other t now' issued.1).2 =
     (validateCSRFToken other t now' csrfTokens).2) /\
  (forall (randomBytes' : nat -> byte) (now2 : Z),
     let again := generateCSRFToken randomBytes' sessionId now2 issued.1 in
     again.2 <> issued.2 -> (now' <= now2 + 600000)%Z ->
     validateCSRFToken sessionId issued.2 now' again.1 = (again.1, Returned false)) /\
  (validateCSRFToken sessionId issued.2 now' (clearCSRFToken sessionId issued.1)).2 =
  Returned false.
Proof.
  intros issued. subst issued. unfold generateCSRFToken. cbv zeta. cbn [fst snd].
  change (10 * 60 * 1000)%Z with 600000%Z.
  set (tok := hexOfBytes (map randomBytes (seq 0 64))).
  assert (Hlen : String.length tok = 128%nat).
  { subst tok. now rewrite length_hexOfBytes, length_map, length_seq. }
  split; [exact Hlen|]. split; [|split; [|split; [|split]]].
  - intros Hlive.
    rewrite (validateCSRFToken_live sessionId tok now' _
               {| token := tok; expiresAt := now + 600000 |});
      [|apply lookup_insert_eq|cbn; lia].
    cbn [token]. rewrite Nat.eqb_refl. now rewrite bool_decide_eq_true_2.
  - intros Hdead. unfold validateCSRFToken. rewrite lookup_insert_eq.
    cbn [expiresAt]. destruct (Z.ltb_spec (now + 600000) now'); [|lia].
    now rewrite delete_insert_eq.
  - intros other t Hother. unfold validateCSRFToken.
    rewrite lookup_insert_ne by congruence.
    destruct (csrfTokens !! other) as [stored|]; [|reflexivity].
    destruct (_ <? _)%Z; [reflexivity|].
    now destruct (WebhookSig.crypto_timingSafeEqual _ _).
  - intros randomBytes' now2. cbv zeta. cbn [fst snd].
    set (tok2 := hexOfBytes (map randomBytes' (seq 0 64))).
    intros Hne Hlive.
    rewrite (validateCSRFToken_live sessionId tok now' _
               {| token := tok2; expiresAt := now2 + 600000 |});
      [|apply lookup_insert_eq|cbn; lia].
    cbn [token]. subst tok tok2. rewrite !utf8Bytes_length_hex.
    rewrite Nat.eqb_refl. now rewrite bool_decide_eq_false_2.
  - unfold clearCSRFToken, validateCSRFToken. now rewrite lookup_delete_eq.
Qed.

Lemma csrf_store_token_life_witness :
  let issued := generateCSRFToken (fun _ => x2a) "session-1" 0 ∅ in
  String.length issued.2 = 128%nat /\
  validateCSRFToken "session-1" issued.2 600000 issued.1 = (issued.1, Returned true) /\
  validateCSRFToken "session-1" issued.2 600001 issued.1 =
  (delete "session-1" ∅, Returned false).
Proof.
  intros issued. split; [|split].
  - exact (proj1 (csrf_store_token_life (fun _ => x2a) "session-1" 0 0 ∅)).
  - apply (proj1 (proj2 (csrf_store_token_life (fun _ => x2a) "session-1" 0 600000 ∅))).
    reflexivity.
  - apply (proj1 (proj2 (proj2
             (csrf_store_token_life (fun _ => x2a) "session-1" 0 600001 ∅)))).
    reflexivity.
Defined.

(** X17: what [validateCSRFToken] answers.  It returns [true] exactly when
    the store holds, under the session identifier, a token that has not
    expired and equals the submitted one; it throws, instead of returning
    [false], exactly when such a live token is there and the submitted
    string has another length in bytes; the store changes only by the
    deletion of the entry of the session, and that exactly when the entry
    has expired. *)
Theorem validateCSRFToken_spec (sessionId t : string) (now : Z)
    (csrfTokens : gmap string CSRFToken) :
  let result := validateCSRFToken sessionId t now csrfTokens in
  (result.2 = Returned true <->
   exists stored, csrfTokens !! sessionId = Some stored /\
                  (now <= expiresAt stored)%Z /\ token stored = t) /\
  (result.2 = Thrown <->
   exists stored, csrfTokens !! sessionId = Some stored /\
                  (now <= expiresAt stored)%Z /\
                  List.length (SecureAuthUtils.utf8Bytes (token stored)) <>
                  List.length (SecureAuthUtils.utf8Bytes t)) /\
  (result.1 = csrfTokens \/
   result.1 = delete sessionId csrfTokens /\
   exists stored, csrfTokens !! sessionId = Some stored /\
                  (expiresAt stored < now)%Z).
Proof.
  cbv zeta. destruct (csrfTokens !! sessionId) as [stored|] eqn:Hs.
  - destruct (Z.ltb_spec (expiresAt stored) now) as [Hdead|Hlive].
    + unfold validateCSRFToken. rewrite Hs.
      destruct (Z.ltb_spec (expiresAt stored) now); [|lia]. cbn [fst snd].
      split; [|split].
      * split; [discriminate|]. intros (s & [= <-] & ? & _). lia.
      * split; [discriminate|]. intros (s & [= <-] & ? & _). lia.
      * right. split; [reflexivity|]. now exists stored.
    + rewrite (validateCSRFToken_live _ _ _ _ _ Hs Hlive). cbn [fst snd].
      split; [|split; [|now left]].
      * destruct (Nat.eqb_spec (List.length (SecureAuthUtils.utf8Bytes (token stored)))
                    (List.length (SecureAuthUtils.utf8Bytes t))) as [He|He].
        -- split.
           ++ intros [= Hb]. apply bool_decide_eq_true in Hb. now exists stored.
           ++ intros (s & [= <-] & _ & Ht). now rewrite bool_decide_eq_true_2.
        -- split; [discriminate|]. intros (s & [= <-] & _ & Ht).
           now rewrite Ht in He.
      * destruct (Nat.eqb_spec (List.length (SecureAuthUtils.utf8Bytes (token stored)))
                    (List.length (SecureAuthUtils.utf8Bytes t))) as [He|He].
        -- split; [discriminate|]. intros (s & [= <-] & _ & Hn). contradiction.
        -- split; [|reflexivity]. intros _. now exists stored.
  - unfold validateCSRFToken. rewrite Hs. cbn [fst snd].
    split; [|split; [|now left]]; (split; [discriminate|]);
      intros (s & [=] & _).
Qed.

Lemma validateCSRFToken_true (sessionId t : string) (now : Z)
    (csrfTokens : gmap string CSRFToken) :
  (validateCSRFToken sessionId t now csrfTokens).2 = Returned true <->
  exists stored, csrfTokens !! sessionId = Some stored /\
                 (now <= expiresAt stored)%Z /\ token stored = t.
Proof.
  destruct (csrfTokens !! sessionId) as [stored|] eqn:Hs.
  - destruct (Z.ltb_spec (expiresAt stored) now) as [Hdead|Hlive].
    + unfold validateCSRFToken. rewrite Hs.
      destruct (Z.ltb_spec (expiresAt stored) now); [|lia]. cbn [snd].
      split; [discriminate|]. intros (s & [= <-] & ? & _). lia.
    + rewrite (validateCSRFToken_live _ _ _ _ _ Hs Hlive). cbn [snd].
      destruct (Nat.eqb_spec (List.length (SecureAuthUtils.utf8Bytes (token stored)))
                  (List.length (SecureAuthUtils.utf8Bytes t))) as [He|He].
      * split.
        -- intros [= Hb]. apply bool_decide_eq_true in Hb. now exists stored.
        -- intros (s & [= <-] & _ & Ht). now rewrite bool_decide_eq_true_2.
      * split; [discriminate|]. intros (s & [= <-] & _ & Ht).
        now rewrite Ht in He.
  - unfold validateCSRFToken. rewrite Hs. cbn [snd].
    split; [discriminate|]. intros (s & [=] & _).
Qed.

(** X19: [validateCSRFProtection] lets a request that is not a GET pass
    exactly when the request names a session (the bearer string of the
    [Authorization] header, else the [auth_token] cookie, else the
    [session_id] of the cookie header) and carries a token (in the header
    [x-csrf-token], else in the form) such that the store holds that very
    token, unexpired, under that session.  The bearer string, when there
    is one, is the session whatever the cookies say. *)
Theorem validateCSRFProtection_spec (request : Request) (now : Z)
    (csrfTokens : gmap string CSRFToken) :
  Csrf.method (http request) <> "GET" ->
  ((validateCSRFProtection request now csrfTokens).2 = Returned true <->
   exists sessionId t stored,
     extractSessionId request = Some sessionId /\ sessionId <> "" /\
     extractCSRFToken request = Some t /\ t <> "" /\
     csrfTokens !! sessionId = Some stored /\
     (now <= expiresAt stored)%Z /\ token stored = t) /\
  (forall bearer : string,
     Csrf.headers_get (http request) "authorization" = Some ("Bearer " ++ bearer) ->
     extractSessionId request = Some bearer).
Proof.
  intros Hmethod. split.
  - unfold validateCSRFProtection.
    destruct (String.eqb_spec (Csrf.method (http request)) "GET") as [E|_];
      [contradiction|].
    assert (Htok : forall t, extractCSRFToken request = Some t -> t <> "").
    { intros t. unfold extractCSRFToken. cbv zeta.
      destruct (truthy (Csrf.headers_get (http request) "x-csrf-token")) eqn:E1.
      - intros E. rewrite E in E1. now apply CsrfFacts.nonEmpty_true.
      - destruct (truthy (form_csrf_token request)) eqn:E2; [|discriminate].
        intros E. rewrite E in E2. now apply CsrfFacts.nonEmpty_true. }
    destruct (extractCSRFToken request) as [t|] eqn:Et.
    + cbv zeta. destruct (extractSessionId request) as [sid|] eqn:Esid.
      * cbn [truthy default from_option id].
        destruct (nonEmpty sid) eqn:Ene; cbn [negb].
        -- rewrite validateCSRFToken_true. split.
           ++ intros (stored & H1 & H2 & H3). exists sid, t, stored.
              repeat split; try assumption.
              ** now apply CsrfFacts.nonEmpty_true.
              ** now apply Htok.
           ++ intros (sid' & t' & stored & [= <-] & _ & [= <-] & _ & H).
              now exists stored.
        -- cbn [snd]. split; [discriminate|].
           intros (sid' & t' & stored & [= <-] & Hne & _).
           apply CsrfFacts.nonEmpty_true in Hne. congruence.
      * cbn. split; [discriminate|]. intros (sid' & t' & stored & [=] & _).
    + cbn [snd]. split; [discriminate|].
      intros (sid' & t' & stored & _ & _ & [=] & _).
  - intros bearer Hb. unfold extractSessionId. cbv zeta. rewrite Hb.
    cbn [default from_option id].
    replace (truthy (Some ("Bearer " ++ bearer))) with true
      by (now rewrite !append_String).
    replace (String.prefix "Bearer " ("Bearer " ++ bearer)) with true
      by (rewrite !append_String, append_Empty; cbn; now destruct bearer).
    cbn [andb]. now rewrite !append_String, append_Empty.
Qed.

Lemma validateCSRFProtection_spec_witness :
  let request :=
    {| http := {| Csrf.method := "POST";
                  Csrf.headers := {[ "authorization" := "Bearer session-1" ]};
                  Csrf.cookies := {[ "auth_token" := "other" ]} |};
       form_csrf_token := None |} in
  ((validateCSRFProtection request 0 ∅).2 = Returned true <->
   exists sessionId t stored,
     extractSessionId request = Some sessionId /\ sessionId <> "" /\
     extractCSRFToken request = Some t /\ t <> "" /\
     (∅ : gmap string CSRFToken) !! sessionId = Some stored /\
     (0 <= expiresAt stored)%Z /\ token stored = t) /\
  (forall bearer : string,
     Csrf.headers_get (http request) "authorization" = Some ("Bearer " ++ bearer) ->
     extractSessionId request = Some bearer).
Proof.
  intros request. apply (validateCSRFProtection_spec request 0 ∅). discriminate.
Defined.

(** The sweep of the timer does not change a lookup of a live token. *)
Lemma sweep_lookup (now0 : Z) (csrfTokens : gmap string CSRFToken) (k : string) :
  sweep now0 csrfTokens !! k =
  match csrfTokens !! k with
  | Some stored => if (expiresAt stored <? now0)%Z then None else Some stored
  | None => None
  end.
Proof.
  unfold sweep. rewrite map_lookup_filter.
  destruct (csrfTokens !! k) as [stored|]; [|reflexivity]. cbn.
  destruct (Z.ltb_spec (expiresAt stored) now0).
  - rewrite option_guard_False; [reflexivity|]. cbn. lia.
  - rewrite option_guard_True; [reflexivity|]. cbn. lia.
Qed.

(** X18: the timer of the store cannot be observed, and the lifetime told
    to the client is not the lifetime of the token.  A sweep at any earlier
    or equal instant changes no answer of [validateCSRFToken]; and
    [generateCSRFTokenForClient] announces [expiresIn] of 900 seconds while
    the token it hands out is refused at every instant later than 600
    seconds after it was made, so during the last five announced minutes
    the token is dead. *)
Theorem csrf_store_sweep_and_lifetime
    (randomBytes : nat -> byte) (sessionId : string) (now now' : Z)
    (csrfTokens : gmap string CSRFToken) :
  (forall (t : string) (now0 : Z),
     (now0 <= now')%Z ->
     (validateCSRFToken sessionId t now' (sweep now0 csrfTokens)).2 =
     (validateCSRFToken sessionId t now' csrfTokens).2) /\
  (let issued := generateCSRFTokenForClient randomBytes sessionId now csrfTokens in
   issued.2.2 = 900%Z /\
   ((now + 600 * 1000 < now')%Z -> (now' <= now + issued.2.2 * 1000)%Z ->
    (validateCSRFToken sessionId issued.2.1 now' issued.1).2 = Returned false)).
Proof.
  split.
  - intros t now0 Hle. unfold validateCSRFToken. rewrite sweep_lookup.
    destruct (csrfTokens !! sessionId) as [stored|]; [|reflexivity].
    destruct (Z.ltb_spec (expiresAt stored) now0).
    + destruct (Z.ltb_spec (expiresAt stored) now'); [reflexivity|lia].
    + destruct (Z.ltb_spec (expiresAt stored) now'); [reflexivity|].
      now destruct (WebhookSig.crypto_timingSafeEqual _ _).
  - cbv zeta. unfold generateCSRFTokenForClient, generateCSRFToken.
    cbn [fst snd]. split; [reflexivity|]. intros Hdead _.
    unfold validateCSRFToken. rewrite lookup_insert_eq. cbn [expiresAt].
    destruct (Z.ltb_spec (now + 10 * 60 * 1000) now'); [reflexivity|lia].
Qed.

Lemma csrf_store_sweep_and_lifetime_witness :
  let issued := generateCSRFTokenForClient (fun _ => x2a) "session-1" 0 ∅ in
  issued.2.2 = 900%Z /\
  (validateCSRFToken "session-1" issued.2.1 700000 issued.1).2 = Returned false.
Proof.
  intros issued. split.
  - exact (proj1 (proj2 (csrf_store_sweep_and_lifetime
                           (fun _ => x2a) "session-1" 0 700000 ∅))).
  - apply (proj2 (proj2 (csrf_store_sweep_and_lifetime
                           (fun _ => x2a) "session-1" 0 700000 ∅)));
      [reflexivity|vm_compute; discriminate].
Defined.

End CsrfStoreFacts.

(** ** More of the rate limiter *)

Module RateLimitMoreFacts.
Import RateLimit RateLimitMore RateLimitFacts CharFacts.

Lemma check_other_key (config : Config) (request : Request) (now : Z)
    (store : gmap string RateLimitEntry) (k : string) :
  k <> keyGenerator config request ->
  (checkRateLimitWith config request now store).1 !! k =
  cleanupExpiredEntries now store !! k.
Proof.
  intros Hk. unfold checkRateLimitWith. cbv zeta.
  destruct (cleanupExpiredEntries now store !! keyGenerator config request)
    as [e|]; cbn [fst].
  - destruct (_ <? _)%Z; cbn [fst]; [now rewrite lookup_insert_ne|].
    destruct (_ <=? _)%Z; cbn [fst]; [reflexivity|now rewrite lookup_insert_ne].
  - now rewrite lookup_insert_ne.
Qed.

(** The answer of a call depends on the store only through the live entry
    of its key. *)
Lemma check_status_ext (config : Config) (request : Request) (now : Z)
    (s1 s2 : gmap string RateLimitEntry) :
  cleanupExpiredEntries now s1 !! keyGenerator config request =
  cleanupExpiredEntries now s2 !! keyGenerator config request ->
  (checkRateLimitWith config request now s1).2 =
  (checkRateLimitWith config request now s2).2.
Proof.
  intros H. unfold checkRateLimitWith. cbv zeta. rewrite H.
  destruct (cleanupExpiredEntries now s2 !! keyGenerator config request)
    as [e|]; [|reflexivity].
  destruct (_ <? _)%Z; [reflexivity|]. now destruct (_ <=? _)%Z.
Qed.

Lemma cleanup_twice (now0 now : Z) (store : gmap string RateLimitEntry)
    (k : string) :
  (now0 <= now)%Z ->
  cleanupExpiredEntries now (cleanupExpiredEntries now0 store) !! k =
  cleanupExpiredEntries now store !! k.
Proof.
  intros Hle. rewrite !cleanup_lookup.
  destruct (store !! k) as [e|]; [|reflexivity].
  destruct (Z.ltb_spec (resetTime e) now0); [|reflexivity].
  destruct (Z.ltb_spec (resetTime e) now); [reflexivity|lia].
Qed.

Lemma category_keys_differ (ty ty' : LimitType) (request request' : Request) :
  ty <> ty' ->
  keyGenerator (RATE_LIMITS ty) request <> keyGenerator (RATE_LIMITS ty') request'.
Proof.
  intros Hty.
  destruct ty, ty'; try contradiction; cbn [RATE_LIMITS keyGenerator];
    unfold fingerprint; cbv zeta; rewrite !append_String; discriminate.
Qed.

(** X20: the four categories of the limiter keep separate books.  The keys
    of two different categories never coincide, whatever the requests; and
    a call under another key, like a sweep of the timer, at an earlier or
    equal instant changes no later answer: a client that has used up its
    [auth] allowance is still served under [api]. *)
Theorem rate_limit_keys_do_not_interfere
    (request request' : Request) (ty ty' : LimitType) (now0 now : Z)
    (store : gmap string RateLimitEntry) :
  (now0 <= now)%Z ->
  (ty <> ty' ->
   keyGenerator (RATE_LIMITS ty) request <>
   keyGenerator (RATE_LIMITS ty') request') /\
  (keyGenerator (RATE_LIMITS ty) request <>
   keyGenerator (RATE_LIMITS ty') request' ->
   (checkRateLimit request ty now
      (checkRateLimit request' ty' now0 store).1).2 =
   (checkRateLimit request ty now store).2) /\
  (checkRateLimit request ty now (cleanupExpiredEntries now0 store)).2 =
  (checkRateLimit request ty now store).2.
Proof.
  intros Hle. split; [apply category_keys_differ|]. split.
  - intros Hk. unfold checkRateLimit. apply check_status_ext.
    rewrite cleanup_lookup, check_other_key by exact Hk.
    rewrite <- cleanup_lookup. now apply cleanup_twice.
  - unfold checkRateLimit. apply check_status_ext. now apply cleanup_twice.
Qed.

Lemma rate_limit_keys_do_not_interfere_witness :
  (auth <> api ->
   keyGenerator (RATE_LIMITS auth) exampleRequest <>
   keyGenerator (RATE_LIMITS api) exampleRequest) /\
  (keyGenerator (RATE_LIMITS auth) exampleRequest <>
   keyGenerator (RATE_LIMITS api) exampleRequest ->
   (checkRateLimit exampleRequest auth 2000
      (checkRateLimit exampleRequest api 1000 ∅).1).2 =
   (checkRateLimit exampleRequest auth 2000 ∅).2) /\
  (checkRateLimit exampleRequest auth 2000 (cleanupExpiredEntries 1000 ∅)).2 =
  (checkRateLimit exampleRequest auth 2000 ∅).2.
Proof.
  apply (rate_limit_keys_do_not_interfere exampleRequest exampleRequest auth api
           1000 2000 ∅). vm_compute. discriminate.
Defined.

Lemma maxRequests_le (ty : LimitType) : (maxRequests (RATE_LIMITS ty) <= 50)%Z.
Proof. destruct ty; cbn; lia. Qed.

Lemma cleanup_bounded (now : Z) (store : gmap string RateLimitEntry) :
  bounded store -> bounded (cleanupExpiredEntries now store).
Proof.
  intros Hb k e. rewrite cleanup_lookup.
  destruct (store !! k) as [e'|] eqn:E; [|discriminate].
  destruct (_ <? _)%Z; [discriminate|]. intros [= <-]. eauto.
Qed.

Lemma check_bounded (request : Request) (ty : LimitType) (now : Z)
    (store : gmap string RateLimitEntry) :
  bounded store -> bounded (checkRateLimit request ty now store).1.
Proof.
  intros Hb%(cleanup_bounded now). unfold checkRateLimit, checkRateLimitWith.
  cbv zeta. pose proof (maxRequests_le ty) as Hmax.
  set (key := keyGenerator (RATE_LIMITS ty) request) in *.
  set (s := cleanupExpiredEntries now store) in *.
  assert (Hins : forall e, (1 <= count e <= 50)%Z -> bounded (<[key := e]> s)).
  { intros e He k e'. destruct (decide (k = key)) as [->|Hk].
    - rewrite lookup_insert_eq. now intros [= <-].
    - rewrite lookup_insert_ne by congruence. apply Hb. }
  destruct (s !! key) as [e|] eqn:E; cbn [fst].
  - destruct (_ <? _)%Z; cbn [fst]; [apply Hins; cbn; lia|].
    destruct (Z.leb_spec (maxRequests (RATE_LIMITS ty)) (count e)); cbn [fst];
      [exact Hb|].
    apply Hins. cbn. specialize (Hb _ _ E). lia.
  - apply Hins. cbn. lia.
Qed.

Lemma run_bounded (events : list Event) : bounded (run events).
Proof.
  unfold run.
  assert (H : forall store, bounded store -> bounded (fold_left step events store)).
  { induction events as [|e events IH]; intros store Hb; [exact Hb|].
    cbn [fold_left]. apply IH. destruct e as [r ty now|now]; cbn [step].
    - now apply check_bounded.
    - now apply cleanup_bounded. }
  apply H. intros k e. rewrite lookup_empty. discriminate.
Qed.

(** X21: [getRateLimitStatus] never reports a key as limited.  After any
    history of calls and sweeps, starting with the empty store of a fresh
    module, every stored count lies between 1 and 50, the largest
    configured limit, while [getRateLimitStatus] measures against 100.  So
    for every key it reports [isLimited = false] and at least 50 requests
    remaining, also for the key of a request that [checkRateLimit] refuses
    at that very instant. *)
Theorem getRateLimitStatus_never_limited
    (events : list Event) (key : string) (now : Z) :
  let store := run events in
  isLimited (getRateLimitStatus key now store) = false /\
  (50 <= statusRemaining (getRateLimitStatus key now store))%Z /\
  (forall (request : Request) (ty : LimitType),
     allowed (checkRateLimit request ty now store).2 = false ->
     let status :=
       getRateLimitStatus (keyGenerator (RATE_LIMITS ty) request) now store in
     isLimited status = false /\
     (maxRequests (RATE_LIMITS ty) <= statusCount status)%Z /\
     (50 <= statusRemaining status)%Z).
Proof.
  cbv zeta. pose proof (run_bounded events) as Hb.
  assert (Hany : forall k,
            isLimited (getRateLimitStatus k now (run events)) = false /\
            (50 <= statusRemaining (getRateLimitStatus k now (run events)))%Z).
  { intros k. unfold getRateLimitStatus.
    destruct (run events !! k) as [e|] eqn:E; [|cbn; split; [reflexivity|lia]].
    cbv zeta. destruct (_ <? _)%Z; cbn; [split; [reflexivity|lia]|].
    specialize (Hb _ _ E). split; [|lia].
    destruct (Z.leb_spec 100 (count e)); [lia|reflexivity]. }
  split; [apply Hany|]. split; [apply Hany|].
  intros request ty Hdenied. split; [apply Hany|]. split; [|apply Hany].
  revert Hdenied. unfold checkRateLimit, checkRateLimitWith, getRateLimitStatus.
  cbv zeta. rewrite cleanup_lookup.
  destruct (run events !! keyGenerator (RATE_LIMITS ty) request) as [e|];
    [|discriminate].
  destruct (Z.ltb_spec (resetTime e) now); [discriminate|].
  destruct (Z.ltb_spec (resetTime e) now); [lia|].
  destruct (Z.leb_spec (maxRequests (RATE_LIMITS ty)) (count e)); [|discriminate].
  intros _. exact H1.
Qed.

Lemma getRateLimitStatus_never_limited_witness :
  let events :=
    [Check exampleRequest passwordReset 1000;
     Check exampleRequest passwordReset 2000] in
  let key := keyGenerator (RATE_LIMITS passwordReset) exampleRequest in
  allowed (checkRateLimit exampleRequest passwordReset 3000 (run events)).2 = false /\
  isLimited (getRateLimitStatus key 3000 (run events)) = false /\
  (maxRequests (RATE_LIMITS passwordReset) <=
   statusCount (getRateLimitStatus key 3000 (run events)))%Z /\
  (50 <= statusRemaining (getRateLimitStatus key 3000 (run events)))%Z.
Proof.
  intros events key.
  assert (Hd : allowed (checkRateLimit exampleRequest passwordReset 3000
                          (run events)).2 = false) by (vm_compute; reflexivity).
  split; [exact Hd|].
  exact (proj2 (proj2 (getRateLimitStatus_never_limited events key 3000))
           exampleRequest passwordReset Hd).
Defined.

End RateLimitMoreFacts.

(** ** More of the webhook handler *)

Module WebhookMoreFacts.
Import Chars Store Errors Webhook WebhookMore WebhookFacts CharFacts.

Lemma sameRecord_refl (r : VerificationRow) : sameRecord r r.
Proof. unfold sameRecord. tauto. Qed.

Lemma sameRecord_trans (a b c : VerificationRow) :
  sameRecord a b -> sameRecord b c -> sameRecord a c.
Proof. unfold sameRecord. intuition congruence. Qed.

Lemma Forall2_sameRecord_refl (rows : list VerificationRow) :
  Forall2 sameRecord rows rows.
Proof. induction rows; constructor; auto using sameRecord_refl. Qed.

Lemma Forall2_sameRecord_trans (a b c : list VerificationRow) :
  Forall2 sameRecord a b -> Forall2 sameRecord b c -> Forall2 sameRecord a c.
Proof.
  intros Hab. revert c. induction Hab as [|x y a b Hxy _ IH]; intros c Hbc.
  - exact Hbc.
  - inversion Hbc; subst. constructor; [eapply sameRecord_trans; eauto|auto].
Qed.

Lemma markVerified_sameRecord (now : Z) (code : string)
    (rows : list VerificationRow) :
  Forall2 sameRecord rows (markVerified now code rows).
Proof.
  induction rows as [|r rows IH]; cbn [markVerified map]; constructor.
  - destruct (vc_code r =? code)%string; [|apply sameRecord_refl].
    unfold sameRecord. cbn. tauto.
  - exact IH.
Qed.

Lemma send_keeps (outcome : Outcome) (to : string) (reply : Reply) (st : State) :
  let st' := (send outcome to reply st (fun st' => (st', Success None))).1 in
  verification_codes st' = verification_codes st /\
  journal st' = journal st /\
  messageRateLimit st' = messageRateLimit st /\
  (outbox st' = outbox st \/ outbox st' = (outbox st ++ [(to, reply)])%list).
Proof.
  cbv zeta. unfold send. destruct (sendFails outcome); cbn; auto 6.
Qed.

Lemma extracted_validates (message code : string) :
  WhatsApp.extractVerificationCode message = Some code ->
  Security.validateVerificationCode code = Some code.
Proof.
  intros Hex. unfold WhatsApp.extractVerificationCode in Hex. cbv zeta in Hex.
  destruct (List.find _ _) as [m|] eqn:Hfind; [|discriminate Hex].
  injection Hex as <-.
  apply find_some in Hfind as [Hin Hboth].
  apply andb_true_iff in Hboth as [Hl Hd].
  rewrite (WhatsAppFacts.matchCodes_runs (String.length message)) in Hin by auto.
  apply filter_In in Hin as [_ Hcode].
  exact (CodeFacts.validate_upper_code m Hcode Hl Hd).
Qed.

(** What handling a message does to the records, the journal and the
    outbox: nothing, or the one update with the code of the text, and at
    most one reply, which goes to the sender. *)
Lemma processMessage_effect (now : Z) (outcome : Outcome)
    (message : Message) (st : State) :
  let st' := (processMessage now outcome message st).1 in
  ((verification_codes st' = verification_codes st /\ journal st' = journal st) \/
   (exists code,
      WhatsApp.extractVerificationCode (text message) = Some code /\
      verification_codes st' = markVerified now code (verification_codes st) /\
      journal st' = (journal st ++ [code])%list)) /\
  (outbox st' = outbox st \/
   exists reply, outbox st' = (outbox st ++ [(from message, reply)])%list).
Proof.
  cbv zeta. unfold processMessage.
  destruct (WhatsApp.extractVerificationCode (text message)) as [extracted|] eqn:Ex;
    [|split; left; auto].
  pose proof (extracted_validates _ _ Ex) as Hvalid.
  destruct (Security.validateVerificationCode extracted) as [code|] eqn:Ev.
  2:{ pose proof (send_keeps outcome (from message) (InvalidFormat extracted) st)
        as (H1 & H2 & _ & H4). cbv zeta in *.
      split; [left; auto|]. destruct H4; [left|right]; eauto. }
  destruct (single _) as [row|err].
  - destruct (vc_verified row).
    + pose proof (send_keeps outcome (from message) AlreadyVerified st)
        as (H1 & H2 & _ & H4). cbv zeta in *.
      split; [left; auto|]. destruct H4; [left|right]; eauto.
    + destruct (updateFails outcome).
      * pose proof (send_keeps outcome (from message) VerifyError st)
          as (H1 & H2 & _ & H4). cbv zeta in *.
        split; [left; auto|]. destruct H4; [left|right]; eauto.
      * match goal with
        | |- context [send outcome ?to ?reply ?st1 _] =>
            pose proof (send_keeps outcome to reply st1) as (H1 & H2 & _ & H4)
        end.
        cbv zeta in *. cbn [verification_codes journal outbox] in *.
        split.
        -- right. exists code. rewrite H1, H2. repeat split. congruence.
        -- destruct H4; [left|right]; eauto.
  - pose proof (send_keeps outcome (from message) InvalidCode st)
      as (H1 & H2 & _ & H4). cbv zeta in *.
    split; [left; auto|]. destruct H4; [left|right]; eauto.
Qed.

Section Handler.

Variable hmacSha256 : string -> string -> list byte.
Variable appSecret : option string.

Local Abbreviation POST := (POST hmacSha256 appSecret).
Local Abbreviation run := (run hmacSha256 appSecret).
Local Abbreviation authenticated := (authenticated hmacSha256 appSecret).

(** The cases in which the handler returns before it looks at a message. *)
Lemma POST_cases (now : Z) (outcome : Outcome) (request : Request) (st : State) :
  (exists message, authenticated request message) \/
  ((POST now outcome request st).1 = st /\
   (POST now outcome request st).2 <> Success (Some "Duplicate ignored") /\
   (POST now outcome request st).2 <> Success (Some "Rate limited")).
Proof.
  unfold Webhook.POST, Webhook.authenticated.
  destruct (validateWebhookSecurity request); [|right; now repeat split].
  cbn [negb]. destruct appSecret as [secret|]; [|right; now repeat split].
  cbv zeta.
  destruct (WebhookSig.isValid _) eqn:Hsig; [|right; now repeat split].
  cbn [negb].
  destruct (parsedBody request) as [[| |message]|];
    try (right; now repeat split).
  left. exists message. split; [reflexivity|]. split; [|reflexivity].
  exists secret. now split.
Qed.

(** X22: every change of the handler's state is caused by a correctly
    signed delivery of a new message.  If a delivery changes anything in
    the state (the processed identifiers, the per-sender counters, the
    records, the journal of updates or the outbox), then a secret is
    configured,
    [verifyWebhookSignature] accepts the signature header for the raw body,
    the body carries a message, the identifier of that message was not
    recorded before and is recorded now, stamped with the instant of the
    delivery. *)
Theorem state_changes_need_a_signed_message
    (now : Z) (outcome : Outcome) (request : Request) (st : State) :
  (POST now outcome request st).1 <> st ->
  exists (secret : string) (message : Message),
    appSecret = Some secret /\
    WebhookSig.verifyWebhookSignature hmacSha256
      (rawBody request) (signatureHeader request) secret = true /\
    parsedBody request = Some (WithMessage message) /\
    processedMessages st !! id message = None /\
    processedMessages (POST now outcome request st).1 !! id message = Some now.
Proof.
  intros Hchanged.
  destruct (POST_cases now outcome request st)
    as [[message Hauth]|[Hsame _]]; [|contradiction].
  pose proof Hauth as (Hsec & (secret & Hsecret & Hsig) & Hbody).
  exists secret, message. split; [exact Hsecret|].
  split.
  { now rewrite <- WebhookSigFacts.verifyWebhookSignatureDetailed_isValid. }
  split; [exact Hbody|].
  rewrite (POST_authenticated hmacSha256 appSecret now outcome request message st Hauth)
    in Hchanged |- *.
  case_bool_decide as Hdup; [contradiction|].
  cbv zeta in Hchanged |- *.
  destruct (_ && (MAX_MESSAGES_PER_MINUTE <=? _)%Z); [contradiction|].
  split.
  - destruct (processedMessages st !! id message) eqn:E; [|reflexivity].
    exfalso. apply Hdup. eauto.
  - rewrite processMessage_processedMessages. cbn [processedMessages].
    apply lookup_insert_eq.
Qed.

Lemma POST_records (now : Z) (outcome : Outcome) (request : Request) (st : State) :
  let st' := (POST now outcome request st).1 in
  Forall2 sameRecord (verification_codes st) (verification_codes st') /\
  (exists added, journal st' = (journal st ++ added)%list) /\
  (exists sent, outbox st' = (outbox st ++ sent)%list).
Proof.
  cbv zeta.
  destruct (POST_cases now outcome request st)
    as [[message Hauth]|[-> _]].
  2:{ split; [apply Forall2_sameRecord_refl|].
      split; exists []; now rewrite app_nil_r. }
  rewrite (POST_authenticated hmacSha256 appSecret now outcome request message st Hauth).
  assert (Hst : Forall2 sameRecord (verification_codes st) (verification_codes st) /\
                (exists added, journal st = (journal st ++ added)%list) /\
                (exists sent, outbox st = (outbox st ++ sent)%list)).
  { split; [apply Forall2_sameRecord_refl|].
    split; exists []; now rewrite app_nil_r. }
  case_bool_decide; [exact Hst|]. cbv zeta.
  destruct (_ && (MAX_MESSAGES_PER_MINUTE <=? _)%Z); [exact Hst|].
  match goal with
  | |- context [processMessage now outcome message ?st1] =>
      pose proof (processMessage_effect now outcome message st1) as [Hrec Hout]
  end.
  cbv zeta in Hrec, Hout. cbn [verification_codes journal outbox] in Hrec, Hout.
  split; [|split].
  - destruct Hrec as [[-> _]|(code & _ & -> & _)];
      [apply Forall2_sameRecord_refl|apply markVerified_sameRecord].
  - destruct Hrec as [[_ ->]|(code & _ & _ & ->)]; [exists []|exists [code]];
      [now rewrite app_nil_r|reflexivity].
  - destruct Hout as [->|[reply ->]]; [exists []|eexists];
      [now rewrite app_nil_r|reflexivity].
Qed.

(** X23: the handler only ever verifies.  Through any sequence of
    deliveries and sweeps, whatever the requests, the list of verification
    records keeps its length and order, every record keeps its code, name,
    number and expiry, and a verified record stays verified; the journal of
    executed updates and the outbox of replies only grow at the end. *)
Theorem records_are_only_ever_verified (events : list Event) (st : State) :
  let st' := run events st in
  Forall2 sameRecord (verification_codes st) (verification_codes st') /\
  List.length (verification_codes st') = List.length (verification_codes st) /\
  (exists added, journal st' = (journal st ++ added)%list) /\
  (exists sent, outbox st' = (outbox st ++ sent)%list).
Proof.
  cbv zeta.
  assert (H : Forall2 sameRecord (verification_codes st)
                (verification_codes (run events st)) /\
              (exists added, journal (run events st) = (journal st ++ added)%list) /\
              (exists sent, outbox (run events st) = (outbox st ++ sent)%list)).
  { revert st. induction events as [|e events IH]; intros st.
    - split; [apply Forall2_sameRecord_refl|].
      split; exists []; cbn; now rewrite app_nil_r.
    - change (run (e :: events) st) with (run events (step hmacSha256 appSecret st e)).
      destruct (IH (step hmacSha256 appSecret st e)) as (IH1 & [a2 IH2] & [s2 IH3]).
      assert (Hstep : Forall2 sameRecord (verification_codes st)
                        (verification_codes (step hmacSha256 appSecret st e)) /\
                      (exists added, journal (step hmacSha256 appSecret st e) =
                                     (journal st ++ added)%list) /\
                      (exists sent, outbox (step hmacSha256 appSecret st e) =
                                    (outbox st ++ sent)%list)).
      { destruct e as [now outcome request|now]; cbn [step].
        - apply POST_records.
        - unfold cleanup. cbn [verification_codes journal outbox].
          split; [apply Forall2_sameRecord_refl|].
          split; exists []; now rewrite app_nil_r. }
      destruct Hstep as (S1 & [a1 S2] & [s1 S3]).
      split; [eapply Forall2_sameRecord_trans; eauto|].
      split.
      + exists (a1 ++ a2)%list. now rewrite IH2, S2, app_assoc.
      + exists (s1 ++ s2)%list. now rewrite IH3, S3, app_assoc. }
  destruct H as (H1 & H2 & H3). split; [exact H1|].
  split; [|now split]. symmetry. eapply Forall2_length. exact H1.
Qed.

(** X24: the handler does not look at who sends a code.  What a message
    does to the verification records and to the journal of updates depends
    on its text alone, not on the sender, whose number is never compared
    with the number of the record; the sender only receives the reply, the
    one reply at most that the message causes. *)
Theorem sender_is_not_compared (now : Z) (outcome : Outcome)
    (message message' : Message) (st : State) :
  text message = text message' ->
  verification_codes (processMessage now outcome message st).1 =
  verification_codes (processMessage now outcome message' st).1 /\
  journal (processMessage now outcome message st).1 =
  journal (processMessage now outcome message' st).1 /\
  (outbox (processMessage now outcome message st).1 = outbox st \/
   exists reply,
     outbox (processMessage now outcome message st).1 =
     (outbox st ++ [(from message, reply)])%list).
Proof.
  intros Htext. split; [|split].
  - unfold processMessage. rewrite Htext.
    repeat match goal with
           | |- context [match ?x with _ => _ end] => destruct x
           end;
      try reflexivity;
      repeat match goal with
             | |- context [send ?o ?to ?reply ?s _] =>
                 rewrite (proj1 (send_keeps o to reply s))
             end; reflexivity.
  - unfold processMessage. rewrite Htext.
    repeat match goal with
           | |- context [match ?x with _ => _ end] => destruct x
           end;
      try reflexivity;
      repeat match goal with
             | |- context [send ?o ?to ?reply ?s _] =>
                 rewrite (proj1 (proj2 (send_keeps o to reply s)))
             end; reflexivity.
  - apply processMessage_effect.
Qed.

Lemma cleanup_rateLimit (now : Z) (st : State) (k : string) :
  messageRateLimit (cleanup now st) !! k =
  match messageRateLimit st !! k with
  | Some v => if (v <? now - RATE_LIMIT_WINDOW)%Z then None else Some v
  | None => None
  end.
Proof.
  unfold cleanup. cbn [messageRateLimit]. rewrite map_lookup_filter.
  destruct (messageRateLimit st !! k) as [v|]; [|reflexivity]. cbn.
  destruct (Z.ltb_spec v (now - RATE_LIMIT_WINDOW)).
  - rewrite option_guard_False; [reflexivity|]. cbn. lia.
  - rewrite option_guard_True; [reflexivity|]. cbn. lia.
Qed.

Lemma cleanup_processed (now : Z) (st : State) (k : string) :
  processedMessages (cleanup now st) !! k =
  match processedMessages st !! k with
  | Some v => if (v <? now - 5 * 60 * 1000)%Z then None else Some v
  | None => None
  end.
Proof.
  unfold cleanup. cbn [processedMessages]. rewrite map_lookup_filter.
  destruct (processedMessages st !! k) as [v|]; [|reflexivity]. cbn.
  destruct (Z.ltb_spec v (now - 5 * 60 * 1000)).
  - rewrite option_guard_False; [reflexivity|]. cbn. lia.
  - rewrite option_guard_True; [reflexivity|]. cbn. lia.
Qed.

(** X25: what the sweep of the interval timer forgets.  The sweep deletes
    every entry of the per-sender map whose value is below the instant one
    minute before it, and the counters of that map hold small numbers, not
    instants.  So a sender who has used up the five messages of the
    running minute, and whose next message would be answered
    ["Rate limited"], is served again right after a sweep, within the same
    minute: the message is recorded and handled.  Likewise an identifier
    recorded more than five minutes before a sweep is forgotten, and a
    repeated delivery of it is no longer answered ["Duplicate ignored"]. *)
Theorem sweep_forgets
    (now sweepTime : Z) (outcome : Outcome) (request : Request)
    (message : Message) (st : State) :
  authenticated request message ->
  (sweepTime <= now)%Z ->
  (forall opened counted : Z,
     processedMessages st !! id message = None ->
     exhausted message opened counted st ->
     (now - opened < RATE_LIMIT_WINDOW)%Z ->
     (counted < sweepTime - RATE_LIMIT_WINDOW)%Z ->
     POST now outcome request st = (st, Success (Some "Rate limited")) /\
     processedMessages (POST now outcome request (cleanup sweepTime st)).1
       !! id message = Some now) /\
  (forall since : Z,
     processedMessages st !! id message = Some since ->
     (since < sweepTime - 5 * 60 * 1000)%Z ->
     POST now outcome request st = (st, Success (Some "Duplicate ignored")) /\
     (POST now outcome request (cleanup sweepTime st)).2 <>
     Success (Some "Duplicate ignored")).
Proof.
  intros Hauth Hle. split.
  - intros opened counted Hnew (Hopened & Hcounted & Hpos & Hfull) Hwin Hsweep.
    rewrite !(POST_authenticated hmacSha256 appSecret _ _ _ _ _ Hauth).
    split.
    + rewrite Hnew. rewrite bool_decide_eq_false_2 by (intros [? [=]]).
      cbv zeta. rewrite Hopened, Hcounted. cbn [default from_option Datatypes.id].
      destruct (Z.ltb_spec 0 opened); [|lia].
      destruct (Z.ltb_spec (now - opened) RATE_LIMIT_WINDOW); [|lia].
      destruct (Z.leb_spec MAX_MESSAGES_PER_MINUTE counted); [|lia].
      reflexivity.
    + rewrite cleanup_processed, Hnew.
      rewrite bool_decide_eq_false_2 by (intros [? [=]]).
      cbv zeta. rewrite !cleanup_rateLimit, Hcounted.
      destruct (Z.ltb_spec counted (sweepTime - RATE_LIMIT_WINDOW)); [|lia].
      cbn [default from_option Datatypes.id].
      change (MAX_MESSAGES_PER_MINUTE <=? 0)%Z with false.
      rewrite andb_false_r.
      rewrite processMessage_processedMessages. cbn [processedMessages].
      apply lookup_insert_eq.
  - intros since Hsince Hold.
    rewrite !(POST_authenticated hmacSha256 appSecret _ _ _ _ _ Hauth).
    split.
    + rewrite Hsince. now rewrite bool_decide_eq_true_2 by eauto.
    + rewrite cleanup_processed, Hsince.
      destruct (Z.ltb_spec since (sweepTime - 5 * 60 * 1000)); [|lia].
      rewrite bool_decide_eq_false_2 by (intros [? [=]]).
      cbv zeta. destruct (_ && (MAX_MESSAGES_PER_MINUTE <=? _)%Z);
        [discriminate|].
      intros E.
      pose proof (processMessage_response now outcome message) as Hresp.
      destruct (sendFails outcome) eqn:Hs.
      * revert E. unfold processMessage.
        repeat match goal with
               | |- context [match ?x with _ => _ end] => destruct x
               end;
          unfold send; rewrite ?Hs; cbn; discriminate.
      * rewrite (Hresp _ eq_refl) in E. discriminate E.
Qed.

End Handler.

Lemma sixthChat_authenticated :
  authenticated WebhookSig.exampleHmac (Some exampleSecret)
    (exampleDelivery "raw-6" sixthChat) sixthChat.
Proof.
  split; [reflexivity|]. split; [|reflexivity].
  exists exampleSecret. split; reflexivity.
Qed.

Lemma sweep_forgets_witness :
  let request := exampleDelivery "raw-6" sixthChat in
  let POST := POST WebhookSig.exampleHmac (Some exampleSecret) in
  POST 60800%Z calm request afterFiveChats =
    (afterFiveChats, Success (Some "Rate limited")) /\
  processedMessages (POST 60800%Z calm request (cleanup 60500 afterFiveChats)).1
    !! id sixthChat = Some 60800%Z.
Proof.
  intros request POST.
  apply (proj1 (sweep_forgets WebhookSig.exampleHmac (Some exampleSecret)
                  60800 60500 calm request sixthChat afterFiveChats
                  sixthChat_authenticated ltac:(lia)) 1000%Z 5%Z).
  - vm_compute. reflexivity.
  - repeat split; vm_compute; try reflexivity; discriminate.
  - vm_compute. reflexivity.
  - vm_compute. reflexivity.
Defined.

Lemma state_changes_need_a_signed_message_witness :
  exists (secret : string) (message : Message),
    Some exampleSecret = Some secret /\
    WebhookSig.verifyWebhookSignature WebhookSig.exampleHmac
      (rawBody (exampleDelivery "raw-code" codeMessage))
      (signatureHeader (exampleDelivery "raw-code" codeMessage)) secret = true /\
    parsedBody (exampleDelivery "raw-code" codeMessage) = Some (WithMessage message) /\
    processedMessages exampleState !! id message = None /\
    processedMessages
      (POST WebhookSig.exampleHmac (Some exampleSecret) 1000 calm
         (exampleDelivery "raw-code" codeMessage) exampleState).1
      !! id message = Some 1000%Z.
Proof.
  apply (state_changes_need_a_signed_message WebhookSig.exampleHmac
           (Some exampleSecret) 1000 calm
           (exampleDelivery "raw-code" codeMessage) exampleState).
  intros E. apply (f_equal journal) in E. vm_compute in E. discriminate E.
Defined.

Lemma sender_is_not_compared_witness :
  let stranger :=
    {| id := "wamid.other"; from := "4915550000000";
       text := "please VERIFY x7k2m9 now" |} in
  verification_codes (processMessage 1000 calm stranger exampleState).1 =
  verification_codes (processMessage 1000 calm codeMessage exampleState).1 /\
  journal (processMessage 1000 calm stranger exampleState).1 =
  journal (processMessage 1000 calm codeMessage exampleState).1 /\
  (outbox (processMessage 1000 calm stranger exampleState).1 = outbox exampleState \/
   exists reply,
     outbox (processMessage 1000 calm stranger exampleState).1 =
     (outbox exampleState ++ [(from stranger, reply)])%list).
Proof.
  intros stranger.
  apply (sender_is_not_compared 1000 calm stranger codeMessage exampleState).
  reflexivity.
Defined.

End WebhookMoreFacts.

(** ** The routes and the webhook handler together *)

Module FlowFacts.
Import Chars Jwt SecureAuth Store Responses Flow CharFacts.

Lemma validated_code (code : string) :
  Security.validateVerificationCode code = Some code ->
  nonEmpty code = true /\ Sanitize.sanitizeUserInput code = code.
Proof.
  unfold Security.validateVerificationCode.
  destruct (nonEmpty code); [|discriminate]. cbn [negb].
  destruct (String.length code =? 6)%nat; [|discriminate]. cbn [negb andb].
  destruct (forallb_str _ code) eqn:E; [|discriminate]. intros _.
  split; [reflexivity|]. now apply MarkupFacts.sanitizeUserInput_upper_digits.
Qed.

(** The unexpired records with a code, seen later: whatever is unexpired
    later was unexpired before. *)
Lemma filter_later (code : string) (t1 t : Z) (rows : list VerificationRow)
    (row : VerificationRow) :
  List.filter (fun r => (vc_code r =? code)%string && (t1 <? vc_expires_at r)%Z)
    rows = [row] ->
  (t1 <= t)%Z -> (t < vc_expires_at row)%Z ->
  List.filter (fun r => (vc_code r =? code)%string && (t <? vc_expires_at r)%Z)
    rows = [row].
Proof.
  intros Hone Hle Hlive.
  assert (Hnil : forall rs,
            List.filter (fun r => (vc_code r =? code)%string &&
                                  (t1 <? vc_expires_at r)%Z) rs = [] ->
            List.filter (fun r => (vc_code r =? code)%string &&
                                  (t <? vc_expires_at r)%Z) rs = []).
  { induction rs as [|r rs IH]; [reflexivity|]. cbn [List.filter].
    destruct (vc_code r =? code)%string; cbn [andb]; [|exact IH].
    destruct (Z.ltb_spec t1 (vc_expires_at r)); [discriminate|].
    destruct (Z.ltb_spec t (vc_expires_at r)); [lia|exact IH]. }
  induction rows as [|r rows IH]; [discriminate|]. cbn [List.filter] in Hone |- *.
  destruct (vc_code r =? code)%string; cbn [andb] in Hone |- *; [|auto].
  destruct (Z.ltb_spec t1 (vc_expires_at r)).
  - injection Hone as -> Hrest.
    destruct (Z.ltb_spec t (vc_expires_at row)); [|lia].
    now rewrite (Hnil _ Hrest).
  - destruct (Z.ltb_spec t (vc_expires_at r)); [lia|auto].
Qed.

Lemma markVerified_cons (t1 : Z) (code : string) (r : VerificationRow)
    (rows : list VerificationRow) :
  Webhook.markVerified t1 code (r :: rows) =
  (if (vc_code r =? code)%string then verifiedAt t1 r else r) ::
  Webhook.markVerified t1 code rows.
Proof. reflexivity. Qed.

(** The update of the webhook handler, seen through the two lookups of the
    routes: the records with the code become verified and stay where they
    are. *)
Lemma filter_markVerified (code : string) (t1 t : Z) (rows : list VerificationRow) :
  List.filter (fun r => (vc_code r =? code)%string && (t <? vc_expires_at r)%Z)
    (Webhook.markVerified t1 code rows) =
  map (verifiedAt t1)
    (List.filter (fun r => (vc_code r =? code)%string && (t <? vc_expires_at r)%Z)
       rows) /\
  List.filter (fun r => (vc_code r =? code)%string && vc_verified r &&
                        (t <? vc_expires_at r)%Z)
    (Webhook.markVerified t1 code rows) =
  map (verifiedAt t1)
    (List.filter (fun r => (vc_code r =? code)%string && (t <? vc_expires_at r)%Z)
       rows).
Proof.
  induction rows as [|r rows [IH1 IH2]]; [split; reflexivity|].
  rewrite markVerified_cons. cbn [List.filter].
  destruct (vc_code r =? code)%string eqn:E.
  - cbn [verifiedAt vc_code vc_expires_at vc_verified]. rewrite E. cbn [andb].
    rewrite IH1, IH2. destruct (t <? vc_expires_at r)%Z; split; reflexivity.
  - rewrite E. cbn [andb]. split; assumption.
Qed.

(** An authenticated delivery of a new message that the limit per sender
    lets through, whose text carries the code of a single unexpired,
    unverified record, with a store that accepts the update: the records
    with the code become verified. *)
Lemma delivery_verifies
    (hmacSha256 : string -> string -> list byte) (appSecret : option string)
    (now : Z) (outcome : Webhook.Outcome) (request : Webhook.Request)
    (message : Webhook.Message) (st : Webhook.State)
    (code : string) (row : VerificationRow) :
  Webhook.authenticated hmacSha256 appSecret request message ->
  Webhook.processedMessages st !! Webhook.id message = None ->
  (Webhook.POST hmacSha256 appSecret now outcome request st).2 <>
    Webhook.Success (Some "Rate limited") ->
  WhatsApp.extractVerificationCode (Webhook.text message) = Some code ->
  single (List.filter
            (fun r => (vc_code r =? code)%string && (now <? vc_expires_at r)%Z)
            (Webhook.verification_codes st)) = inl row ->
  vc_verified row = false ->
  Webhook.updateFails outcome = false ->
  Webhook.verification_codes
    (Webhook.POST hmacSha256 appSecret now outcome request st).1 =
  Webhook.markVerified now code (Webhook.verification_codes st).
Proof.
  intros Hauth Hnew Hlimit Hex Hone Hpending Hupd. revert Hlimit.
  rewrite (WebhookFacts.POST_authenticated _ _ _ _ _ _ _ Hauth).
  rewrite Hnew, bool_decide_eq_false_2 by (intros [? [=]]).
  cbv zeta.
  destruct (_ && (Webhook.MAX_MESSAGES_PER_MINUTE <=? _)%Z);
    [intros Hlimit; now contradiction Hlimit|intros _].
  unfold Webhook.processMessage. rewrite Hex.
  rewrite (WebhookMoreFacts.extracted_validates _ _ Hex).
  cbn [Webhook.verification_codes]. rewrite Hone, Hpending, Hupd.
  now rewrite (proj1 (WebhookMoreFacts.send_keeps _ _ _ _)).
Qed.

Section Routes.

Variable hmacSha256 : string -> string -> list byte.
Variable appSecret : option string.
Variable HS256 : string -> Header -> Claims -> list byte.
Variable JWT_SECRET : string.
Variable JWT_EXPIRES_IN : Z.

Local Abbreviation webhook := (Webhook.POST hmacSha256 appSecret).
Local Abbreviation verifyAndAuth := (VerifyAndAuth.POST HS256 JWT_SECRET JWT_EXPIRES_IN).
Local Abbreviation mint := (generateSecureToken HS256 JWT_SECRET JWT_EXPIRES_IN).

(** X26: the code flow, from the chat to the sign-in.  Take a record that
    is the only unexpired one with its code and is not yet verified, and a
    [verify-and-auth] request that passes the CSRF guard and carries that
    code.  Before the code arrives over the webhook, the request is
    answered with [VERIFICATION_FAILED].  Now let the webhook handle an
    authenticated delivery whose text carries the code, under these
    conditions: the message identifier has not been seen before (a
    duplicate is ignored), the answer is not ["Rate limited"] (the limit per
    sender lets the message through, whether or not the sender has written
    within the last minute), and the store accepts the update.  From then
    on the same request is answered, at any instant from the delivery
    until the record expires, with the code and name of the record and a
    token minted for the code, name and number of the record. *)
Theorem code_flow_signs_in
    (t1 t2 : Z) (outcome : Webhook.Outcome) (delivery : Webhook.Request)
    (message : Webhook.Message) (st : Webhook.State) (users : list UserRow)
    (code : string) (row : VerificationRow) (request : VerifyAndAuth.Request) :
  Webhook.authenticated hmacSha256 appSecret delivery message ->
  Webhook.processedMessages st !! Webhook.id message = None ->
  (webhook t1 outcome delivery st).2 <> Webhook.Success (Some "Rate limited") ->
  WhatsApp.extractVerificationCode (Webhook.text message) = Some code ->
  single (List.filter
            (fun r => (vc_code r =? code)%string && (t1 <? vc_expires_at r)%Z)
            (Webhook.verification_codes st)) = inl row ->
  vc_verified row = false ->
  Webhook.updateFails outcome = false ->
  Csrf.validateDoubleSubmitCSRF (VerifyAndAuth.http request) = true ->
  VerifyAndAuth.code request = code ->
  (t1 <= t2 < vc_expires_at row)%Z ->
  let st' := (webhook t1 outcome delivery st).1 in
  verifyAndAuth t1 request (database st users) = Error "VERIFICATION_FAILED" 400 /\
  verifyAndAuth t2 request (database st' users) =
  Ok {| VerifyAndAuth.data_code := code;
        VerifyAndAuth.data_name := vc_name row;
        VerifyAndAuth.auth_token :=
          mint t2 {| SecureAuth.code := code; name := vc_name row;
                     whatsappNumber := vc_whatsapp_number row;
                     verified := true |} |}.
Proof.
  intros Hauth Hnew Hlimit Hex Hone Hpending Hupd Hcsrf Hcode [Hle Hlive] st'.
  destruct (validated_code code (WebhookMoreFacts.extracted_validates _ _ Hex))
    as [Hne Hsan].
  pose proof (SetPasswordFacts.single_inl _ _ Hone) as Hrows.
  assert (Hrow : vc_code row = code).
  { assert (Hin : In row (List.filter
                           (fun r => (vc_code r =? code)%string &&
                                     (t1 <? vc_expires_at r)%Z)
                           (Webhook.verification_codes st)))
      by (rewrite Hrows; now left).
    apply filter_In in Hin as [_ Hin]. apply andb_true_iff in Hin as [Hin _].
    now apply String.eqb_eq in Hin. }
  split.
  - unfold VerifyAndAuth.POST. rewrite Hcsrf, Hcode, Hsan, Hne. cbn [negb].
    cbv zeta. unfold database. cbn [verification_codes].
    rewrite Hone, Hpending. reflexivity.
  - unfold VerifyAndAuth.POST. rewrite Hcsrf, Hcode, Hsan, Hne. cbn [negb].
    cbv zeta. unfold database. cbn [verification_codes]. subst st'.
    rewrite (delivery_verifies _ _ _ _ _ _ _ _ _
               Hauth Hnew Hlimit Hex Hone Hpending Hupd).
    rewrite (proj1 (filter_markVerified code t1 t2 _)).
    rewrite (filter_later code t1 t2 _ row Hrows Hle Hlive).
    cbn [map single verifiedAt vc_verified vc_code vc_name vc_whatsapp_number negb].
    now rewrite Hrow.
Qed.

Variable hashPassword : string -> string.
Variable comparePassword : string -> string -> bool.

Local Abbreviation setPassword :=
  (SetPassword.POST HS256 JWT_SECRET JWT_EXPIRES_IN hashPassword).
Local Abbreviation login :=
  (Login.POST HS256 JWT_SECRET JWT_EXPIRES_IN comparePassword).
Local Abbreviation session := (Session.GET HS256 JWT_SECRET JWT_EXPIRES_IN).

Lemma filter_and {A : Type} (p q' q : A -> bool) (rows : list A) :
  (forall r, q r = p r && q' r) ->
  List.filter q rows = List.filter q' (List.filter p rows).
Proof.
  intros H. induction rows as [|r rows IH]; [reflexivity|].
  cbn [List.filter]. rewrite H. destruct (p r); cbn [andb List.filter].
  - destruct (q' r); now rewrite IH.
  - exact IH.
Qed.

(** What a success of [verify-and-auth] says about the store. *)
Lemma verifyAndAuth_ok (t : Z) (request : VerifyAndAuth.Request) (db : Database)
    (a : VerifyAndAuth.Authenticated) :
  verifyAndAuth t request db = Ok a ->
  exists row,
    List.filter
      (fun r => (vc_code r =? VerifyAndAuth.data_code a)%string &&
                (t <? vc_expires_at r)%Z)
      (verification_codes db) = [row] /\
    vc_verified row = true /\
    vc_code row = VerifyAndAuth.data_code a /\
    Sanitize.sanitizeUserInput (VerifyAndAuth.code request) =
      VerifyAndAuth.data_code a /\
    Csrf.validateDoubleSubmitCSRF (VerifyAndAuth.http request) = true /\
    a = {| VerifyAndAuth.data_code := vc_code row;
           VerifyAndAuth.data_name := vc_name row;
           VerifyAndAuth.auth_token :=
             mint t {| SecureAuth.code := vc_code row; name := vc_name row;
                       whatsappNumber := vc_whatsapp_number row;
                       verified := true |} |}.
Proof.
  unfold VerifyAndAuth.POST.
  destruct (Csrf.validateDoubleSubmitCSRF _); [|discriminate]. cbn [negb].
  cbv zeta. destruct (nonEmpty _); [|discriminate]. cbn [negb].
  destruct (single _) as [row|err] eqn:Hone; [|destruct err; discriminate].
  destruct (vc_verified row) eqn:Hv; [|discriminate]. cbn [negb].
  intros [= <-]. cbn [VerifyAndAuth.data_code].
  apply SetPasswordFacts.single_inl in Hone.
  assert (Hrow : vc_code row =
                 Sanitize.sanitizeUserInput (VerifyAndAuth.code request)).
  { assert (Hin : In row [row]) by now left. rewrite <- Hone in Hin.
    apply filter_In in Hin as [_ Hin]. apply andb_true_iff in Hin as [Hin _].
    now apply String.eqb_eq in Hin. }
  exists row. rewrite Hrow. repeat split; try assumption; reflexivity.
Qed.

(** X27: the token of [verify-and-auth] opens [set-password].  When
    [verify-and-auth] has answered with a token, a [set-password] request
    that presents this token with the same code, passes the CSRF guard and
    brings an acceptable password is, while the token lives, never refused
    for its token or its code: if the record has expired in the meantime
    the answer is [RECORD_NOT_FOUND], and otherwise, no user having the
    number of the record, a user row is added with that number, the name
    of the record, the hash of the sanitized password and
    [verified = true], and a fresh token for the same code is returned. *)
Theorem sign_in_opens_set_password
    (t2 t3 : Z) (db : Database) (request : VerifyAndAuth.Request)
    (a : VerifyAndAuth.Authenticated) (sp : SetPassword.Request) (newId : string) :
  verifyAndAuth t2 request db = Ok a ->
  SetPassword.auth_token sp = Some (VerifyAndAuth.auth_token a) ->
  Sanitize.sanitizeUserInput (SetPassword.code sp) = VerifyAndAuth.data_code a ->
  Csrf.validateDoubleSubmitCSRF (SetPassword.http sp) = true ->
  AuthUtils.isValid
    (AuthUtils.validatePassword
       (Sanitize.sanitizeUserInput (SetPassword.password sp))) = true ->
  (t2 <= t3 < expiresAtMs t2 JWT_EXPIRES_IN)%Z ->
  exists row,
    In row (verification_codes db) /\
    vc_code row = VerifyAndAuth.data_code a /\
    vc_name row = VerifyAndAuth.data_name a /\
    vc_verified row = true /\
    ((vc_expires_at row <= t3)%Z ->
     setPassword t3 newId sp db =
     (db, SetPassword.Failure Errors.RECORD_NOT_FOUND 500)) /\
    ((t3 < vc_expires_at row)%Z ->
     existsb (fun u => (user_phone u =? vc_whatsapp_number row)%string)
       (users db) = false ->
     setPassword t3 newId sp db =
     ({| verification_codes := verification_codes db;
         users := users db ++
           [{| user_id := newId;
               user_phone := vc_whatsapp_number row;
               user_name := vc_name row;
               user_password_hash :=
                 hashPassword
                   (Sanitize.sanitizeUserInput (SetPassword.password sp));
               user_verified := true;
               user_created_at := t3;
               user_updated_at := t3 |}] |},
      SetPassword.PasswordSet newId (vc_name row) (vc_whatsapp_number row)
        (mint t3 {| SecureAuth.code := vc_code row; name := vc_name row;
                    whatsappNumber := vc_whatsapp_number row;
                    verified := true |}))).
Proof.
  intros Hok Htok Hcode Hcsrf Hpw [Hle Hlive].
  destruct (verifyAndAuth_ok _ _ _ _ Hok)
    as (row & Hrows & Hver & Hrow & _ & _ & Ha).
  exists row.
  assert (Hin : In row (verification_codes db)).
  { assert (H : In row [row]) by now left. rewrite <- Hrows in H.
    now apply filter_In in H. }
  split; [exact Hin|]. split; [exact Hrow|].
  split; [now rewrite Ha|]. split; [exact Hver|].
  assert (Hfilter :
    List.filter
      (fun r => (vc_code r =? VerifyAndAuth.data_code a)%string &&
                vc_verified r && (t3 <? vc_expires_at r)%Z)
      (verification_codes db) =
    if (t3 <? vc_expires_at row)%Z then [row] else []).
  { rewrite (filter_and
               (fun r => (vc_code r =? VerifyAndAuth.data_code a)%string &&
                         (t2 <? vc_expires_at r)%Z)
               (fun r => vc_verified r && (t3 <? vc_expires_at r)%Z)).
    - rewrite Hrows. cbn [List.filter]. rewrite Hver. cbn [andb].
      now destruct (t3 <? vc_expires_at row)%Z.
    - intros r. destruct (vc_code r =? _)%string; [|reflexivity]. cbn [andb].
      destruct (vc_verified r); cbn [andb]; [|now rewrite andb_false_r].
      destruct (Z.ltb_spec t3 (vc_expires_at r)); [|now rewrite andb_false_r].
      destruct (Z.ltb_spec t2 (vc_expires_at r)); [reflexivity|lia]. }
  assert (Hverify : verifySecureToken HS256 JWT_SECRET t3 (VerifyAndAuth.auth_token a) =
                    Some {| SecureAuth.code := vc_code row; name := vc_name row;
                            whatsappNumber := vc_whatsapp_number row;
                            verified := true |}).
  { rewrite Ha. cbn [VerifyAndAuth.auth_token]. rewrite TokenFacts.verify_mint.
    destruct (Z.leb_spec (expiresAtMs t2 JWT_EXPIRES_IN) t3); [lia|reflexivity]. }
  split.
  - intros Hdead. unfold SetPassword.POST.
    rewrite Hcsrf, Htok, Hverify. cbn [negb]. cbv zeta. rewrite Hpw. cbn [negb].
    cbn [SecureAuth.code]. rewrite Hcode, Hrow, String.eqb_refl. cbn [negb].
    rewrite Hfilter. destruct (Z.ltb_spec t3 (vc_expires_at row)); [lia|].
    reflexivity.
  - intros Hrec Hnone. unfold SetPassword.POST.
    rewrite Hcsrf, Htok, Hverify. cbn [negb]. cbv zeta. rewrite Hpw. cbn [negb].
    cbn [SecureAuth.code]. rewrite Hcode, Hrow, String.eqb_refl. cbn [negb].
    rewrite Hfilter. destruct (Z.ltb_spec t3 (vc_expires_at row)); [|lia].
    cbn [single]. rewrite Hnone.
    assert (Hnil : List.filter
                     (fun u => (user_phone u =? vc_whatsapp_number row)%string)
                     (users db) = []).
    { clear -Hnone. induction (users db) as [|u us IH]; [reflexivity|].
      cbn [existsb List.filter] in *.
      apply orb_false_iff in Hnone as [-> Hus]. auto. }
    rewrite Hnil. cbn [single]. now rewrite ?Hrow.
Qed.

(** The record a user row becomes when [set-password] updates it. *)
Lemma setPassword_sets (t : Z) (newId : string) (sp : SetPassword.Request)
    (db db' : Database) (uid name phone : string) (tok : Token) :
  setPassword t newId sp db = (db', SetPassword.PasswordSet uid name phone tok) ->
  let pw := Sanitize.sanitizeUserInput (SetPassword.password sp) in
  AuthUtils.isValid (AuthUtils.validatePassword pw) = true /\
  ((exists existing,
      List.filter (fun u => (user_phone u =? phone)%string) (users db) = [existing] /\
      uid = user_id existing /\
      users db' =
      map (fun u =>
             if (user_id u =? uid)%string then
               {| user_id := user_id u; user_phone := user_phone u;
                  user_name := user_name u;
                  user_password_hash := hashPassword pw;
                  user_verified := user_verified u;
                  user_created_at := user_created_at u;
                  user_updated_at := t |}
             else u)
          (users db)) \/
   (List.filter (fun u => (user_phone u =? phone)%string) (users db) = [] /\
    exists name',
      users db' = (users db ++
        [{| user_id := uid; user_phone := phone; user_name := name';
            user_password_hash := hashPassword pw; user_verified := true;
            user_created_at := t; user_updated_at := t |}])%list)).
Proof.
  unfold SetPassword.POST.
  destruct (Csrf.validateDoubleSubmitCSRF _); [|discriminate]. cbn [negb].
  destruct (SetPassword.auth_token sp) as [authToken|]; [|discriminate].
  destruct (verifySecureToken _ _ _ _) as [sessionData|]; [|discriminate].
  cbv zeta.
  destruct (AuthUtils.isValid _) eqn:Hpw; [|discriminate]. cbn [negb].
  destruct (_ =? _)%string; [|discriminate]. cbn [negb].
  destruct (single (List.filter _ (verification_codes db))) as [row|err];
    [|discriminate].
  destruct (single (List.filter _ (users db))) as [existing|err] eqn:Hu.
  - intros [= <- <- <- <- <-]. split; [reflexivity|]. left.
    exists existing. apply SetPasswordFacts.single_inl in Hu.
    repeat split. exact Hu.
  - destruct (existsb _ (users db)) eqn:Hex; [discriminate|].
    intros [= <- <- <- <- <-]. split; [reflexivity|]. right. split.
    + clear -Hex. induction (users db) as [|u us IH]; [reflexivity|].
      cbn [existsb List.filter] in *.
      apply orb_false_iff in Hex as [-> Hus]. auto.
    + eexists. reflexivity.
Qed.

Lemma filter_map_same {A : Type} (q : A -> bool) (f : A -> A) (rows : list A) :
  (forall r, q (f r) = q r) ->
  List.filter q (map f rows) = map f (List.filter q rows).
Proof.
  intros H. induction rows as [|r rows IH]; [reflexivity|].
  cbn [map List.filter]. rewrite H, IH. now destruct (q r).
Qed.

Lemma validatePassword_valid (p : string) :
  AuthUtils.isValid (AuthUtils.validatePassword p) = true ->
  Validation.validatePassword p = Validation.Valid p.
Proof.
  unfold Validation.validatePassword, AuthUtils.validatePassword.
  destruct (nonEmpty p); [|discriminate]. cbn [negb]. cbv zeta.
  destruct (String.length p <? 6)%nat;
    destruct (128 <? String.length p)%nat;
    destruct (existsb_str isLetter p);
    destruct (AuthUtils.includes "password" (toLowerCase p));
    destruct (AuthUtils.includes "123456" (toLowerCase p));
    destruct (AuthUtils.hasRepeated4 p);
    cbn; intros H; try discriminate H; reflexivity.
Qed.

Lemma nonEmpty_length (s : string) : (0 < String.length s)%nat -> nonEmpty s = true.
Proof. destruct s; cbn; [lia|reflexivity]. Qed.

(** X28: a password that was set opens the password login, and the
    session it yields needs no record.  Let every user row be verified, as
    [set-password] creates them, let [bcrypt.compare] accept a password
    against its own hash, and let [set-password] have succeeded.  Then a
    login with the number and the same password that passes the rate limit
    and the CSRF guard succeeds for the user of that call; its token has as
    subject the 128 hexadecimal digits of the 64 random bytes, and the
    session route answers it, while it lives, from the token alone,
    whatever the store holds: verified, and without a new cookie. *)
Theorem set_password_opens_login
    (t3 t4 t5 : Z) (newId : string) (sp : SetPassword.Request)
    (db db' anyDb : Database) (uid name phone : string) (tok : Token)
    (randomBytes : nat -> byte) (lr : Login.Request)
    (rateLimitStore : gmap string RateLimit.RateLimitEntry) :
  (forall p, comparePassword p (hashPassword p) = true) ->
  Forall (fun u => user_verified u = true) (users db) ->
  setPassword t3 newId sp db = (db', SetPassword.PasswordSet uid name phone tok) ->
  RateLimit.allowed
    (RateLimit.checkRateLimit
       {| RateLimit.headers := Csrf.headers (Login.http lr) |}
       RateLimit.auth t4 rateLimitStore).2 = true ->
  Csrf.validateDoubleSubmitCSRF (Login.http lr) = true ->
  Validation.validatePhoneNumber (Sanitize.sanitizeUserInput (Login.phone lr)) =
    Validation.Valid phone ->
  Sanitize.sanitizeUserInput (Login.password lr) =
    Sanitize.sanitizeUserInput (SetPassword.password sp) ->
  (t4 <= t5 < expiresAtMs t4 JWT_EXPIRES_IN)%Z ->
  exists (userName : string) (sessionId : string),
    sessionId = Hex.hexOfBytes (map randomBytes (seq 0 64)) /\
    String.length sessionId = 128%nat /\
    (login t4 randomBytes lr rateLimitStore db').2 =
    Ok {| Login.user_id := uid; Login.user_name := userName;
          Login.user_phone := phone;
          Login.auth_token :=
            mint t4 {| SecureAuth.code := sessionId; name := userName;
                       whatsappNumber := phone; verified := true |} |} /\
    session t5
      (Some (mint t4 {| SecureAuth.code := sessionId; name := userName;
                        whatsappNumber := phone; verified := true |}))
      anyDb =
    Ok {| Session.data_code := sessionId; Session.data_name := userName;
          Session.data_verified := true; Session.set_cookie := None |}.
Proof.
  intros Hcmp Hall Hset Hallowed Hcsrf Hphone Hpw [Hle Hlive].
  destruct (setPassword_sets _ _ _ _ _ _ _ _ _ Hset) as [Hvalid Hcases].
  cbv zeta in Hvalid, Hcases.
  set (pw := Sanitize.sanitizeUserInput (SetPassword.password sp)) in *.
  assert (Huser : exists u,
            List.filter (fun u => (user_phone u =? phone)%string && user_verified u)
              (users db') = [u] /\
            user_id u = uid /\ user_phone u = phone /\
            user_password_hash u = hashPassword pw).
  { destruct Hcases as [(existing & Hone & Hid & Husers)|(Hnone & name' & Husers)].
    - assert (Hin : In existing (users db)).
      { assert (H : In existing [existing]) by now left. rewrite <- Hone in H.
        now apply filter_In in H. }
      assert (Hphone' : user_phone existing = phone).
      { assert (H : In existing [existing]) by now left. rewrite <- Hone in H.
        apply filter_In in H as [_ H]. now apply String.eqb_eq in H. }
      rewrite List.Forall_forall in Hall. specialize (Hall _ Hin).
      eexists. split; [|split; [|split]].
      + rewrite Husers. rewrite filter_map_same.
        * rewrite (filter_and (fun u => (user_phone u =? phone)%string)
                     user_verified) by reflexivity.
          rewrite Hone. cbn [List.filter]. rewrite Hall. cbn [map].
          rewrite Hid, String.eqb_refl. reflexivity.
        * intros r. now destruct (user_id r =? uid)%string.
      + cbn. now symmetry.
      + cbn. exact Hphone'.
      + reflexivity.
    - eexists. split; [|split; [|split]].
      + rewrite Husers, List.filter_app.
        rewrite (filter_and (fun u => (user_phone u =? phone)%string)
                   user_verified _ (users db)) by reflexivity.
        rewrite Hnone. cbn [List.filter app user_phone user_verified].
        rewrite String.eqb_refl. reflexivity.
      + reflexivity.
      + reflexivity.
      + reflexivity. }
  destruct Huser as (u & Hu & Hid & Huphone & Hhash).
  set (sessionId := Hex.hexOfBytes (map randomBytes (seq 0 64))).
  assert (Hlen : String.length sessionId = 128%nat).
  { subst sessionId. now rewrite length_hexOfBytes, length_map, length_seq. }
  exists (user_name u), sessionId. split; [reflexivity|]. split; [exact Hlen|].
  split.
  - unfold Login.POST.
    destruct (RateLimit.checkRateLimit _ _ _ _) as [store' rateLimit].
    cbn [snd] in Hallowed |- *. rewrite Hallowed, Hcsrf. cbn [negb]. cbv zeta.
    rewrite Hphone, Hpw. fold pw.
    rewrite (validatePassword_valid _ Hvalid), Hu. cbn [single].
    rewrite Hhash, Hcmp. cbn [negb].
    unfold SetPassword.passwordLoginSession. fold sessionId.
    now rewrite Hid, Huphone.
  - unfold Session.GET, Session.verifySecureTokenEdge.
    rewrite TokenFacts.verify_mint.
    destruct (Z.leb_spec (expiresAtMs t4 JWT_EXPIRES_IN) t5); [lia|].
    unfold withVerified.
    cbn [SecureAuth.code SecureAuth.name SecureAuth.whatsappNumber
         SecureAuth.verified].
    unfold SetPassword.looksLikeSessionId.
    rewrite nonEmpty_length by lia. rewrite Hlen. reflexivity.
Qed.

Local Abbreviation resetPassword :=
  (ResetPassword.POST HS256 JWT_SECRET JWT_EXPIRES_IN).

(** The code the probing loop settles on: the candidate number [k], all
    earlier candidates being the code of exactly one record each; and the
    probe of candidate [k] found no single record unless the replacements
    were used up. *)
Lemma chooseCode_spec (candidates : nat -> string) (rows : list VerificationRow)
    (fuel : nat) :
  forall n : nat,
  exists k : nat,
    (k <= fuel)%nat /\
    ResetPassword.chooseCode fuel candidates (S n) (candidates n) rows =
      candidates (n + k)%nat /\
    (forall j, (j < k)%nat ->
       exists r, List.filter (fun row => (vc_code row =? candidates (n + j)%nat)%string)
                   rows = [r]) /\
    ((k < fuel)%nat ->
     forall r, List.filter (fun row => (vc_code row =? candidates (n + k)%nat)%string)
                 rows <> [r]).
Proof.
  induction fuel as [|fuel IH]; intros n.
  - exists 0%nat. rewrite Nat.add_0_r. split; [lia|]. split; [reflexivity|].
    split; [intros j Hj; lia|intros Hlt; lia].
  - cbn [ResetPassword.chooseCode].
    destruct (single (List.filter _ rows)) as [r|err] eqn:Hone.
    + destruct (IH (S n)) as (k & Hk & Hcode & Hbefore & Hstop).
      exists (S k). split; [lia|]. split; [|split].
      * rewrite Hcode. f_equal. lia.
      * intros [|j] Hj.
        -- exists r. rewrite Nat.add_0_r. now apply SetPasswordFacts.single_inl.
        -- destruct (Hbefore j ltac:(lia)) as [r' Hr']. exists r'.
           now replace (n + S j)%nat with (S n + j)%nat by lia.
      * intros Hlt r'. replace (n + S k)%nat with (S n + k)%nat by lia.
        apply Hstop. lia.
    + exists 0%nat. rewrite Nat.add_0_r. split; [lia|]. split; [reflexivity|].
      split; [lia|]. intros _ r' E. rewrite E in Hone. discriminate Hone.
Qed.

(** X29: what a successful reset request leaves behind.  The phone of the
    request, sanitized and validated, is the number of a verified user; the
    code is the first of the at most eleven candidates whose probe found no
    single record with it, the eleventh being taken without a probe; the
    store gains exactly one record, pending, with that code, the name of
    the user, the number, and an expiry ten minutes ahead; and the token
    carries the code.  The token alone does not open [set-password]: as
    long as no record with the code is verified (none with the code having
    been there before), a [set-password] request with the token is
    answered [RECORD_NOT_FOUND] and changes nothing. *)
Theorem reset_leaves_a_pending_record
    (now t : Z) (candidates : nat -> string) (insertError : option DbError)
    (request : ResetPassword.Request) (db db' : Database)
    (issued : ResetPassword.Issued) (sp : SetPassword.Request) (newId : string) :
  resetPassword now candidates insertError request db = (db', Ok issued) ->
  exists (user : UserRow) (phone : string) (k : nat),
    Validation.validatePhoneNumber
      (Sanitize.sanitizeUserInput (ResetPassword.phone request)) =
      Validation.Valid phone /\
    In user (users db) /\ user_phone user = phone /\ user_verified user = true /\
    (k <= 10)%nat /\ ResetPassword.issued_code issued = candidates k /\
    (forall j, (j < k)%nat ->
       exists r, List.filter (fun row => (vc_code row =? candidates j)%string)
                   (verification_codes db) = [r]) /\
    ((k < 10)%nat ->
     forall r, List.filter (fun row => (vc_code row =? candidates k)%string)
                 (verification_codes db) <> [r]) /\
    db' = {| verification_codes :=
               verification_codes db ++
               [{| vc_code := candidates k; vc_name := user_name user;
                   vc_whatsapp_number := phone; vc_verified := false;
                   vc_expires_at := now + 600000; vc_verified_at := None |}];
             users := users db |} /\
    ResetPassword.auth_token issued =
      mint now (resetFlowSession (candidates k) (user_name user) phone) /\
    (List.filter (fun row => (vc_code row =? candidates k)%string)
       (verification_codes db) = [] ->
     SetPassword.auth_token sp = Some (ResetPassword.auth_token issued) ->
     Sanitize.sanitizeUserInput (SetPassword.code sp) = candidates k ->
     Csrf.validateDoubleSubmitCSRF (SetPassword.http sp) = true ->
     AuthUtils.isValid
       (AuthUtils.validatePassword
          (Sanitize.sanitizeUserInput (SetPassword.password sp))) = true ->
     (t < expiresAtMs now JWT_EXPIRES_IN)%Z ->
     setPassword t newId sp db' =
     (db', SetPassword.Failure Errors.RECORD_NOT_FOUND 500)).
Proof.
  unfold ResetPassword.POST.
  destruct (Csrf.validateDoubleSubmitCSRF _); [|discriminate]. cbn [negb].
  cbv zeta.
  destruct (Validation.validatePhoneNumber _) as [phone|msg] eqn:Hphone;
    [|discriminate].
  destruct (single (List.filter _ (users db))) as [user|err] eqn:Huser;
    [|discriminate].
  destruct insertError as [err|]; [destruct err; discriminate|].
  destruct (chooseCode_spec candidates (verification_codes db) 10 0)
    as (k & Hk & Hcode & Hbefore & Hstop).
  cbn [Nat.add] in Hcode, Hbefore, Hstop. rewrite Hcode.
  cbn [vc_code]. intros [= <- <-].
  apply SetPasswordFacts.single_inl in Huser.
  assert (Hin : In user (List.filter
                           (fun u => (user_phone u =? phone)%string && user_verified u)
                           (users db))) by (rewrite Huser; now left).
  apply filter_In in Hin as [Hin Hu]. apply andb_true_iff in Hu as [Hp Hv].
  apply String.eqb_eq in Hp.
  exists user, phone, k.
  change (10 * 60 * 1000)%Z with 600000%Z.
  cbn [ResetPassword.issued_code ResetPassword.auth_token].
  repeat (split; [first [reflexivity|assumption]|]).
  intros Hfresh Htok Hcodesp Hcsrf Hpw Hlive.
  unfold SetPassword.POST. rewrite Hcsrf, Htok. cbn [negb].
  rewrite TokenFacts.verify_mint.
  destruct (Z.leb_spec (expiresAtMs now JWT_EXPIRES_IN) t); [lia|].
  cbv zeta. rewrite Hpw. cbn [negb].
  unfold withVerified, resetFlowSession. cbn [SecureAuth.code].
  rewrite Hcodesp, String.eqb_refl. cbn [negb verification_codes].
  rewrite List.filter_app.
  rewrite (filter_and (fun row => (vc_code row =? candidates k)%string)
             (fun row => vc_verified row && (t <? vc_expires_at row)%Z)
             _ (verification_codes db)).
  - rewrite Hfresh. cbn [List.filter app vc_code vc_verified].
    rewrite String.eqb_refl. reflexivity.
  - intros r. now rewrite andb_assoc.
Qed.

(** X30: what the session route reports.  For a token whose subject is a
    random session identifier the answer comes from the token alone:
    verified, no new cookie, whatever the store holds.  For a token whose
    subject is a verification code the answer repeats the one unexpired
    record with that code: its code, its name and its own [verified] flag,
    not that of the token; and exactly when the record is not verified the
    route sets a new cookie, whose token carries the same code, name and
    number and lives for a full lifetime from this call on, so that a
    client polling for its verification renews its session with every
    call. *)
Theorem session_reports_the_record
    (now t : Z) (token : Token) (sessionData : SessionData) (db : Database) :
  verifySecureToken HS256 JWT_SECRET now token = Some sessionData ->
  (SetPassword.looksLikeSessionId (SecureAuth.code sessionData) = true ->
   session now (Some token) db =
   Ok {| Session.data_code := SecureAuth.code sessionData;
         Session.data_name := SecureAuth.name sessionData;
         Session.data_verified := true;
         Session.set_cookie := None |}) /\
  (SetPassword.looksLikeSessionId (SecureAuth.code sessionData) = false ->
   forall row : VerificationRow,
     List.filter
       (fun r => (vc_code r =? SecureAuth.code sessionData)%string &&
                 (now <? vc_expires_at r)%Z)
       (verification_codes db) = [row] ->
     let renewed :=
       mint now {| SecureAuth.code := SecureAuth.code sessionData;
                   SecureAuth.name := SecureAuth.name sessionData;
                   SecureAuth.whatsappNumber := SecureAuth.whatsappNumber sessionData;
                   SecureAuth.verified := false |} in
     session now (Some token) db =
     Ok {| Session.data_code := vc_code row;
           Session.data_name := vc_name row;
           Session.data_verified := vc_verified row;
           Session.set_cookie :=
             if vc_verified row then None else Some renewed |} /\
     vc_code row = SecureAuth.code sessionData /\
     ((now <= t < expiresAtMs now JWT_EXPIRES_IN)%Z ->
      verifySecureToken HS256 JWT_SECRET t renewed = Some sessionData)) /\
  (forall code : string,
     Security.validateVerificationCode code = Some code ->
     SetPassword.looksLikeSessionId code = false).
Proof.
  intros Hverify.
  assert (Hflag : SecureAuth.verified sessionData = true).
  { revert Hverify. unfold verifySecureToken.
    destruct (verifyAccessToken _ _ _ _); [|discriminate]. now intros [= <-]. }
  split; [|split].
  - intros Hlong. unfold Session.GET, Session.verifySecureTokenEdge.
    now rewrite Hverify, Hlong, Hflag.
  - intros Hshort row Hrows renewed.
    assert (Hrow : vc_code row = SecureAuth.code sessionData).
    { assert (H : In row [row]) by now left. rewrite <- Hrows in H.
      apply filter_In in H as [_ H]. apply andb_true_iff in H as [H _].
      now apply String.eqb_eq in H. }
    split; [|split; [exact Hrow|]].
    + unfold Session.GET, Session.verifySecureTokenEdge,
        Session.generateSecureTokenEdge.
      rewrite Hverify, Hshort, Hrows. cbn [single]. rewrite Hflag.
      subst renewed. now destruct (vc_verified row).
    + intros [Hle Hlive]. subst renewed. rewrite TokenFacts.verify_mint.
      destruct (Z.leb_spec (expiresAtMs now JWT_EXPIRES_IN) t); [lia|].
      unfold withVerified. cbn. f_equal.
      destruct sessionData as [c n w v]. cbn in Hflag |- *. now rewrite Hflag.
  - intros code. unfold Security.validateVerificationCode.
    destruct (nonEmpty code); [|discriminate]. cbn [negb].
    destruct (Nat.eqb_spec (String.length code) 6) as [Hlen|]; [|discriminate].
    intros _. unfold SetPassword.looksLikeSessionId. rewrite Hlen.
    apply andb_false_r.
Qed.

End Routes.

(** The sender of the code has written half a second before, so the window
    of the limit is running when the code arrives. *)
Lemma code_flow_signs_in_witness :
  let st := (Webhook.POST WebhookSig.exampleHmac (Some Webhook.exampleSecret)
               500 Webhook.calm
               (Webhook.exampleDelivery "raw-1" (Webhook.chat "1"))
               Webhook.exampleState).1 in
  let delivery := Webhook.exampleDelivery "raw-code" Webhook.codeMessage in
  let request := {| VerifyAndAuth.http := browser; VerifyAndAuth.code := "X7K2M9" |} in
  let st' := (Webhook.POST WebhookSig.exampleHmac (Some Webhook.exampleSecret)
                1000 Webhook.calm delivery st).1 in
  Webhook.messageRateLimit st !! Webhook.from Webhook.codeMessage = Some 500%Z /\
  VerifyAndAuth.POST exampleDigest "secret" 3600 1000 request
    (database st []) = Error "VERIFICATION_FAILED" 400 /\
  VerifyAndAuth.POST exampleDigest "secret" 3600 2000 request (database st' []) =
  Ok {| VerifyAndAuth.data_code := "X7K2M9";
        VerifyAndAuth.data_name := "Ann";
        VerifyAndAuth.auth_token :=
          generateSecureToken exampleDigest "secret" 3600 2000
            {| SecureAuth.code := "X7K2M9"; name := "Ann";
               whatsappNumber := "15551234567"; verified := true |} |}.
Proof.
  intros st delivery request st'. split; [vm_compute; reflexivity|].
  apply (code_flow_signs_in WebhookSig.exampleHmac (Some Webhook.exampleSecret)
           exampleDigest "secret" 3600 1000 2000 Webhook.calm delivery
           Webhook.codeMessage st [] "X7K2M9"
           {| vc_code := "X7K2M9"; vc_name := "Ann";
              vc_whatsapp_number := "15551234567"; vc_verified := false;
              vc_expires_at := 600000; vc_verified_at := None |} request).
  - split; [reflexivity|]. split; [|reflexivity].
    exists Webhook.exampleSecret. split; reflexivity.
  - vm_compute. reflexivity.
  - vm_compute. discriminate.
  - reflexivity.
  - vm_compute. reflexivity.
  - reflexivity.
  - reflexivity.
  - reflexivity.
  - reflexivity.
  - cbn. lia.
Defined.

Lemma sign_in_opens_set_password_witness :
  let request := {| VerifyAndAuth.http := browser; VerifyAndAuth.code := "X7K2M9" |} in
  let session := {| SecureAuth.code := "X7K2M9"; name := "Ann";
                    whatsappNumber := "15551234567"; verified := true |} in
  let a := {| VerifyAndAuth.data_code := "X7K2M9";
              VerifyAndAuth.data_name := "Ann";
              VerifyAndAuth.auth_token :=
                generateSecureToken exampleDigest "secret" 3600 1000 session |} in
  let sp := {| SetPassword.http := browser;
               SetPassword.auth_token := Some (VerifyAndAuth.auth_token a);
               SetPassword.password := "abc123";
               SetPassword.code := "X7K2M9" |} in
  VerifyAndAuth.POST exampleDigest "secret" 3600 1000 request
    SetPassword.exampleDb = Ok a /\
  SetPassword.POST exampleDigest "secret" 3600 SetPassword.exampleHash
    2000 "user-1" sp SetPassword.exampleDb =
  ({| verification_codes := verification_codes SetPassword.exampleDb;
      users :=
        [{| user_id := "user-1"; user_phone := "15551234567";
            user_name := "Ann";
            user_password_hash := SetPassword.exampleHash "abc123";
            user_verified := true; user_created_at := 2000;
            user_updated_at := 2000 |}] |},
   SetPassword.PasswordSet "user-1" "Ann" "15551234567"
     (generateSecureToken exampleDigest "secret" 3600 2000 session)).
Proof.
  intros request session a sp.
  assert (Hok : VerifyAndAuth.POST exampleDigest "secret" 3600 1000 request
                  SetPassword.exampleDb = Ok a) by reflexivity.
  split; [exact Hok|].
  destruct (sign_in_opens_set_password exampleDigest "secret" 3600
              SetPassword.exampleHash 1000 2000 SetPassword.exampleDb request a sp
              "user-1" Hok eq_refl eq_refl eq_refl eq_refl
              ltac:(vm_compute; split; [discriminate|reflexivity]))
    as (row & Hin & _ & _ & _ & _ & Hset).
  destruct Hin as [<-|[]]. apply Hset; reflexivity.
Defined.

Lemma set_password_opens_login_witness :
  let db' := (SetPassword.POST exampleDigest "secret" 3600 SetPassword.exampleHash
                1000 "user-1" SetPassword.exampleRequest SetPassword.exampleDb).1 in
  exists (userName : string) (sessionId : string),
    sessionId = Hex.hexOfBytes (map (fun _ => x2a) (seq 0 64)) /\
    String.length sessionId = 128%nat /\
    (Login.POST exampleDigest "secret" 3600 exampleCompare 3000 (fun _ => x2a)
       loginRequest ∅ db').2 =
    Ok {| Login.user_id := "user-1"; Login.user_name := userName;
          Login.user_phone := "15551234567";
          Login.auth_token :=
            generateSecureToken exampleDigest "secret" 3600 3000
              {| SecureAuth.code := sessionId; name := userName;
                 whatsappNumber := "15551234567"; verified := true |} |} /\
    Session.GET exampleDigest "secret" 3600 4000
      (Some (generateSecureToken exampleDigest "secret" 3600 3000
               {| SecureAuth.code := sessionId; name := userName;
                  whatsappNumber := "15551234567"; verified := true |}))
      SetPassword.exampleDb =
    Ok {| Session.data_code := sessionId; Session.data_name := userName;
          Session.data_verified := true; Session.set_cookie := None |}.
Proof.
  intros db'.
  apply (set_password_opens_login exampleDigest "secret" 3600
           SetPassword.exampleHash exampleCompare 1000 3000 4000 "user-1"
           SetPassword.exampleRequest SetPassword.exampleDb db'
           SetPassword.exampleDb "user-1" "Ann" "15551234567"
           (generateSecureToken exampleDigest "secret" 3600 1000
              {| SecureAuth.code := "X7K2M9"; name := "Ann";
                 whatsappNumber := "15551234567"; verified := true |})
           (fun _ => x2a) loginRequest ∅).
  - intros p. unfold exampleCompare. apply String.eqb_refl.
  - constructor.
  - reflexivity.
  - vm_compute. reflexivity.
  - reflexivity.
  - reflexivity.
  - reflexivity.
  - vm_compute. split; [discriminate|reflexivity].
Defined.

Lemma reset_leaves_a_pending_record_witness :
  let pending :=
    {| vc_code := "Q4W8E2"; vc_name := "Ann";
       vc_whatsapp_number := "15551234567"; vc_verified := false;
       vc_expires_at := 601000; vc_verified_at := None |} in
  let db' := {| verification_codes := verification_codes resetDb ++ [pending];
                users := users resetDb |} in
  let token := generateSecureToken exampleDigest "secret" 3600 1000
                 (resetFlowSession "Q4W8E2" "Ann" "15551234567") in
  let sp := {| SetPassword.http := browser;
               SetPassword.auth_token := Some token;
               SetPassword.password := "abc123";
               SetPassword.code := "Q4W8E2" |} in
  ResetPassword.POST exampleDigest "secret" 3600 1000 resetCandidates None
    resetRequest resetDb =
  (db', Ok {| ResetPassword.issued_code := "Q4W8E2";
             ResetPassword.auth_token := token |}) /\
  SetPassword.POST exampleDigest "secret" 3600 SetPassword.exampleHash
    2000 "user-2" sp db' =
  (db', SetPassword.Failure Errors.RECORD_NOT_FOUND 500).
Proof.
  intros pending db' token sp.
  assert (Hreset : ResetPassword.POST exampleDigest "secret" 3600 1000
                     resetCandidates None resetRequest resetDb =
                   (db', Ok {| ResetPassword.issued_code := "Q4W8E2";
                              ResetPassword.auth_token := token |}))
    by reflexivity.
  split; [exact Hreset|].
  destruct (reset_leaves_a_pending_record exampleDigest "secret" 3600
              SetPassword.exampleHash 1000 2000 resetCandidates None
              resetRequest resetDb db' _ sp "user-2" Hreset)
    as (user & phone & k & _ & _ & _ & _ & _ & Hk & _ & _ & _ & _ & Hset).
  assert (Ek : resetCandidates k = "Q4W8E2") by (now rewrite <- Hk).
  rewrite Ek in Hset. apply Hset; try reflexivity.
Defined.

Lemma session_reports_the_record_witness :
  let session := {| SecureAuth.code := "X7K2M9"; name := "Ann";
                    whatsappNumber := "15551234567"; verified := true |} in
  let renewed := generateSecureToken exampleDigest "secret" 3600 1000
                   (withVerified session false) in
  Session.GET exampleDigest "secret" 3600 1000 (Some SetPassword.exampleToken)
    (database Webhook.exampleState []) =
  Ok {| Session.data_code := "X7K2M9"; Session.data_name := "Ann";
        Session.data_verified := false; Session.set_cookie := Some renewed |} /\
  verifySecureToken exampleDigest "secret" 3600500 SetPassword.exampleToken = None /\
  verifySecureToken exampleDigest "secret" 3600500 renewed = Some session.
Proof.
  intros session renewed.
  destruct (session_reports_the_record exampleDigest "secret" 3600 1000 3600500
              SetPassword.exampleToken session
              (database Webhook.exampleState []) eq_refl)
    as (_ & Hcode & _).
  destruct (Hcode eq_refl
              {| vc_code := "X7K2M9"; vc_name := "Ann";
                 vc_whatsapp_number := "15551234567"; vc_verified := false;
                 vc_expires_at := 600000; vc_verified_at := None |} eq_refl)
    as (Hget & _ & Hrenewed).
  split; [exact Hget|]. split; [reflexivity|].
  apply Hrenewed. vm_compute. split; [discriminate|reflexivity].
Defined.

End FlowFacts.
